(** * Territory tracking application: model of the state store

    Shallow embedding of the territory application component
    ([AppControleNcs]): the document data model, the role hierarchy, the
    block summary recalculation, the house and block mutators, the base64
    transport codec and the fetch / commit handlers. *)

From Stdlib Require Import ZArith NArith QArith Qcanon List Ascii String Lia.
From stdpp Require Import gmap strings list fin_maps pretty numbers.

Open Scope Z_scope.

(** * Part I: definitions *)

(** ** Data model *)

Inductive UserRole := Comum | Capitao | Admin | SuperAdmin.

(** A house object.  A field is [None] when the property is absent from the
    object (it then reads as [undefined]); a house read from a well-typed
    document has all five.  [lastVisit = Some None] is the value [null].
    The same record serves as [Partial<HouseRecord>]. *)
Record HouseRecord := {
  status : option Z;
  chalkNumber : option string;
  officialNumber : option string;
  notes : option string;
  lastVisit : option (option string);
}.

Record Summary := {
  total : Z;
  verde : Z;
  amarelo : Z;
  laranja : Z;
  vermelho : Z;
}.

Record BlockRecord := {
  summary : Summary;
  imageUrl : string;
  houses : gmap string HouseRecord;
}.

Record TerritoryRecord := {
  name : string;
  territoryStatus : string;
  lastUse : string;
  blocks : gmap string BlockRecord;
}.

Record AppConfig := {
  superAdminEmail : string;
  userRoles : gmap string UserRole;
}.

Record AppData := {
  appConfig : AppConfig;
  territories : gmap string TerritoryRecord;
}.

(** ** Access control *)

Definition roleHierarchy (role : UserRole) : Z :=
  match role with
  | Comum => 0
  | Capitao => 1
  | Admin => 2
  | SuperAdmin => 3
  end.

Definition hasCapability (role required : UserRole) : bool :=
  roleHierarchy role >=? roleHierarchy required.

(** The order of the specification: Comum < Capitão < Admin < Super Admin,
    as the chain of immediate successors and its reflexive transitive
    closure. *)
Inductive role_succ : UserRole → UserRole → Prop :=
  | succ_Comum : role_succ Comum Capitao
  | succ_Capitao : role_succ Capitao Admin
  | succ_Admin : role_succ Admin SuperAdmin.

Definition role_le : UserRole → UserRole → Prop := rtc role_succ.

(** ** Aggregate recalculation *)

Definition statusCycle : list Z := [1; 2; 3; 4].

(** [house.status === v] *)
Definition statusIs (house : HouseRecord) (v : Z) : bool :=
  bool_decide (status house = Some v).

Definition emptySummary : Summary :=
  {| total := 0; verde := 0; amarelo := 0; laranja := 0; vermelho := 0 |}.

(** Body of the [forEach] callback of [recalcBlockSummary]. *)
Definition tally (house : HouseRecord) (s : Summary) : Summary :=
  {| total := total s + 1;
     verde := if statusIs house 1 then verde s + 1 else verde s;
     amarelo := if statusIs house 2 then amarelo s + 1 else amarelo s;
     laranja := if statusIs house 3 then laranja s + 1 else laranja s;
     vermelho := if statusIs house 4 then vermelho s + 1 else vermelho s |}.

Definition setSummary (s : Summary) (block : BlockRecord) : BlockRecord :=
  {| summary := s; imageUrl := imageUrl block; houses := houses block |}.

Definition setHouses (hs : gmap string HouseRecord) (block : BlockRecord) : BlockRecord :=
  {| summary := summary block; imageUrl := imageUrl block; houses := hs |}.

Definition setImageUrl (url : string) (block : BlockRecord) : BlockRecord :=
  {| summary := summary block; imageUrl := url; houses := houses block |}.

(** [recalcBlockSummary]: the source assigns [block.summary] in place; the
    model returns the updated block.  [Object.values] enumerates the houses
    in property order, [map_fold] in the map's order: [tally] commutes with
    itself, so the order does not show. *)
Definition recalcBlockSummary (block : BlockRecord) : BlockRecord :=
  setSummary (map_fold (λ _ house s, tally house s) emptySummary (houses block)) block.

(** Number of houses of a map with a given status, and the invariant that
    relates a block's summary to its houses. *)
Definition countStatus (v : Z) (hs : gmap string HouseRecord) : nat :=
  size (filter (λ kv : string * HouseRecord, status kv.2 = Some v) hs).

Definition summaryOf (hs : gmap string HouseRecord) : Summary :=
  {| total := Z.of_nat (size hs);
     verde := Z.of_nat (countStatus 1 hs);
     amarelo := Z.of_nat (countStatus 2 hs);
     laranja := Z.of_nat (countStatus 3 hs);
     vermelho := Z.of_nat (countStatus 4 hs) |}.

Definition summaryConsistent (block : BlockRecord) : Prop :=
  summary block = summaryOf (houses block).

(** A house whose status is one of the four codes. *)
Definition statusInRange (house : HouseRecord) : Prop :=
  ∃ v, status house = Some v ∧ 1 ≤ v ≤ 4.

(** ** Platform functions used by the mutators *)

(** A JavaScript number: not-a-number, an infinity, or a finite value. *)
Inductive number :=
  | NaN
  | Infinity (negative : bool)
  | Finite (q : Qc).

(** Functions of the platform that the mutators call on strings.  [Number]
    is the conversion [Number(key)] of a property key; [nextId] stands for
    [String(Math.max(0, ...Object.keys(o).map((id) => Number(id))) + 1)],
    given the keys of [o]; [firstKey] for [Object.keys(o)[0]], the first key
    in property order, which a finite map does not record. *)
Class Builtins := {
  Number : string → number;
  nextId : gset string → string;
  firstKey : gset string → option string;
}.

(** [String(index)] for an integer loop counter: its decimal digits. *)
Definition indexKey (index : Z) : string := pretty index.

(** [Number.isFinite(num) && num > max] *)
Definition exceeds (num : number) (max : Z) : bool :=
  match num with
  | Finite q => bool_decide (Qc_of_Z max < q)%Qc
  | _ => false
  end.

(** ** House and block mutators, at the level of one block *)

Definition newHouse (key : string) : HouseRecord :=
  {| status := Some 1;
     chalkNumber := Some key;
     officialNumber := Some ""%string;
     notes := Some ""%string;
     lastVisit := Some None |}.

Definition setChalkNumber (key : string) (house : HouseRecord) : HouseRecord :=
  {| status := status house;
     chalkNumber := Some key;
     officialNumber := officialNumber house;
     notes := notes house;
     lastVisit := lastVisit house |}.

(** [{ ...base, ...updates }]: a property present in [updates] wins. *)
Definition override {A} (base updates : option A) : option A :=
  match updates with
  | Some v => Some v
  | None => base
  end.

Definition spread (base updates : HouseRecord) : HouseRecord :=
  {| status := override (status base) (status updates);
     chalkNumber := override (chalkNumber base) (chalkNumber updates);
     officialNumber := override (officialNumber base) (officialNumber updates);
     notes := override (notes base) (notes updates);
     lastVisit := override (lastVisit base) (lastVisit updates) |}.

(** The object [{}], spread in place of a missing house. *)
Definition emptyObject : HouseRecord :=
  {| status := None; chalkNumber := None; officialNumber := None;
     notes := None; lastVisit := None |}.

(** [statusCycle.indexOf(x)], [-1] when absent. *)
Fixpoint indexOfFrom (l : list Z) (x : option Z) (i : Z) : Z :=
  match l with
  | [] => -1
  | y :: l' => if bool_decide (x = Some y) then i else indexOfFrom l' x (i + 1)
  end.

Definition indexOf (l : list Z) (x : option Z) : Z := indexOfFrom l x 0.

(** The status that follows [current] in the cycle. *)
Definition nextStatus (current : option Z) : option Z :=
  let currentIndex := indexOf statusCycle current in
  statusCycle !! Z.to_nat ((currentIndex + 1) `rem` Z.of_nat (length statusCycle)).

(** [house.status = nextStatus; house.lastVisit = now] *)
Definition cycled (now : string) (house : HouseRecord) : HouseRecord :=
  {| status := nextStatus (status house);
     chalkNumber := chalkNumber house;
     officialNumber := officialNumber house;
     notes := notes house;
     lastVisit := Some (Some now) |}.

(** Body of the mutator of [cycleHouseStatus] once [block] is read; [now] is
    the value of [new Date().toISOString()].  [None]: the house is missing
    and reading [house.status] throws. *)
Definition cycleHouse (houseId now : string) (block : BlockRecord) : option BlockRecord :=
  house ← houses block !! houseId;
  Some (recalcBlockSummary (setHouses (<[houseId := cycled now house]> (houses block)) block)).

(** Body of the mutator of [updateHouseData]. *)
Definition updateHouse (houseId : string) (updates : HouseRecord) (block : BlockRecord)
  : option BlockRecord :=
  let base := default emptyObject (houses block !! houseId) in
  Some (recalcBlockSummary (setHouses (<[houseId := spread base updates]> (houses block)) block)).

(** One iteration of the creation loop shared by [applyChalkSequencing] and
    [upsertBlock]: [if (!houses[key]) houses[key] = {...}]. *)
Definition ensureHouse (hs : gmap string HouseRecord) (index : Z) : gmap string HouseRecord :=
  let key := indexKey index in
  match hs !! key with
  | Some _ => hs
  | None => <[key := newHouse key]> hs
  end.

(** One iteration of the loop of [applyChalkSequencing], which also rewrites
    the chalk number. *)
Definition sequenceHouse (hs : gmap string HouseRecord) (index : Z) : gmap string HouseRecord :=
  alter (setChalkNumber (indexKey index)) (indexKey index) (ensureHouse hs index).

(** [for (let index = 1; index <= max; index += 1)]: the values of [index].
    House counts ([max] here, [maxChalk] below) are whole numbers in the
    model, like the counters of a summary. *)
Definition indices (max : Z) : list Z := seqZ 1 max.

(** The [Object.keys(block.houses).forEach] of [applyChalkSequencing]: the
    keys are listed first, then each one is deleted when its number is
    finite and above [max]. *)
Definition pruneAbove `{Builtins} (max : Z) (hs : gmap string HouseRecord)
  : gmap string HouseRecord :=
  foldl (λ acc key, if exceeds (Number key) max then delete key acc else acc)
        hs (map_to_list hs).*1.

(** Body of the mutator of [applyChalkSequencing] once [block] is read. *)
Definition sequenceBlock `{Builtins} (max : Z) (block : BlockRecord) : option BlockRecord :=
  let hs := foldl sequenceHouse (houses block) (indices max) in
  Some (recalcBlockSummary (setHouses (pruneAbove max hs) block)).

(** Body of the mutator of [upsertBlock] once the block key is known and
    [territory.blocks] is read: create the block when missing, set the image,
    create the missing houses [1..maxChalk], recalculate. *)
Definition upsertBlockAt (blockId imageUrl' : string) (maxChalk : Z)
    (bs : gmap string BlockRecord) : gmap string BlockRecord :=
  let created :=
    match bs !! blockId with
    | Some block => block
    | None =>
        {| summary := {| total := maxChalk; verde := maxChalk; amarelo := 0;
                         laranja := 0; vermelho := 0 |};
           imageUrl := imageUrl';
           houses := ∅ |}
    end in
  let block := setImageUrl imageUrl' created in
  let hs := foldl ensureHouse (houses block) (indices maxChalk) in
  <[blockId := recalcBlockSummary (setHouses hs block)]> bs.

(** ** Mutators on the document *)

Definition setBlocks (bs : gmap string BlockRecord) (t : TerritoryRecord) : TerritoryRecord :=
  {| name := name t; territoryStatus := territoryStatus t; lastUse := lastUse t; blocks := bs |}.

Definition setTerritories (ts : gmap string TerritoryRecord) (d : AppData) : AppData :=
  {| appConfig := appConfig d; territories := ts |}.

(** A mutator runs on the draft; [None] stands for a [TypeError] thrown while
    it reads a property of [undefined].  The draft is a fresh tree without
    sharing, so an assignment below [draft.territories[t].blocks[b]] is the
    functional update of that path. *)
Definition Mutator : Type := AppData → option AppData.

(** [const block = draft.territories[territoryId].blocks[blockId]] followed
    by a body that updates [block]. *)
Definition onBlock (territoryId blockId : string)
    (body : BlockRecord → option BlockRecord) : Mutator := λ draft,
  territory ← territories draft !! territoryId;
  block ← blocks territory !! blockId;
  block' ← body block;
  Some (setTerritories
          (<[territoryId := setBlocks (<[blockId := block']> (blocks territory)) territory]>
             (territories draft))
          draft).

Definition cycleHouseStatusMutator (territoryId blockId houseId now : string) : Mutator :=
  onBlock territoryId blockId (cycleHouse houseId now).

Definition updateHouseDataMutator (territoryId blockId houseId : string)
    (updates : HouseRecord) : Mutator :=
  onBlock territoryId blockId (updateHouse houseId updates).

Definition applyChalkSequencingMutator `{Builtins} (territoryId blockId : string)
    (max : Z) : Mutator :=
  onBlock territoryId blockId (sequenceBlock max).

Record BlockPayload := {
  payloadTerritoryId : string;
  payloadBlockId : option string;
  payloadImageUrl : string;
  maxChalk : Z;
}.

(** The key [upsertBlock] writes to: [payload.blockId ?? String(max + 1)]. *)
Definition upsertBlockId `{Builtins} (payload : BlockPayload) (territory : TerritoryRecord)
  : string :=
  default (nextId (dom (blocks territory))) (payloadBlockId payload).

Definition upsertBlockMutator `{Builtins} (payload : BlockPayload) : Mutator := λ draft,
  territory ← territories draft !! payloadTerritoryId payload;
  let blockId := upsertBlockId payload territory in
  Some (setTerritories
          (<[payloadTerritoryId payload :=
               setBlocks (upsertBlockAt blockId (payloadImageUrl payload) (maxChalk payload)
                            (blocks territory)) territory]>
             (territories draft))
          draft).

(** The block a document holds at a path. *)
Definition blockAt (territoryId blockId : string) (d : AppData) : option BlockRecord :=
  territory ← territories d !! territoryId; blocks territory !! blockId.

Definition houseAt (territoryId blockId houseId : string) (d : AppData) : option HouseRecord :=
  block ← blockAt territoryId blockId d; houses block !! houseId.

(** ** Transport codec *)

(** A JavaScript string as its sequence of UTF-16 code units; a byte array
    as the list of its bytes.  The operations the platform defines with
    shifts and masks on these small numbers are written with [/] and [mod]. *)
Abbreviation text := (list Z).
Abbreviation bytes := (list Z).

Definition isCodeUnit (u : Z) : Prop := 0 ≤ u < 65536.
Definition isByte (b : Z) : Prop := 0 ≤ b < 256.

Definition isHighSurrogate (u : Z) : bool := (0xD800 <=? u) && (u <=? 0xDBFF).
Definition isLowSurrogate (u : Z) : bool := (0xDC00 <=? u) && (u <=? 0xDFFF).

(** Conversion of a string to scalar values, as [TextEncoder.encode] does
    first: a surrogate pair is one code point, an unpaired surrogate becomes
    U+FFFD. *)
Fixpoint scalarValues (s : text) : list Z :=
  match s with
  | [] => []
  | u :: s' =>
      if isHighSurrogate u then
        match s' with
        | l :: s'' =>
            if isLowSurrogate l
            then (0x10000 + (u - 0xD800) * 0x400 + (l - 0xDC00)) :: scalarValues s''
            else 0xFFFD :: scalarValues s'
        | [] => [0xFFFD]
        end
      else if isLowSurrogate u then 0xFFFD :: scalarValues s'
      else u :: scalarValues s'
  end.

(** UTF-8 bytes of one scalar value. *)
Definition utf8EncodeOne (c : Z) : bytes :=
  if c <? 0x80 then [c]
  else if c <? 0x800 then [0xC0 + c / 64; 0x80 + c mod 64]
  else if c <? 0x10000 then
    [0xE0 + c / 4096; 0x80 + (c / 64) mod 64; 0x80 + c mod 64]
  else
    [0xF0 + c / 262144; 0x80 + (c / 4096) mod 64; 0x80 + (c / 64) mod 64;
     0x80 + c mod 64].

(** [new TextEncoder().encode(payload)] *)
Definition textEncode (payload : text) : bytes :=
  flat_map utf8EncodeOne (scalarValues payload).

(** State of the platform's UTF-8 decoder: the code point under
    construction, the continuation bytes still expected, and the bounds the
    next continuation byte must respect. *)
Record Utf8State := {
  codePoint : Z;
  remaining : Z;
  lowerBound : Z;
  upperBound : Z;
}.

Definition utf8Start : Utf8State :=
  {| codePoint := 0; remaining := 0; lowerBound := 0x80; upperBound := 0xBF |}.

(** A byte read when no sequence is open. *)
Definition utf8Lead (b : Z) : list Z * Utf8State :=
  if b <=? 0x7F then ([b], utf8Start)
  else if (0xC2 <=? b) && (b <=? 0xDF) then
    ([], {| codePoint := b mod 32; remaining := 1;
            lowerBound := 0x80; upperBound := 0xBF |})
  else if (0xE0 <=? b) && (b <=? 0xEF) then
    ([], {| codePoint := b mod 16; remaining := 2;
            lowerBound := if b =? 0xE0 then 0xA0 else 0x80;
            upperBound := if b =? 0xED then 0x9F else 0xBF |})
  else if (0xF0 <=? b) && (b <=? 0xF4) then
    ([], {| codePoint := b mod 8; remaining := 3;
            lowerBound := if b =? 0xF0 then 0x90 else 0x80;
            upperBound := if b =? 0xF4 then 0x8F else 0xBF |})
  else ([0xFFFD], utf8Start).

(** One byte through the decoder: the code points it emits and the next
    state.  A byte that breaks an open sequence emits U+FFFD and is read
    again as a lead byte. *)
Definition utf8Step (st : Utf8State) (b : Z) : list Z * Utf8State :=
  if remaining st =? 0 then utf8Lead b
  else if (b <? lowerBound st) || (upperBound st <? b) then
    let '(out, st') := utf8Lead b in (0xFFFD :: out, st')
  else
    let cp := codePoint st * 64 + b mod 64 in
    if remaining st =? 1 then ([cp], utf8Start)
    else ([], {| codePoint := cp; remaining := remaining st - 1;
                 lowerBound := 0x80; upperBound := 0xBF |}).

Fixpoint utf8Decode (st : Utf8State) (bs : bytes) : list Z :=
  match bs with
  | [] => if remaining st =? 0 then [] else [0xFFFD]
  | b :: bs' => let '(out, st') := utf8Step st b in out ++ utf8Decode st' bs'
  end.

(** A decoder created with the default options drops a leading U+FEFF. *)
Definition dropBOM (cps : list Z) : list Z :=
  match cps with
  | c :: cps' => if c =? 0xFEFF then cps' else cps
  | [] => []
  end.

(** Code units of one code point. *)
Definition utf16EncodeOne (c : Z) : text :=
  if c <? 0x10000 then [c]
  else [0xD800 + (c - 0x10000) / 0x400; 0xDC00 + (c - 0x10000) mod 0x400].

(** [new TextDecoder().decode(bytes)] *)
Definition textDecode (bs : bytes) : text :=
  flat_map utf16EncodeOne (dropBOM (utf8Decode utf8Start bs)).

(** The base64 alphabet. *)
Definition base64Char (i : Z) : Z :=
  if i <? 26 then 65 + i
  else if i <? 52 then 97 + (i - 26)
  else if i <? 62 then 48 + (i - 52)
  else if i =? 62 then 43
  else 47.

Definition base64Value (c : Z) : option Z :=
  if (65 <=? c) && (c <=? 90) then Some (c - 65)
  else if (97 <=? c) && (c <=? 122) then Some (c - 97 + 26)
  else if (48 <=? c) && (c <=? 57) then Some (c - 48 + 52)
  else if c =? 43 then Some 62
  else if c =? 47 then Some 63
  else None.

Fixpoint base64Encode (bs : bytes) : text :=
  match bs with
  | a :: b :: c :: rest =>
      base64Char (a / 4) :: base64Char (a mod 4 * 16 + b / 16)
        :: base64Char (b mod 16 * 4 + c / 64) :: base64Char (c mod 64)
        :: base64Encode rest
  | [a; b] =>
      [base64Char (a / 4); base64Char (a mod 4 * 16 + b / 16);
       base64Char (b mod 16 * 4); 61]
  | [a] => [base64Char (a / 4); base64Char (a mod 4 * 16); 61; 61]
  | [] => []
  end.

(** [btoa(binary)]: [None] when a code unit is above 255 (the call throws). *)
Definition btoa (binary : text) : option text :=
  if forallb (λ u, (0 <=? u) && (u <=? 255)) binary
  then Some (base64Encode binary) else None.

Definition isAsciiWhitespace (c : Z) : bool :=
  (c =? 9) || (c =? 10) || (c =? 12) || (c =? 13) || (c =? 32).

(** Removal of one or two trailing [=] when the length is a multiple of 4. *)
Definition stripPadding (data : text) : text :=
  if Z.of_nat (length data) mod 4 =? 0 then
    match rev data with
    | c1 :: r =>
        if c1 =? 61 then
          match r with
          | c2 :: r' => if c2 =? 61 then rev r' else rev r
          | [] => rev r
          end
        else data
    | [] => data
    end
  else data.

(** Bytes of a sequence of 6-bit values; the bits left over in a final
    group of two or three values are discarded. *)
Fixpoint base64Bytes (vs : list Z) : bytes :=
  match vs with
  | a :: b :: c :: d :: rest =>
      (a * 4 + b / 16) :: (b mod 16 * 16 + c / 4) :: (c mod 4 * 64 + d)
        :: base64Bytes rest
  | [a; b; c] => [a * 4 + b / 16; b mod 16 * 16 + c / 4]
  | [a; b] => [a * 4 + b / 16]
  | _ => []
  end.

(** [atob(payload)], the platform's forgiving base64 decoding: [None] when
    the call throws. *)
Definition atob (payload : text) : option text :=
  let data := stripPadding (List.filter (λ c, negb (isAsciiWhitespace c)) payload) in
  if Z.of_nat (length data) mod 4 =? 1 then None
  else base64Bytes <$> mapM base64Value data.

(** [encodeBase64]: [String.fromCharCode] of a byte is the code unit of the
    same value. *)
Definition encodeBase64 (payload : text) : option text :=
  let bytes := textEncode payload in
  let binary := foldl (λ binary value, binary ++ [value]) [] bytes in
  btoa binary.

(** [decodeBase64]: [Uint8Array.from] stores each [charCodeAt(0)] modulo
    256. *)
Definition decodeBase64 (payload : text) : option text :=
  binary ← atob payload;
  let bytes := (λ char, char mod 256) <$> binary in
  Some (textDecode bytes).

(** A string without unpaired surrogates. *)
Fixpoint wellFormed (s : text) : Prop :=
  match s with
  | [] => True
  | u :: s' =>
      if isHighSurrogate u then
        match s' with
        | l :: s'' => isLowSurrogate l = true ∧ wellFormed s''
        | [] => False
        end
      else isLowSurrogate u = false ∧ wellFormed s'
  end.

Definition startsWithBOM (s : text) : Prop :=
  match s with
  | u :: _ => u = 0xFEFF
  | [] => False
  end.

(** A Unicode scalar value: a code point that is not a surrogate. *)
Definition isScalar (c : Z) : Prop := 0 ≤ c < 0x110000 ∧ ¬ (0xD800 ≤ c ≤ 0xDFFF).

(** What a round trip through the codec makes of a string: unpaired
    surrogates replaced, a leading U+FEFF dropped. *)
Definition roundTripped (s : text) : text :=
  flat_map utf16EncodeOne (dropBOM (scalarValues s)).

(** The 6-bit values that [btoa] writes for a byte sequence, and the padding
    that follows them. *)
Fixpoint sextets (bs : bytes) : list Z :=
  match bs with
  | a :: b :: c :: rest =>
      a / 4 :: (a mod 4 * 16 + b / 16) :: (b mod 16 * 4 + c / 64) :: c mod 64
        :: sextets rest
  | [a; b] => [a / 4; a mod 4 * 16 + b / 16; b mod 16 * 4]
  | [a] => [a / 4; a mod 4 * 16]
  | [] => []
  end.

Fixpoint padding (bs : bytes) : text :=
  match bs with
  | _ :: _ :: _ :: rest => padding rest
  | [_; _] => [61]
  | [_] => [61; 61]
  | [] => []
  end.

(** ** Remote store, component state and effects *)

(** Where a thrown value comes from.  The handlers keep only its message for
    the notification; [console.error] receives the value itself. *)
Inductive ErrorKind :=
  | HttpStatusError   (* [new Error(...)] thrown on [!response.ok] *)
  | NetworkError      (* [fetch] rejects *)
  | JsonError         (* [response.json()] rejects *)
  | Base64Error       (* [atob] / [btoa] throws *)
  | YamlError         (* [yaml.load] throws *)
  | TypeError.        (* a property of [undefined] is read *)

Record JsError := {
  kind : ErrorKind;
  message : option string;
}.

Definition isTransport (e : JsError) : bool :=
  match kind e with
  | HttpStatusError | NetworkError => true
  | _ => false
  end.

Definition isDecode (e : JsError) : bool :=
  match kind e with
  | Base64Error | YamlError => true
  | _ => false
  end.

Inductive Result (A : Type) :=
  | Ok (a : A)
  | Err (e : JsError).
Arguments Ok {A} a.
Arguments Err {A} e.

(** [yaml.dump(state, options)] and [yaml.load(text)].  The loader throws
    its exception on malformed text and returns [undefined] ([None]) on an
    empty document; its result is cast to [AppData] unchecked, and the model
    follows the cast. *)
Inductive YamlOutcome :=
  | YamlThrows (msg : string)
  | YamlValue (parsed : option AppData).

Class Yaml := {
  yaml_dump : AppData → text;
  yaml_load : text → YamlOutcome;
}.

Inductive Method := GET | PUT.

Record CommitBody := {
  commitMessage : string;
  content : text;
  sha : option string;
}.

Record Request := {
  method : Method;
  authorization : option string;
  body : option CommitBody;
}.

(** The fields of the JSON answer that the handlers read. *)
Record ContentPayload := {
  payloadContent : option text;
  payloadSha : option string;
}.

(** [await response.json()] *)
Inductive JsonOutcome :=
  | JsonRejects (msg : string)
  | JsonValue (payload : ContentPayload).

Record Response := {
  responseStatus : Z;
  responseJson : JsonOutcome;
}.

(** [await fetch(...)]: the promise rejects (network error) or resolves to a
    response. *)
Inductive FetchOutcome :=
  | Rejects (msg : string)
  | Responds (response : Response).

Definition responseOk (r : Response) : bool :=
  (200 <=? responseStatus r) && (responseStatus r <=? 299).

(** The remote content endpoint together with everything else that acts on
    it: each request gets a rejection or a response and moves the store. *)
Class Remote := {
  Store : Type;
  respond : Request → Store → FetchOutcome * Store;
}.

Inductive NotificationType := success | error | info.

Record Notification := {
  notificationType : NotificationType;
  notificationMessage : string;
}.

(** The state of the component that the handlers read and set, and the
    values passed to [console.error]. *)
Record Component := {
  isLoading : bool;
  isSaving : bool;
  notification : option Notification;
  appState : option AppData;
  remoteSha : string;
  selectedTerritoryId : option string;
  selectedBlockId : option string;
  showPatModal : bool;
  patValue : string;
  chalkLimit : string;
  console : list JsError;
}.

Record World `{Remote} := {
  ui : Component;
  store : Store;
  sent : list Request;
}.

(** A handler: it runs to completion on the world and returns or throws.
    Each handler reads the component state current at its call. *)
Definition Eff `{Remote} (A : Type) : Type := World → Result A * World.

Definition ret `{Remote} {A} (a : A) : Eff A := λ w, (Ok a, w).

Definition throw `{Remote} {A} (e : JsError) : Eff A := λ w, (Err e, w).

Definition bind `{Remote} {A B} (m : Eff A) (k : A → Eff B) : Eff B := λ w,
  match m w with
  | (Ok a, w') => k a w'
  | (Err e, w') => (Err e, w')
  end.

Notation "'let*' x ':=' m 'in' k" := (bind m (λ x, k))
  (at level 10, x pattern, m at level 100, k at level 200, only parsing).

(** [try { body } catch (error) { handler } finally { cleanup }] *)
Definition tryCatchFinally `{Remote} (body : Eff unit) (handler : JsError → Eff unit)
    (cleanup : Eff unit) : Eff unit := λ w,
  match body w with
  | (Ok _, w') => cleanup w'
  | (Err e, w') =>
      match handler e w' with
      | (Ok _, w'') => cleanup w''
      | (Err e', w'') => (let* _ := cleanup in throw e') w''
      end
  end.

Definition readUi `{Remote} {A} (field : Component → A) : Eff A := λ w, (Ok (field (ui w)), w).

Definition updateUi `{Remote} (f : Component → Component) : Eff unit := λ w,
  (Ok tt, {| ui := f (ui w); store := store w; sent := sent w |}).

(** [await fetch(githubContentUrl(), init)] *)
Definition fetch `{Remote} (req : Request) : Eff Response := λ w,
  let '(answer, store') := respond req (store w) in
  let w' := {| ui := ui w; store := store'; sent := sent w ++ [req] |} in
  match answer with
  | Responds response => (Ok response, w')
  | Rejects msg => (Err {| kind := NetworkError; message := Some msg |}, w')
  end.

Definition json `{Remote} (response : Response) : Eff ContentPayload :=
  match responseJson response with
  | JsonValue payload => ret payload
  | JsonRejects msg => throw {| kind := JsonError; message := Some msg |}
  end.

(** ** State setters *)

Definition setIsLoading (v : bool) (c : Component) : Component :=
  {| isLoading := v;
     isSaving := isSaving c;
     notification := notification c;
     appState := appState c;
     remoteSha := remoteSha c;
     selectedTerritoryId := selectedTerritoryId c;
     selectedBlockId := selectedBlockId c;
     showPatModal := showPatModal c;
     patValue := patValue c;
     chalkLimit := chalkLimit c;
     console := console c |}.

Definition setIsSaving (v : bool) (c : Component) : Component :=
  {| isLoading := isLoading c;
     isSaving := v;
     notification := notification c;
     appState := appState c;
     remoteSha := remoteSha c;
     selectedTerritoryId := selectedTerritoryId c;
     selectedBlockId := selectedBlockId c;
     showPatModal := showPatModal c;
     patValue := patValue c;
     chalkLimit := chalkLimit c;
     console := console c |}.

Definition setNotification (v : option Notification) (c : Component) : Component :=
  {| isLoading := isLoading c;
     isSaving := isSaving c;
     notification := v;
     appState := appState c;
     remoteSha := remoteSha c;
     selectedTerritoryId := selectedTerritoryId c;
     selectedBlockId := selectedBlockId c;
     showPatModal := showPatModal c;
     patValue := patValue c;
     chalkLimit := chalkLimit c;
     console := console c |}.

Definition setAppState (v : option AppData) (c : Component) : Component :=
  {| isLoading := isLoading c;
     isSaving := isSaving c;
     notification := notification c;
     appState := v;
     remoteSha := remoteSha c;
     selectedTerritoryId := selectedTerritoryId c;
     selectedBlockId := selectedBlockId c;
     showPatModal := showPatModal c;
     patValue := patValue c;
     chalkLimit := chalkLimit c;
     console := console c |}.

Definition setRemoteSha (v : string) (c : Component) : Component :=
  {| isLoading := isLoading c;
     isSaving := isSaving c;
     notification := notification c;
     appState := appState c;
     remoteSha := v;
     selectedTerritoryId := selectedTerritoryId c;
     selectedBlockId := selectedBlockId c;
     showPatModal := showPatModal c;
     patValue := patValue c;
     chalkLimit := chalkLimit c;
     console := console c |}.

Definition setSelectedTerritoryId (v : option string) (c : Component) : Component :=
  {| isLoading := isLoading c;
     isSaving := isSaving c;
     notification := notification c;
     appState := appState c;
     remoteSha := remoteSha c;
     selectedTerritoryId := v;
     selectedBlockId := selectedBlockId c;
     showPatModal := showPatModal c;
     patValue := patValue c;
     chalkLimit := chalkLimit c;
     console := console c |}.

Definition setSelectedBlockId (v : option string) (c : Component) : Component :=
  {| isLoading := isLoading c;
     isSaving := isSaving c;
     notification := notification c;
     appState := appState c;
     remoteSha := remoteSha c;
     selectedTerritoryId := selectedTerritoryId c;
     selectedBlockId := v;
     showPatModal := showPatModal c;
     patValue := patValue c;
     chalkLimit := chalkLimit c;
     console := console c |}.

Definition setShowPatModal (v : bool) (c : Component) : Component :=
  {| isLoading := isLoading c;
     isSaving := isSaving c;
     notification := notification c;
     appState := appState c;
     remoteSha := remoteSha c;
     selectedTerritoryId := selectedTerritoryId c;
     selectedBlockId := selectedBlockId c;
     showPatModal := v;
     patValue := patValue c;
     chalkLimit := chalkLimit c;
     console := console c |}.

Definition setChalkLimit (v : string) (c : Component) : Component :=
  {| isLoading := isLoading c;
     isSaving := isSaving c;
     notification := notification c;
     appState := appState c;
     remoteSha := remoteSha c;
     selectedTerritoryId := selectedTerritoryId c;
     selectedBlockId := selectedBlockId c;
     showPatModal := showPatModal c;
     patValue := patValue c;
     chalkLimit := v;
     console := console c |}.

(** [console.error(error)] *)
Definition consoleError (e : JsError) (c : Component) : Component :=
  {| isLoading := isLoading c;
     isSaving := isSaving c;
     notification := notification c;
     appState := appState c;
     remoteSha := remoteSha c;
     selectedTerritoryId := selectedTerritoryId c;
     selectedBlockId := selectedBlockId c;
     showPatModal := showPatModal c;
     patValue := patValue c;
     chalkLimit := chalkLimit c;
     console := console c ++ [e] |}.

(** [surfaceNotification(payload)] *)
Definition surfaceNotification `{Remote} (type : NotificationType) (msg : string) : Eff unit :=
  updateUi (setNotification (Some {| notificationType := type; notificationMessage := msg |})).

(** ** Fetching the remote document *)

Inductive Reason := initial | manual | polling | focus | postCommit | retry.

(** Truthiness of [string | null]: [null] and the empty string are falsy. *)
Definition truthy (v : option string) : bool :=
  match v with
  | Some s => negb (bool_decide (s = ""%string))
  | None => false
  end.

Definition bearer (pat : string) : string := ("Bearer " +:+ pat)%string.

Definition typeError : JsError :=
  {| kind := TypeError; message := Some "Cannot read properties of undefined"%string |}.

Definition invalidCharacterError : JsError :=
  {| kind := Base64Error;
     message := Some "The string to be decoded is not correctly encoded."%string |}.

(** A string argument read from a missing property: [undefined] is
    converted to the text ["undefined"]. *)
Definition undefinedText : text := [117; 110; 100; 101; 102; 105; 110; 101; 100].

(** A property read of a map entry that must exist; [TypeError] otherwise. *)
Definition mustExist `{Remote} {A} (v : option A) : Eff A :=
  match v with
  | Some a => ret a
  | None => throw typeError
  end.

(** The part of [loadRemoteState] guarded by [if (!selectedTerritoryId)]. *)
Definition selectFirst `{Builtins} `{Remote} (parsed : option AppData) : Eff unit :=
  let* data := mustExist parsed in
  let firstTerritory := firstKey (dom (territories data)) in
  let* _ := updateUi (setSelectedTerritoryId firstTerritory) in
  if truthy firstTerritory then
    let* territory := mustExist (firstTerritory ≫= λ t, territories data !! t) in
    let firstBlock := firstKey (dom (blocks territory)) in
    let* _ := updateUi (setSelectedBlockId firstBlock) in
    if truthy firstBlock then
      let* block := mustExist (firstBlock ≫= λ b, blocks territory !! b) in
      updateUi (setChalkLimit (pretty (size (houses block))))
    else ret tt
  else updateUi (setSelectedBlockId None).

Definition loadedMessage (reason : Reason) : string :=
  match reason with
  | initial => "Dados carregados do GitHub"
  | postCommit => "Estado sincronizado após commit"
  | _ => "Dados sincronizados"
  end%string.

(** The request of [loadRemoteState]: the header is sent when a token is
    stored. *)
Definition loadRequest (pat : string) : Request :=
  let headers := if bool_decide (pat = ""%string) then None else Some (bearer pat) in
  {| method := GET; authorization := headers; body := None |}.

(** The error thrown while the fetched content is decoded, if any:
    [decodeBase64] throws on text that is not base64, [yaml.load] on
    malformed YAML. *)
Definition decodeFailure `{Yaml} (payload : ContentPayload) (e : JsError) : Prop :=
  match decodeBase64 (default undefinedText (payloadContent payload)) with
  | None => e = invalidCharacterError
  | Some decoded =>
      ∃ msg, yaml_load decoded = YamlThrows msg
             ∧ e = {| kind := YamlError; message := Some msg |}
  end.

(** The error thrown when the transport fails: the promise rejects, or the
    response has a status outside 200..299. *)
Definition transportFailure (answer : FetchOutcome) (e : JsError) : Prop :=
  match answer with
  | Rejects msg => e = {| kind := NetworkError; message := Some msg |}
  | Responds response =>
      responseOk response = false
      ∧ e = {| kind := HttpStatusError;
               message := Some ("Falha ao buscar dados ("
                                  +:+ pretty (responseStatus response) +:+ ")")%string |}
  end.

(** The content of an answer on which decoding throws, and an answer with
    which the transport fails, as conditions on the answer alone. *)
Definition decodeThrows `{Yaml} (payload : ContentPayload) : Prop :=
  match decodeBase64 (default undefinedText (payloadContent payload)) with
  | None => True
  | Some decoded => ∃ msg, yaml_load decoded = YamlThrows msg
  end.

Definition transportFails (answer : FetchOutcome) : Prop :=
  match answer with
  | Rejects _ => True
  | Responds response => responseOk response = false
  end.

(** The component after [loadRemoteState] caught [e]. *)
Definition afterLoadError (e : JsError) (c : Component) : Component :=
  setIsLoading false
    (setNotification
       (Some {| notificationType := error;
                notificationMessage := default "Erro ao buscar dados"%string (message e) |})
       (consoleError e (setIsLoading true c))).

(** The [try] block of [loadRemoteState], from the response on. *)
Definition applyResponse `{Builtins} `{Yaml} `{Remote} (reason : Reason)
    (response : Response) : Eff unit :=
  if negb (responseOk response) then
    throw {| kind := HttpStatusError;
             message := Some ("Falha ao buscar dados (" +:+ pretty (responseStatus response)
                                +:+ ")")%string |}
  else
    let* payload := json response in
    let* decoded :=
      match decodeBase64 (default undefinedText (payloadContent payload)) with
      | Some decoded => ret decoded
      | None => throw invalidCharacterError
      end in
    let* parsed :=
      match yaml_load decoded with
      | YamlValue parsed => ret parsed
      | YamlThrows msg => throw {| kind := YamlError; message := Some msg |}
      end in
    let* _ := updateUi (setAppState parsed) in
    let* _ := updateUi (setRemoteSha (default ""%string (payloadSha payload))) in
    let* _ := surfaceNotification success (loadedMessage reason) in
    let* selected := readUi selectedTerritoryId in
    if truthy selected then ret tt else selectFirst parsed.

(** The [try] block of [loadRemoteState]. *)
Definition loadRemoteStateBody `{Builtins} `{Yaml} `{Remote} (reason : Reason) : Eff unit :=
  let* pat := readUi patValue in
  let* response := fetch (loadRequest pat) in
  applyResponse reason response.

Definition loadRemoteState `{Builtins} `{Yaml} `{Remote} (reason : Reason) : Eff unit :=
  let* _ := updateUi (setIsLoading true) in
  tryCatchFinally
    (loadRemoteStateBody reason)
    (λ e, let* _ := updateUi (consoleError e) in
          surfaceNotification error (default "Erro ao buscar dados"%string (message e)))
    (updateUi (setIsLoading false)).

(** ** Committing and the mutation pipeline *)

Definition COMMIT_MESSAGE : string := "Dados atualizados pelo App de Territórios".

Definition ensurePatBeforeCommit `{Remote} : Eff bool :=
  let* pat := readUi patValue in
  if bool_decide (pat = ""%string) then
    let* _ := surfaceNotification error "Configure o PAT para enviar alterações ao GitHub" in
    let* _ := updateUi (setShowPatModal true) in
    ret false
  else ret true.

(** The two requests of a commit: the read of the current version tag and
    the write that carries it. *)
Definition shaRequest (pat : string) : Request :=
  {| method := GET; authorization := Some (bearer pat); body := None |}.

Definition putRequest (pat : string) (encoded : text) (tag : option string) : Request :=
  {| method := PUT;
     authorization := Some (bearer pat);
     body := Some {| commitMessage := COMMIT_MESSAGE; content := encoded; sha := tag |} |}.

(** The [try] block of [commitToGitHub]. *)
Definition commitToGitHubBody `{Builtins} `{Yaml} `{Remote} (nextState : AppData) : Eff unit :=
  let yamlString := yaml_dump nextState in
  let* pat := readUi patValue in
  let* shaResponse := fetch (shaRequest pat) in
  if negb (responseOk shaResponse) then
    throw {| kind := HttpStatusError;
             message := Some ("Erro ao obter SHA (" +:+ pretty (responseStatus shaResponse)
                                +:+ ")")%string |}
  else
    let* shaPayload := json shaResponse in
    let* encoded :=
      match encodeBase64 yamlString with
      | Some encoded => ret encoded
      | None => throw invalidCharacterError
      end in
    let* putResponse := fetch (putRequest pat encoded (payloadSha shaPayload)) in
    if negb (responseOk putResponse) then
      throw {| kind := HttpStatusError;
               message := Some ("Erro ao confirmar commit ("
                                  +:+ pretty (responseStatus putResponse) +:+ ")")%string |}
    else
      let* _ := surfaceNotification success "Commit aplicado com sucesso" in
      loadRemoteState postCommit.

Definition commitToGitHub `{Builtins} `{Yaml} `{Remote} (nextState : AppData)
    (actionLabel : string) : Eff unit :=
  let* ready := ensurePatBeforeCommit in
  if negb ready then ret tt
  else
    let* _ := updateUi (setIsSaving true) in
    let* _ := surfaceNotification info
                ("Salvando alterações (" +:+ actionLabel +:+ ")...")%string in
    tryCatchFinally
      (commitToGitHubBody nextState)
      (λ e, let* _ := updateUi (consoleError e) in
            surfaceNotification error (default "Falha ao salvar alterações"%string (message e)))
      (updateUi (setIsSaving false)).

(** [JSON.parse(JSON.stringify(data))]: on the tree-shaped data of the model
    the copy is equal to the original. *)
Definition cloneState {A} (data : A) : A := data.

(** The world once [setAppState(draft)] has published a draft. *)
Definition publish `{Remote} (draft : AppData) (w : World) : World :=
  {| ui := setAppState (Some draft) (ui w); store := store w; sent := sent w |}.

(** [applyStateMutation]: the commit it starts is run to its end. *)
Definition applyStateMutation `{Builtins} `{Yaml} `{Remote} (mutator : Mutator)
    (label : string) : Eff unit :=
  let* current := readUi appState in
  match current with
  | None => ret tt
  | Some data =>
      let* draft := mustExist (mutator (cloneState data)) in
      let* _ := updateUi (setAppState (Some draft)) in
      commitToGitHub draft label
  end.

(** The ways a commit fails at the remote store, with the message of the
    error thrown: a request is rejected (network error), answered with a
    status outside 200..299 (an authorization rejection is one), or the
    answer to the tag read is not JSON. *)
Inductive CommitFailure `{Yaml} `{Remote} (nextState : AppData) (pat : string) (s : Store)
  : string → Prop :=
  | ShaRejected msg s1 :
      respond (shaRequest pat) s = (Rejects msg, s1) →
      CommitFailure nextState pat s msg
  | ShaNotOk response s1 :
      respond (shaRequest pat) s = (Responds response, s1) →
      responseOk response = false →
      CommitFailure nextState pat s
        ("Erro ao obter SHA (" +:+ pretty (responseStatus response) +:+ ")")%string
  | ShaNotJson response s1 msg :
      respond (shaRequest pat) s = (Responds response, s1) →
      responseOk response = true →
      responseJson response = JsonRejects msg →
      CommitFailure nextState pat s msg
  | PutRejected response s1 payload encoded msg s2 :
      respond (shaRequest pat) s = (Responds response, s1) →
      responseOk response = true →
      responseJson response = JsonValue payload →
      encodeBase64 (yaml_dump nextState) = Some encoded →
      respond (putRequest pat encoded (payloadSha payload)) s1 = (Rejects msg, s2) →
      CommitFailure nextState pat s msg
  | PutNotOk response s1 payload encoded response2 s2 :
      respond (shaRequest pat) s = (Responds response, s1) →
      responseOk response = true →
      responseJson response = JsonValue payload →
      encodeBase64 (yaml_dump nextState) = Some encoded →
      respond (putRequest pat encoded (payloadSha payload)) s1 = (Responds response2, s2) →
      responseOk response2 = false →
      CommitFailure nextState pat s
        ("Erro ao confirmar commit (" +:+ pretty (responseStatus response2) +:+ ")")%string.

(** ** Handlers of the component *)

(** [selectedTerritory] and [selectedBlock], memoised from the state. *)
Definition selectedTerritory (c : Component) : option TerritoryRecord :=
  data ← appState c;
  if truthy (selectedTerritoryId c)
  then (territoryId ← selectedTerritoryId c; territories data !! territoryId)
  else None.

Definition selectedBlock (c : Component) : option BlockRecord :=
  territory ← selectedTerritory c;
  if truthy (selectedBlockId c)
  then (blockId ← selectedBlockId c; blocks territory !! blockId)
  else None.

Definition cycleHouseStatus `{Builtins} `{Yaml} `{Remote} (houseId now : string) : Eff unit :=
  let* c := readUi id in
  match selectedTerritory c, selectedBlock c, selectedTerritoryId c, selectedBlockId c with
  | Some _, Some _, Some territoryId, Some blockId =>
      if truthy (Some territoryId) && truthy (Some blockId) then
        applyStateMutation (cycleHouseStatusMutator territoryId blockId houseId now)
          "Atualização de status da casa"
      else ret tt
  | _, _, _, _ => ret tt
  end.

Definition updateHouseData `{Builtins} `{Yaml} `{Remote} (houseId : string)
    (updates : HouseRecord) : Eff unit :=
  let* c := readUi id in
  match selectedTerritoryId c, selectedBlockId c with
  | Some territoryId, Some blockId =>
      if truthy (Some territoryId) && truthy (Some blockId) then
        applyStateMutation (updateHouseDataMutator territoryId blockId houseId updates)
          "Atualização de dados da casa"
      else ret tt
  | _, _ => ret tt
  end.

Definition applyChalkSequencing `{Builtins} `{Yaml} `{Remote} (blockId : string) (max : Z)
  : Eff unit :=
  let* c := readUi id in
  match selectedTerritoryId c, appState c with
  | Some territoryId, Some _ =>
      if truthy (Some territoryId) then
        applyStateMutation (applyChalkSequencingMutator territoryId blockId max)
          "Sequenciamento da quadra"
      else ret tt
  | _, _ => ret tt
  end.

Definition upsertBlock `{Builtins} `{Yaml} `{Remote} (payload : BlockPayload) : Eff unit :=
  applyStateMutation (upsertBlockMutator payload) "CRUD de quadra".

(** ** A platform instance for the examples *)

(** What the resequencing relies on: [Number] reads back the decimal keys
    that [String(index)] writes. *)
Definition NumberReadsIndices `{Builtins} : Prop :=
  ∀ i, 1 ≤ i → Number (indexKey i) = Finite (Qc_of_Z i).

Definition digitValue (c : ascii) : option Z :=
  let n := Z.of_N (N_of_ascii c) in
  if (48 <=? n) && (n <=? 57) then Some (n - 48) else None.

Fixpoint parseDigits (s : string) (acc : Z) : option Z :=
  match s with
  | EmptyString => Some acc
  | String c s' => d ← digitValue c; parseDigits s' (10 * acc + d)
  end.

(** [Number] on strings of decimal digits (the empty string reads as 0),
    answering [NaN] on every other string. *)
Definition digitsNumber (s : string) : number :=
  match parseDigits s 0 with
  | Some n => Finite (Qc_of_Z n)
  | None => NaN
  end.

(** The largest of 0 and the numbers of the keys, [None] once a key reads as
    [NaN]. *)
Definition digitsMax (keys : gset string) : option Z :=
  set_fold (λ key acc, m ← acc; n ← parseDigits key 0; Some (m `max` n)) (Some 0) keys.

Definition digitsBuiltins : Builtins :=
  {| Number := digitsNumber;
     nextId := λ keys,
       match digitsMax keys with
       | Some m => pretty (m + 1)
       | None => "NaN"%string
       end;
     firstKey := λ keys, head (elements keys) |}.

(** A remote that answers from a script, whatever the request; once the
    script is used up the requests are rejected. *)
Definition scriptedRemote : Remote :=
  {| Store := list FetchOutcome;
     respond := λ _ script,
       match script with
       | answer :: script' => (answer, script')
       | [] => (Rejects "Failed to fetch", [])
       end |}.

(** A serializer for the examples: every document is written as the empty
    text, the empty text is read as no document, any other text is
    rejected. *)
Definition sampleYaml : Yaml :=
  {| yaml_dump := λ _, [];
     yaml_load := λ t,
       match t with
       | [] => YamlValue None
       | _ => YamlThrows "bad indentation of a mapping entry"
       end |}.

(** A document with one territory, one block and two houses. *)
Definition sampleHouse : HouseRecord :=
  {| status := Some 3; chalkNumber := Some "7"%string;
     officialNumber := Some "12A"%string; notes := Some ""%string;
     lastVisit := Some (Some "2024-05-01T10:00:00.000Z"%string) |}.

Definition sampleHouses : gmap string HouseRecord :=
  <["1"%string := newHouse "1"]> (<["7"%string := sampleHouse]> ∅).

Definition sampleBlock : BlockRecord :=
  {| summary := {| total := 2; verde := 1; amarelo := 0; laranja := 1; vermelho := 0 |};
     imageUrl := "https://example.org/q1.png";
     houses := sampleHouses |}.

Definition sampleData : AppData :=
  {| appConfig := {| superAdminEmail := "admin@example.org"; userRoles := ∅ |};
     territories :=
       {[ "01"%string :=
            {| name := "Centro"; territoryStatus := "Livre"; lastUse := "2024-05-01";
               blocks := {[ "1"%string := sampleBlock ]} |} ]} |}.

Definition sampleComponent : Component :=
  {| isLoading := false; isSaving := false; notification := None;
     appState := Some sampleData; remoteSha := "0a1b";
     selectedTerritoryId := Some "01"%string; selectedBlockId := Some "1"%string;
     showPatModal := false; patValue := "ghp_token"; chalkLimit := "2";
     console := [] |}.

(** Answers of the remote store used in the examples: a content answer
    whose text is not a document, a tag answer, a conflict and an
    authorization rejection. *)
Definition malformedAnswer : Response :=
  {| responseStatus := 200;
     responseJson := JsonValue {| payloadContent := Some [89; 81; 61; 61];
                                  payloadSha := Some "9f2c"%string |} |}.

(** The answer for a file without content. *)
Definition emptyAnswer : Response :=
  {| responseStatus := 200;
     responseJson := JsonValue {| payloadContent := Some [];
                                  payloadSha := Some "9f2c"%string |} |}.

Definition tagAnswer : Response :=
  {| responseStatus := 200;
     responseJson := JsonValue {| payloadContent := None;
                                  payloadSha := Some "tag-1"%string |} |}.

Definition conflictAnswer : Response :=
  {| responseStatus := 409; responseJson := JsonRejects "" |}.

Definition unauthorizedAnswer : Response :=
  {| responseStatus := 401; responseJson := JsonRejects "" |}.

Definition sampleWorld (script : list FetchOutcome) : @World scriptedRemote :=
  @Build_World scriptedRemote sampleComponent script [].

(** ** Territories, blocks and roles: the other mutators *)

(** [s.padStart(2, '0')] on the digits of a number. *)
Definition padStart2 (s : string) : string :=
  match String.length s with
  | 0%nat => "00"
  | 1%nat => "0" +:+ s
  | _ => s
  end%string.

Record TerritoryPayload := {
  payloadTerritoryKey : option string;
  payloadName : string;
  payloadStatus : string;
  payloadLastUse : string;
}.

(** The key [createOrUpdateTerritory] writes to:
    [payload.territoryId ?? String(max + 1).padStart(2, '0')]. *)
Definition territoryKey `{Builtins} (payload : TerritoryPayload) (draft : AppData) : string :=
  default (padStart2 (nextId (dom (territories draft)))) (payloadTerritoryKey payload).

Definition createOrUpdateTerritoryMutator `{Builtins} (payload : TerritoryPayload)
  : Mutator := λ draft,
  let key := territoryKey payload draft in
  let territory :=
    match territories draft !! key with
    | None =>
        {| name := payloadName payload; territoryStatus := payloadStatus payload;
           lastUse := payloadLastUse payload; blocks := ∅ |}
    | Some existing =>
        {| name := payloadName payload; territoryStatus := payloadStatus payload;
           lastUse := payloadLastUse payload; blocks := blocks existing |}
    end in
  Some (setTerritories (<[key := territory]> (territories draft)) draft).

(** [delete draft.territories[territoryId]] *)
Definition deleteTerritoryMutator (territoryId : string) : Mutator := λ draft,
  Some (setTerritories (delete territoryId (territories draft)) draft).

(** [delete draft.territories[territoryId].blocks[blockId]] *)
Definition deleteBlockMutator (territoryId blockId : string) : Mutator := λ draft,
  territory ← territories draft !! territoryId;
  Some (setTerritories
          (<[territoryId := setBlocks (delete blockId (blocks territory)) territory]>
             (territories draft))
          draft).

(** [draft.appConfig.userRoles = roles] *)
Definition updateUserRolesMutator (roles : gmap string UserRole) : Mutator := λ draft,
  Some {| appConfig := {| superAdminEmail := superAdminEmail (appConfig draft);
                          userRoles := roles |};
          territories := territories draft |}.

Definition createOrUpdateTerritory `{Builtins} `{Yaml} `{Remote} (payload : TerritoryPayload)
  : Eff unit :=
  applyStateMutation (createOrUpdateTerritoryMutator payload) "CRUD de território".

(** [deleteTerritory]: the selection compared with [territoryId] is the one
    the handler was created with.  The source clears the selection before the
    requests of the commit are answered, the model after the commit has run;
    the two orders give the same component whenever a territory is selected,
    since [loadRemoteState] then leaves the selection alone. *)
Definition deleteTerritory `{Builtins} `{Yaml} `{Remote} (territoryId : string) : Eff unit :=
  let* selected := readUi selectedTerritoryId in
  let* _ := applyStateMutation (deleteTerritoryMutator territoryId)
              "Exclusão de território" in
  if bool_decide (selected = Some territoryId) then
    let* _ := updateUi (setSelectedTerritoryId None) in
    updateUi (setSelectedBlockId None)
  else ret tt.

(** [deleteBlock]: as for [deleteTerritory], with the selected block. *)
Definition deleteBlock `{Builtins} `{Yaml} `{Remote} (territoryId blockId : string)
  : Eff unit :=
  let* selected := readUi selectedBlockId in
  let* _ := applyStateMutation (deleteBlockMutator territoryId blockId)
              "Exclusão de quadra" in
  if bool_decide (selected = Some blockId) then updateUi (setSelectedBlockId None)
  else ret tt.

Definition updateUserRoles `{Builtins} `{Yaml} `{Remote} (roles : gmap string UserRole)
  : Eff unit :=
  applyStateMutation (updateUserRolesMutator roles) "Administração de usuários".

(** ** Sessions and the role form *)

(** The string methods the session handlers call. *)
Class Strings := {
  trim : string → string;
  toLowerCase : string → string;
}.

(** The login state of the component. *)
Record Session := {
  emailInput : string;
  activeEmail : string;
  userRole : option UserRole;
}.

Definition roleLabel (role : UserRole) : string :=
  match role with
  | Comum => "Comum"
  | Capitao => "Capitão"
  | Admin => "Admin"
  | SuperAdmin => "Super Admin"
  end.

(** [handleLogin]: a handler without requests, on the session and the
    component.  The key looked up is an e-mail address, never the name of an
    inherited property. *)
Definition handleLogin `{Strings} (s : Session) (c : Component) : Session * Component :=
  match appState c with
  | None => (s, c)
  | Some data =>
      let sanitized := toLowerCase (trim (emailInput s)) in
      if bool_decide (sanitized = ""%string) then (s, c)
      else
        let role := default Comum (userRoles (appConfig data) !! sanitized) in
        let s' := {| emailInput := emailInput s; activeEmail := sanitized;
                     userRole := Some role |} in
        let c' :=
          setNotification
            (Some {| notificationType := success;
                     notificationMessage := "Sessão iniciada como " +:+ roleLabel role |})
            c in
        let isSuperAdmin := match role with SuperAdmin => true | _ => false end in
        if isSuperAdmin && bool_decide (patValue c = ""%string)
        then (s', setShowPatModal true c')
        else (s', c')
  end.

Definition logout (s : Session) (c : Component) : Session * Component :=
  ({| emailInput := emailInput s; activeEmail := ""; userRole := None |},
   setNotification
     (Some {| notificationType := info; notificationMessage := "Sessão encerrada" |}) c).

(** The argument [handleUserModalSubmit] passes to [updateUserRoles]:
    [Object.fromEntries] of the rows with their e-mail trimmed and lowered,
    without the rows whose e-mail is then empty.  A later row replaces an
    earlier one with the same key. *)
Definition normalizedRows `{Strings} (rows : list (string * UserRole))
  : list (string * UserRole) :=
  List.filter (λ row, negb (bool_decide (row.1 = ""%string)))
    ((λ row : string * UserRole, (toLowerCase (trim row.1), row.2)) <$> rows).

Definition fromEntries (rows : list (string * UserRole)) : gmap string UserRole :=
  foldl (λ roles row, <[row.1 := row.2]> roles) ∅ rows.

Definition submittedRoles `{Strings} (rows : list (string * UserRole))
  : gmap string UserRole :=
  fromEntries (normalizedRows rows).

(** ** Polling *)

(** The callback of the polling interval.  Its result is the error it passes
    to [console.warn], if any. *)
Definition pollTick `{Builtins} `{Yaml} `{Remote} : Eff (option JsError) := λ w,
  if bool_decide (remoteSha (ui w) = ""%string) then (Ok None, w)
  else
    let body : Eff unit :=
      let* pat := readUi patValue in
      let* response := fetch (loadRequest pat) in
      if negb (responseOk response) then ret tt
      else
        let* payload := json response in
        let* known := readUi remoteSha in
        if truthy (payloadSha payload)
           && negb (bool_decide (payloadSha payload = Some known))
        then loadRemoteState polling
        else ret tt in
    match body w with
    | (Ok _, w') => (Ok None, w')
    | (Err e, w') => (Ok (Some e), w')
    end.

(** ** String methods for the examples *)

Definition isSpace (c : ascii) : bool := bool_decide (c = " "%char).

Fixpoint trimStart (s : string) : string :=
  match s with
  | String c s' => if isSpace c then trimStart s' else s
  | EmptyString => EmptyString
  end.

Definition lowerAscii (c : ascii) : ascii :=
  let n := N_of_ascii c in
  if ((65 <=? n) && (n <=? 90))%N then ascii_of_N (n + 32) else c.

Fixpoint lowerString (s : string) : string :=
  match s with
  | String c s' => String (lowerAscii c) (lowerString s')
  | EmptyString => EmptyString
  end.

(** The two methods on strings of ASCII letters padded with spaces. *)
Definition asciiStrings : Strings :=
  {| trim := λ s, String.rev (trimStart (String.rev (trimStart s)));
     toLowerCase := lowerString |}.

Definition sampleRoles : gmap string UserRole :=
  {[ "ana@example.org"%string := Admin ]}.

Definition sampleDataWithRoles : AppData :=
  {| appConfig := {| superAdminEmail := "admin@example.org"; userRoles := sampleRoles |};
     territories := territories sampleData |}.

(** ** Notions used to state further properties *)

(** Number of houses whose status is none of the values of [statusCycle]. *)
Definition countOther (hs : gmap string HouseRecord) : nat :=
  size (filter (λ kv : string * HouseRecord, indexOf statusCycle (status kv.2) = -1) hs).

(** What the edit form of a house submits: the two text fields. *)
Definition formUpdates (official note : string) : HouseRecord :=
  {| status := None; chalkNumber := None; officialNumber := Some official;
     notes := Some note; lastVisit := None |}.

(** The name, status and last use of a territory. *)
Definition territoryHeader (t : TerritoryRecord) : string * string * string :=
  (name t, territoryStatus t, lastUse t).

(** The territory of the sample document and two block forms. *)
Definition sampleTerritory : TerritoryRecord :=
  {| name := "Centro"; territoryStatus := "Livre"; lastUse := "2024-05-01";
     blocks := {[ "1"%string := sampleBlock ]} |}.

Definition newBlockPayload : BlockPayload :=
  {| payloadTerritoryId := "01"; payloadBlockId := None;
     payloadImageUrl := "https://example.org/q2.png"; maxChalk := 4 |}.

Definition editBlockPayload : BlockPayload :=
  {| payloadTerritoryId := "01"; payloadBlockId := Some "1"%string;
     payloadImageUrl := "https://example.org/novo.png"; maxChalk := 1 |}.

(** A serializer for the examples that knows one document: it writes every
    document as the text "d" and reads "d" as the sample document with
    roles, the empty text as no document, and rejects any other text. *)
Definition fixedYaml : Yaml :=
  {| yaml_dump := λ _, [100];
     yaml_load := λ t,
       match t with
       | [] => YamlValue None
       | [100] => YamlValue (Some sampleDataWithRoles)
       | _ => YamlThrows "bad indentation of a mapping entry"
       end |}.

(** The answer of the store that holds the text "d" under the tag "tag-2". *)
Definition documentPayload : ContentPayload :=
  {| payloadContent := Some [90; 65; 61; 61]; payloadSha := Some "tag-2"%string |}.

Definition documentAnswer : Response :=
  {| responseStatus := 200; responseJson := JsonValue documentPayload |}.

Definition writtenAnswer : Response :=
  {| responseStatus := 200;
     responseJson := JsonValue {| payloadContent := None; payloadSha := None |} |}.

(** An answer to the polling read after which the callback stops: the read
    fails, or it carries no tag, or the tag the component already holds. *)
Definition pollStops (known : string) (answer : FetchOutcome) : Prop :=
  match answer with
  | Rejects _ => True
  | Responds response =>
      responseOk response = false
      ∨ match responseJson response with
        | JsonRejects _ => True
        | JsonValue payload =>
            truthy (payloadSha payload) = false ∨ payloadSha payload = Some known
        end
  end.

(** The address a row or the login field stands for. *)
Definition normalizedEmail `{Strings} (email : string) : string := toLowerCase (trim email).

(** The role of the last row of the form whose address is [key]. *)
Definition lastRole `{Strings} (rows : list (string * UserRole)) (key : string)
  : option UserRole :=
  snd <$> list.last (filter (λ row : string * UserRole, normalizedEmail row.1 = key) rows).

Definition sampleRows : list (string * UserRole) :=
  [(" Ana@Example.org ", Capitao); ("  ", Admin); ("ana@example.org", Admin)]%string.

Definition sampleSession : Session :=
  {| emailInput := "ANA@example.org "; activeEmail := ""; userRole := None |}.

(** What the first selection relies on: [Object.keys(o)[0]] is a key of [o],
    and is missing only when [o] has no key. *)
Definition FirstKeyIsAKey `{Builtins} : Prop :=
  ∀ keys, match firstKey keys with
          | Some key => key ∈ keys
          | None => keys = ∅
          end.

Definition unselectedWorld (script : list FetchOutcome) : @World scriptedRemote :=
  @Build_World scriptedRemote
    (setSelectedBlockId None (setSelectedTerritoryId None sampleComponent)) script [].

(** * Part II: properties *)

(** ** The summary is a function of the houses *)

Lemma countStatus_empty v : countStatus v ∅ = 0%nat.
Proof. unfold countStatus. by rewrite map_filter_empty, map_size_empty. Qed.

Lemma countStatus_insert v key house (hs : gmap string HouseRecord) :
  hs !! key = None →
  countStatus v (<[key := house]> hs)
  = if statusIs house v then S (countStatus v hs) else countStatus v hs.
Proof.
  intros Hfresh. unfold countStatus, statusIs.
  rewrite map_filter_insert. simpl.
  destruct (decide (status house = Some v)) as [Hs|Hs].
  - rewrite bool_decide_eq_true_2 by done.
    apply map_size_insert_None. by rewrite map_lookup_filter, Hfresh.
  - rewrite bool_decide_eq_false_2 by done. by rewrite delete_id.
Qed.

Lemma summaryOf_empty : summaryOf ∅ = emptySummary.
Proof.
  unfold summaryOf, emptySummary. by rewrite !countStatus_empty, map_size_empty.
Qed.

Lemma summaryOf_insert key house (hs : gmap string HouseRecord) :
  hs !! key = None → summaryOf (<[key := house]> hs) = tally house (summaryOf hs).
Proof.
  intros Hfresh. unfold summaryOf, tally; simpl.
  rewrite !countStatus_insert, map_size_insert_None by done.
  repeat destruct (statusIs house _); f_equal; lia.
Qed.

Lemma tally_fold (hs : gmap string HouseRecord) :
  map_fold (λ _ house s, tally house s) emptySummary hs = summaryOf hs.
Proof.
  apply (map_fold_weak_ind (λ s m, s = summaryOf m)).
  - by rewrite summaryOf_empty.
  - intros key house m s Hfresh ->. by rewrite summaryOf_insert.
Qed.

Lemma recalcBlockSummary_summary block :
  summary (recalcBlockSummary block) = summaryOf (houses block).
Proof. unfold recalcBlockSummary; simpl. apply tally_fold. Qed.

Lemma recalcBlockSummary_houses block :
  houses (recalcBlockSummary block) = houses block.
Proof. done. Qed.

Lemma recalcBlockSummary_consistent block : summaryConsistent (recalcBlockSummary block).
Proof.
  unfold summaryConsistent.
  by rewrite recalcBlockSummary_summary, recalcBlockSummary_houses.
Qed.

Lemma counters_partition (hs : gmap string HouseRecord) :
  map_Forall (λ _ house, statusInRange house) hs →
  (countStatus 1 hs + countStatus 2 hs + countStatus 3 hs + countStatus 4 hs)%nat = size hs.
Proof.
  induction hs as [|key house hs Hfresh IH] using map_ind; intros Hall.
  - by rewrite !countStatus_empty, map_size_empty.
  - apply map_Forall_insert in Hall as [(v & Hv & Hrange) Hall]; [|done].
    specialize (IH Hall).
    rewrite !countStatus_insert, map_size_insert_None by done.
    unfold statusIs. rewrite Hv.
    repeat case_bool_decide; simplify_eq; try lia.
    assert (v ≠ 1 ∧ v ≠ 2 ∧ v ≠ 3 ∧ v ≠ 4) by (repeat split; congruence). lia.
Qed.

(** ** Access control *)

Lemma role_le_rank r1 r2 : role_le r1 r2 ↔ roleHierarchy r1 ≤ roleHierarchy r2.
Proof.
  split.
  - induction 1 as [|x y z Hstep _ IH]; [lia|].
    destruct Hstep; simpl in *; lia.
  - destruct r1, r2; simpl; intros Hle; try lia;
      repeat (first [apply rtc_refl | eapply rtc_l; [constructor|]]).
Qed.

(** C3. For every pair of roles, [hasCapability role required] is true
    exactly when [required] is at or below [role] in the order
    Comum < Capitão < Admin < Super Admin (equivalently, when the rank of
    [role] is at least the rank of [required]); hence a capability held by a
    role is held by every role at or above it. *)
Theorem hasCapability_rank_monotone :
  (∀ role required,
     hasCapability role required = true ↔ role_le required role)
  ∧ (∀ role required,
     hasCapability role required = bool_decide (roleHierarchy required ≤ roleHierarchy role))
  ∧ (∀ r1 r2 required,
     role_le r1 r2 → hasCapability r1 required = true → hasCapability r2 required = true).
Proof.
  assert (∀ role required,
            hasCapability role required = true ↔ role_le required role) as Hiff.
  { intros role required. rewrite role_le_rank. unfold hasCapability. lia. }
  split; [done|]. split.
  - intros role required. unfold hasCapability.
    destruct (Z.geb_spec (roleHierarchy role) (roleHierarchy required));
      [rewrite bool_decide_eq_true_2 | rewrite bool_decide_eq_false_2]; lia.
  - intros r1 r2 required Hle. rewrite !Hiff. intros Hreq.
    unfold role_le in *. by etrans.
Qed.

(** ** Aggregate recalculation *)

(** C8. [recalcBlockSummary] is idempotent, its result is the same each time
    it is applied to the same block, and after it the total equals the number
    of houses; when every house has a status among 1..4 the four counters add
    up to that total. *)
Theorem recalcBlockSummary_idempotent_sum :
  (∀ block, recalcBlockSummary (recalcBlockSummary block) = recalcBlockSummary block)
  ∧ (∀ b1 b2, b1 = b2 → recalcBlockSummary b1 = recalcBlockSummary b2)
  ∧ (∀ block, total (summary (recalcBlockSummary block)) = Z.of_nat (size (houses block)))
  ∧ (∀ block,
       map_Forall (λ _ house, statusInRange house) (houses block) →
       let s := summary (recalcBlockSummary block) in
       verde s + amarelo s + laranja s + vermelho s = total s
       ∧ total s = Z.of_nat (size (houses block))).
Proof.
  split; [|split; [|split]].
  - intros block. unfold recalcBlockSummary, setSummary; simpl. done.
  - by intros b1 b2 ->.
  - intros block. by rewrite recalcBlockSummary_summary.
  - intros block Hall s. subst s. rewrite recalcBlockSummary_summary; simpl.
    split; [|done]. rewrite <- (counters_partition _ Hall). lia.
Qed.

(** ** Mutators keep the summary of the block they touch *)

Lemma blockAt_onBlock territoryId blockId body draft draft' :
  onBlock territoryId blockId body draft = Some draft' →
  ∃ block block',
    blockAt territoryId blockId draft = Some block
    ∧ body block = Some block'
    ∧ blockAt territoryId blockId draft' = Some block'.
Proof.
  unfold onBlock, blockAt. intros Hrun.
  destruct (territories draft !! territoryId) as [territory|] eqn:Ht; [|done].
  simpl in *. destruct (blocks territory !! blockId) as [block|] eqn:Hb; [|done].
  simpl in *. destruct (body block) as [block'|] eqn:Hbody; [|done].
  simpl in *. injection Hrun as <-. exists block, block'. repeat split; [done|].
  simpl. rewrite lookup_insert_eq. simpl. by rewrite lookup_insert_eq.
Qed.

Lemma onBlock_defined territoryId blockId body draft block block' :
  blockAt territoryId blockId draft = Some block →
  body block = Some block' →
  ∃ draft', onBlock territoryId blockId body draft = Some draft'
            ∧ blockAt territoryId blockId draft' = Some block'.
Proof.
  unfold onBlock, blockAt. intros Hat Hbody.
  destruct (territories draft !! territoryId) as [territory|] eqn:Ht; [|done].
  simpl in *. rewrite Hat. simpl. rewrite Hbody. simpl.
  eexists. split; [done|]. simpl. rewrite lookup_insert_eq. simpl.
  by rewrite lookup_insert_eq.
Qed.

Lemma cycleHouse_consistent houseId now block block' :
  cycleHouse houseId now block = Some block' → summaryConsistent block'.
Proof.
  unfold cycleHouse. destruct (houses block !! houseId); [|done].
  simpl. intros [= <-]. apply recalcBlockSummary_consistent.
Qed.

Lemma updateHouse_consistent houseId updates block block' :
  updateHouse houseId updates block = Some block' → summaryConsistent block'.
Proof. unfold updateHouse. intros [= <-]. apply recalcBlockSummary_consistent. Qed.

Lemma sequenceBlock_consistent `{Builtins} max block block' :
  sequenceBlock max block = Some block' → summaryConsistent block'.
Proof. unfold sequenceBlock. intros [= <-]. apply recalcBlockSummary_consistent. Qed.

Lemma upsertBlockAt_consistent blockId url n bs :
  ∃ block, upsertBlockAt blockId url n bs !! blockId = Some block
           ∧ summaryConsistent block.
Proof.
  unfold upsertBlockAt. eexists. rewrite lookup_insert_eq. split; [done|].
  apply recalcBlockSummary_consistent.
Qed.

Lemma applyStateMutation_publishes `{Builtins} `{Yaml} `{Remote}
    (mutator : Mutator) label w data draft :
  appState (ui w) = Some data →
  mutator data = Some draft →
  applyStateMutation mutator label w = commitToGitHub draft label (publish draft w).
Proof.
  intros Hstate Hmut. unfold applyStateMutation, cloneState, publish.
  unfold bind at 1. unfold readUi. rewrite Hstate.
  unfold bind at 1. rewrite Hmut. unfold mustExist, ret.
  unfold bind at 1. unfold updateUi. done.
Qed.

(** The handlers hand their mutator to the pipeline. *)
Lemma cycleHouseStatus_applies `{Builtins} `{Yaml} `{Remote} houseId now w
    territoryId blockId :
  selectedTerritoryId (ui w) = Some territoryId →
  selectedBlockId (ui w) = Some blockId →
  is_Some (selectedBlock (ui w)) →
  cycleHouseStatus houseId now w
  = applyStateMutation (cycleHouseStatusMutator territoryId blockId houseId now)
      "Atualização de status da casa" w.
Proof.
  intros Ht Hb [block Hblock]. unfold cycleHouseStatus.
  unfold bind at 1. unfold readUi. cbn [id].
  rewrite Hblock, Ht, Hb. unfold selectedBlock in Hblock.
  destruct (selectedTerritory (ui w)) as [territory|] eqn:Hterritory; [|done].
  cbn in Hblock. rewrite Hb in Hblock.
  destruct (truthy (Some blockId)) eqn:Htb; [|done].
  unfold selectedTerritory in Hterritory.
  destruct (appState (ui w)); [|done]. cbn in Hterritory. rewrite Ht in Hterritory.
  destruct (truthy (Some territoryId)) eqn:Htt; [|done]. done.
Qed.

Lemma applyChalkSequencing_applies `{Builtins} `{Yaml} `{Remote} blockId max w
    territoryId data :
  selectedTerritoryId (ui w) = Some territoryId →
  territoryId ≠ ""%string →
  appState (ui w) = Some data →
  applyChalkSequencing blockId max w
  = applyStateMutation (applyChalkSequencingMutator territoryId blockId max)
      "Sequenciamento da quadra" w.
Proof.
  intros Ht Hne Hstate. unfold applyChalkSequencing.
  unfold bind at 1. unfold readUi. cbn [id]. rewrite Ht, Hstate.
  unfold truthy. by rewrite bool_decide_eq_false_2.
Qed.

(** C1. Each mutator that touches the houses of a block (cycling a status,
    updating house fields, resequencing, creating or updating a block)
    returns a draft in which that block's summary equals the summary derived
    from its houses: the total is the number of houses and each counter the
    number of houses with that status.  That draft is the document the
    mutation pipeline publishes and commits. *)
Theorem mutators_keep_summary `{Builtins} `{Yaml} `{Remote} :
  (∀ territoryId blockId houseId now draft draft',
     cycleHouseStatusMutator territoryId blockId houseId now draft = Some draft' →
     ∃ block, blockAt territoryId blockId draft' = Some block
              ∧ summary block = summaryOf (houses block))
  ∧ (∀ territoryId blockId houseId updates draft draft',
     updateHouseDataMutator territoryId blockId houseId updates draft = Some draft' →
     ∃ block, blockAt territoryId blockId draft' = Some block
              ∧ summary block = summaryOf (houses block))
  ∧ (∀ territoryId blockId max draft draft',
     applyChalkSequencingMutator territoryId blockId max draft = Some draft' →
     ∃ block, blockAt territoryId blockId draft' = Some block
              ∧ summary block = summaryOf (houses block))
  ∧ (∀ payload draft draft',
     upsertBlockMutator payload draft = Some draft' →
     ∃ territory block,
       territories draft !! payloadTerritoryId payload = Some territory
       ∧ blockAt (payloadTerritoryId payload) (upsertBlockId payload territory) draft'
         = Some block
       ∧ summary block = summaryOf (houses block))
  ∧ (∀ (mutator : Mutator) label w data draft',
     appState (ui w) = Some data →
     mutator data = Some draft' →
     applyStateMutation mutator label w = commitToGitHub draft' label (publish draft' w)
     ∧ appState (ui (publish draft' w)) = Some draft').
Proof.
  split; [|split; [|split; [|split]]].
  - intros ?????? (block & block' & _ & Hbody & Hat)%blockAt_onBlock.
    exists block'. split; [done|]. by eapply cycleHouse_consistent.
  - intros ?????? (block & block' & _ & Hbody & Hat)%blockAt_onBlock.
    exists block'. split; [done|]. by eapply updateHouse_consistent.
  - intros ????? (block & block' & _ & Hbody & Hat)%blockAt_onBlock.
    exists block'. split; [done|]. by eapply sequenceBlock_consistent.
  - intros payload draft draft'. unfold upsertBlockMutator.
    destruct (territories draft !! payloadTerritoryId payload) as [territory|] eqn:Ht;
      [|done].
    simpl. intros [= <-].
    destruct (upsertBlockAt_consistent (upsertBlockId payload territory)
                (payloadImageUrl payload) (maxChalk payload) (blocks territory))
      as (block & Hblock & Hok).
    exists territory, block. split; [done|]. split; [|done].
    unfold blockAt; simpl. rewrite lookup_insert_eq. simpl. done.
  - intros mutator label w data draft' Hstate Hmut. split; [|done].
    by apply applyStateMutation_publishes with data.
Qed.

(** ** The status cycle *)

Lemma houseAt_cycle territoryId blockId houseId now draft house :
  houseAt territoryId blockId houseId draft = Some house →
  ∃ draft',
    cycleHouseStatusMutator territoryId blockId houseId now draft = Some draft'
    ∧ houseAt territoryId blockId houseId draft' = Some (cycled now house).
Proof.
  unfold houseAt. intros Hat.
  destruct (blockAt territoryId blockId draft) as [block|] eqn:Hblock; [|done].
  simpl in Hat.
  destruct (onBlock_defined territoryId blockId (cycleHouse houseId now) draft block
              (recalcBlockSummary
                 (setHouses (<[houseId := cycled now house]> (houses block)) block)))
    as (draft' & Hrun & Hat'); [done| |].
  { unfold cycleHouse. rewrite Hat. done. }
  exists draft'. split; [done|]. rewrite Hat'. simpl. by rewrite lookup_insert_eq.
Qed.

Lemma indexOf_cases (current : option Z) :
  (current = Some 1 ∧ indexOf statusCycle current = 0)
  ∨ (current = Some 2 ∧ indexOf statusCycle current = 1)
  ∨ (current = Some 3 ∧ indexOf statusCycle current = 2)
  ∨ (current = Some 4 ∧ indexOf statusCycle current = 3)
  ∨ (indexOf statusCycle current = -1
     ∧ current ≠ Some 1 ∧ current ≠ Some 2 ∧ current ≠ Some 3 ∧ current ≠ Some 4).
Proof.
  unfold indexOf, statusCycle. cbn [indexOfFrom].
  repeat case_bool_decide; subst; cbn; auto 10.
Qed.

Lemma nextStatus_table (current : option Z) :
  nextStatus current
  = Some (match current with
          | Some 1 => 2
          | Some 2 => 3
          | Some 3 => 4
          | _ => 1
          end).
Proof.
  unfold nextStatus.
  destruct (indexOf_cases current)
    as [[-> Hi]|[[-> Hi]|[[-> Hi]|[[-> Hi]|(Hi & ? & ? & ? & ?)]]]];
    rewrite Hi; try reflexivity.
  cbn. destruct current as [[|p|p]|]; try done.
  repeat (destruct p as [p|p|]; try done).
Qed.

Lemma nextStatus_four v :
  1 ≤ v ≤ 4 →
  nextStatus (nextStatus (nextStatus (nextStatus (Some v)))) = Some v.
Proof.
  intros Hv. assert (v = 1 ∨ v = 2 ∨ v = 3 ∨ v = 4) as Hcases by lia.
  destruct Hcases as [Hc|[Hc|[Hc|Hc]]]; subst v; reflexivity.
Qed.

Lemma cycle_sets_lastVisit territoryId blockId houseId now draft draft' :
  cycleHouseStatusMutator territoryId blockId houseId now draft = Some draft' →
  ∃ house, houseAt territoryId blockId houseId draft = Some house
           ∧ houseAt territoryId blockId houseId draft' = Some (cycled now house).
Proof.
  intros Hrun.
  destruct (blockAt_onBlock _ _ _ _ _ Hrun) as (block & block' & Hat & Hbody & _).
  unfold cycleHouse in Hbody.
  destruct (houses block !! houseId) as [house|] eqn:Hhouse; [|done].
  assert (houseAt territoryId blockId houseId draft = Some house) as Hh.
  { unfold houseAt. rewrite Hat. done. }
  destruct (houseAt_cycle _ _ _ now _ _ Hh) as (d & Hd & Hat').
  exists house. split; [done|]. congruence.
Qed.

(** C4. Each application of the status cycle to a house stores the time of
    the call as the house's last visit and moves its status one step along
    the cycle: 1 to 2, 2 to 3, 3 to 4, and 4 (as any other status) to 1.  So
    a house whose status is one of 1..4 goes through the three other statuses
    in that order and has its original status again after four successive
    applications. *)
Theorem cycle_four_times_and_lastVisit territoryId blockId houseId :
  let cycle := cycleHouseStatusMutator territoryId blockId houseId in
  (∀ now draft draft',
     cycle now draft = Some draft' →
     ∃ house house',
       houseAt territoryId blockId houseId draft = Some house
       ∧ houseAt territoryId blockId houseId draft' = Some house'
       ∧ lastVisit house' = Some (Some now)
       ∧ status house' = Some (match status house with
                               | Some 1 => 2
                               | Some 2 => 3
                               | Some 3 => 4
                               | _ => 1
                               end))
  ∧ (∀ draft house v t1 t2 t3 t4,
     houseAt territoryId blockId houseId draft = Some house →
     status house = Some v →
     1 ≤ v ≤ 4 →
     ∃ d1 d2 d3 d4 house1 house2 house3 house4,
       cycle t1 draft = Some d1 ∧ cycle t2 d1 = Some d2
       ∧ cycle t3 d2 = Some d3 ∧ cycle t4 d3 = Some d4
       ∧ houseAt territoryId blockId houseId d1 = Some house1
       ∧ houseAt territoryId blockId houseId d2 = Some house2
       ∧ houseAt territoryId blockId houseId d3 = Some house3
       ∧ houseAt territoryId blockId houseId d4 = Some house4
       ∧ status house1 = Some (v mod 4 + 1)
       ∧ status house2 = Some ((v + 1) mod 4 + 1)
       ∧ status house3 = Some ((v + 2) mod 4 + 1)
       ∧ status house4 = status house
       ∧ lastVisit house4 = Some (Some t4)).
Proof.
  intros cycle. split.
  - intros now draft draft' (house & Hat & Hat')%cycle_sets_lastVisit.
    exists house, (cycled now house). repeat split; try done.
    cbn. apply nextStatus_table.
  - intros draft house v t1 t2 t3 t4 Hat Hstatus Hv.
    destruct (houseAt_cycle _ _ _ t1 _ _ Hat) as (d1 & Hd1 & Hh1).
    destruct (houseAt_cycle _ _ _ t2 _ _ Hh1) as (d2 & Hd2 & Hh2).
    destruct (houseAt_cycle _ _ _ t3 _ _ Hh2) as (d3 & Hd3 & Hh3).
    destruct (houseAt_cycle _ _ _ t4 _ _ Hh3) as (d4 & Hd4 & Hh4).
    exists d1, d2, d3, d4. eexists _, _, _, _.
    do 8 (split; [done|]).
    cbn [status cycled lastVisit]. rewrite !nextStatus_table, Hstatus.
    assert (v = 1 ∨ v = 2 ∨ v = 3 ∨ v = 4) as Hcases by lia.
    destruct Hcases as [-> | [-> | [-> | ->]]]; done.
Qed.

(** ** Resequencing *)

Lemma setChalkNumber_idem key house :
  setChalkNumber key (setChalkNumber key house) = setChalkNumber key house.
Proof. done. Qed.

Lemma ensureHouse_lookup hs index key :
  ensureHouse hs index !! key
  = if decide (indexKey index = key)
    then Some (default (newHouse key) (hs !! key)) else hs !! key.
Proof.
  unfold ensureHouse. case_decide as Hkey.
  - subst key. destruct (hs !! indexKey index) eqn:Hlook; simpl; [done|].
    by rewrite lookup_insert_eq.
  - destruct (hs !! indexKey index); [done|]. by rewrite lookup_insert_ne.
Qed.

Lemma sequenceHouse_lookup hs index key :
  sequenceHouse hs index !! key
  = if decide (indexKey index = key)
    then Some (setChalkNumber key (default (newHouse key) (hs !! key))) else hs !! key.
Proof.
  unfold sequenceHouse. rewrite lookup_alter. case_decide as Hkey.
  - subst key. rewrite ensureHouse_lookup. by rewrite decide_True.
  - rewrite ensureHouse_lookup. by rewrite decide_False.
Qed.

Lemma sequence_lookup_other l hs key :
  (∀ i, i ∈ l → indexKey i ≠ key) →
  foldl sequenceHouse hs l !! key = hs !! key.
Proof.
  revert hs. induction l as [|x l IH]; intros hs Hother; [done|].
  simpl. rewrite IH by (intros i Hi; apply Hother; by right).
  rewrite sequenceHouse_lookup, decide_False; [done|]. apply Hother. by left.
Qed.

Lemma sequence_lookup_index l hs i :
  i ∈ l →
  foldl sequenceHouse hs l !! indexKey i
  = Some (setChalkNumber (indexKey i) (default (newHouse (indexKey i)) (hs !! indexKey i))).
Proof.
  revert hs. induction l as [|x l IH]; intros hs Hin; [by apply elem_of_nil in Hin|].
  simpl. destruct (decide (i ∈ l)) as [Hl|Hl].
  - rewrite IH by done. rewrite sequenceHouse_lookup. case_decide; [|done].
    simpl. by rewrite setChalkNumber_idem.
  - apply elem_of_cons in Hin as [->|Hin]; [|done].
    rewrite sequence_lookup_other.
    + rewrite sequenceHouse_lookup. by rewrite decide_True.
    + intros j Hj Heq. apply (inj pretty) in Heq. by subst j.
Qed.

Lemma prune_lookup_general `{Builtins} max (keys : list string)
    (acc : gmap string HouseRecord) key :
  foldl (λ acc key, if exceeds (Number key) max then delete key acc else acc) acc keys !! key
  = if decide (key ∈ keys ∧ exceeds (Number key) max = true) then None else acc !! key.
Proof.
  revert acc. induction keys as [|k keys IH]; intros acc.
  - case_decide as Hd; [|done]. destruct Hd as [Hin _]. by apply elem_of_nil in Hin.
  - cbn [foldl]. rewrite IH.
    destruct (decide (key ∈ keys ∧ exceeds (Number key) max = true)) as [[Hin Hx]|Hn].
    + rewrite decide_True; [done|]. split; [by right|done].
    + destruct (decide (key = k)) as [->|Hne].
      * destruct (exceeds (Number k) max) eqn:Hk.
        -- rewrite lookup_delete_eq. rewrite decide_True; [done|]. split; [by left|done].
        -- rewrite decide_False; [done|]. by intros [_ ?].
      * rewrite decide_False.
        -- destruct (exceeds (Number k) max); [by rewrite lookup_delete_ne|done].
        -- intros [[?|?]%elem_of_cons ?]; [done|]. by apply Hn.
Qed.

Lemma pruneAbove_lookup `{Builtins} max (hs : gmap string HouseRecord) key :
  pruneAbove max hs !! key = if exceeds (Number key) max then None else hs !! key.
Proof.
  unfold pruneAbove. rewrite prune_lookup_general.
  destruct (exceeds (Number key) max) eqn:Hk.
  - case_decide as Hin; [done|]. destruct (hs !! key) as [house|] eqn:Hlook; [|done].
    exfalso. apply Hin. split; [|done].
    apply list_elem_of_fmap. exists (key, house). split; [done|].
    by apply elem_of_map_to_list.
  - rewrite decide_False; [done|]. by intros [_ ?].
Qed.

Lemma exceeds_integer max i : exceeds (Finite (Qc_of_Z i)) max = bool_decide (max < i).
Proof. unfold exceeds. apply bool_decide_ext. symmetry. apply Z2Qc_inj_lt. Qed.

Lemma index_not_exceeds `{Builtins} max i :
  NumberReadsIndices → 1 ≤ i ≤ max → exceeds (Number (indexKey i)) max = false.
Proof.
  intros Hread [Hlo Hhi]. rewrite Hread, exceeds_integer by done.
  apply bool_decide_eq_false_2. lia.
Qed.

Lemma elem_of_indices max i : i ∈ indices max ↔ 1 ≤ i ≤ max.
Proof. unfold indices. rewrite elem_of_seqZ. lia. Qed.

(** The houses of a block after resequencing. *)
Lemma sequenceBlock_houses `{Builtins} max block :
  ∃ block', sequenceBlock max block = Some block'
    ∧ summary block' = summaryOf (houses block')
    ∧ imageUrl block' = imageUrl block
    ∧ (∀ key, exceeds (Number key) max = true → houses block' !! key = None)
    ∧ (NumberReadsIndices → ∀ i, 1 ≤ i ≤ max →
         houses block' !! indexKey i
         = Some (setChalkNumber (indexKey i)
                   (default (newHouse (indexKey i)) (houses block !! indexKey i))))
    ∧ (∀ key, exceeds (Number key) max = false →
         (∀ i, 1 ≤ i ≤ max → indexKey i ≠ key) →
         houses block' !! key = houses block !! key).
Proof.
  eexists. split; [done|]. split; [apply recalcBlockSummary_consistent|].
  split; [done|]. simpl. split; [|split].
  - intros key Hkey. by rewrite pruneAbove_lookup, Hkey.
  - intros Hread i Hi. rewrite pruneAbove_lookup, index_not_exceeds by done.
    apply sequence_lookup_index. by apply elem_of_indices.
  - intros key Hkey Hother. rewrite pruneAbove_lookup, Hkey.
    apply sequence_lookup_other. intros i Hi. apply Hother. by apply elem_of_indices.
Qed.

Lemma sequencing_runs `{Builtins} territoryId blockId max draft block :
  blockAt territoryId blockId draft = Some block →
  ∃ draft' block',
    applyChalkSequencingMutator territoryId blockId max draft = Some draft'
    ∧ sequenceBlock max block = Some block'
    ∧ blockAt territoryId blockId draft' = Some block'.
Proof.
  intros Hat. destruct (sequenceBlock_houses max block) as (block' & Hrun & _).
  destruct (onBlock_defined territoryId blockId (sequenceBlock max) draft block block')
    as (draft' & Hdraft & Hat'); [done..|].
  by exists draft', block'.
Qed.

(** C2. Resequencing a block with maximum N (N at least 1) gives a block in
    which every key "1".."N" holds a house whose chalk number is its key, no
    house remains under a key whose number is finite and above N, and the
    summary is the one derived from the resulting houses.  Resequencing an
    empty block with maximum 3 gives the houses "1", "2", "3", each with
    status 1, and the summary total 3, verde 3, others 0. *)
Theorem resequencing_range `{Builtins} :
  NumberReadsIndices →
  (∀ territoryId blockId N draft block,
     1 ≤ N →
     blockAt territoryId blockId draft = Some block →
     ∃ draft' block',
       applyChalkSequencingMutator territoryId blockId N draft = Some draft'
       ∧ blockAt territoryId blockId draft' = Some block'
       ∧ (∀ i, 1 ≤ i ≤ N →
            ∃ house, houses block' !! indexKey i = Some house
                     ∧ chalkNumber house = Some (indexKey i))
       ∧ (∀ key q, Number key = Finite q → (Qc_of_Z N < q)%Qc →
            houses block' !! key = None)
       ∧ (∀ i, N < i → houses block' !! indexKey i = None)
       ∧ summary block' = summaryOf (houses block'))
  ∧ (∀ territoryId blockId draft block,
     blockAt territoryId blockId draft = Some block →
     houses block = ∅ →
     ∃ draft' block',
       applyChalkSequencingMutator territoryId blockId 3 draft = Some draft'
       ∧ blockAt territoryId blockId draft' = Some block'
       ∧ houses block'
         = <["1"%string := newHouse "1"]>
             (<["2"%string := newHouse "2"]> (<["3"%string := newHouse "3"]> ∅))
       ∧ status (newHouse "1") = Some 1
       ∧ summary block'
         = {| total := 3; verde := 3; amarelo := 0; laranja := 0; vermelho := 0 |}).
Proof.
  intros Hread. split.
  - intros territoryId blockId N draft block HN Hat.
    destruct (sequencing_runs territoryId blockId N draft block Hat)
      as (draft' & block' & Hrun & Hbody & Hat').
    destruct (sequenceBlock_houses N block)
      as (b & Hb & Hsum & _ & Habove & Hindex & _).
    assert (b = block') as -> by congruence.
    exists draft', block'. repeat split; try done.
    + intros i Hi. eexists. split; [by apply Hindex|done].
    + intros key q Hnum Hq. apply Habove. rewrite Hnum. simpl.
      by apply bool_decide_eq_true_2.
    + intros i Hi. apply Habove. rewrite Hread, exceeds_integer by lia.
      by apply bool_decide_eq_true_2.
  - intros territoryId blockId draft block Hat Hempty.
    destruct (sequencing_runs territoryId blockId 3 draft block Hat)
      as (draft' & block' & Hrun & Hbody & Hat').
    destruct (sequenceBlock_houses 3 block)
      as (b & Hb & Hsum & _ & Habove & Hindex & Hother).
    assert (b = block') as -> by congruence.
    assert (houses block'
            = <["1"%string := newHouse "1"]>
                (<["2"%string := newHouse "2"]> (<["3"%string := newHouse "3"]> ∅)))
      as Hhouses.
    { apply map_eq. intros key.
      pose proof (Hindex Hread 1 ltac:(lia)) as H1.
      pose proof (Hindex Hread 2 ltac:(lia)) as H2.
      pose proof (Hindex Hread 3 ltac:(lia)) as H3.
      rewrite Hempty, lookup_empty in H1, H2, H3.
      change (indexKey 1) with "1"%string in *.
      change (indexKey 2) with "2"%string in *.
      change (indexKey 3) with "3"%string in *.
      destruct (decide (key = "1"%string)) as [->|Hk1]; [by rewrite lookup_insert_eq|].
      rewrite lookup_insert_ne by done.
      destruct (decide (key = "2"%string)) as [->|Hk2]; [by rewrite lookup_insert_eq|].
      rewrite lookup_insert_ne by done.
      destruct (decide (key = "3"%string)) as [->|Hk3]; [by rewrite lookup_insert_eq|].
      rewrite lookup_insert_ne, lookup_empty by done.
      destruct (exceeds (Number key) 3) eqn:Hx; [by apply Habove|].
      rewrite Hother, Hempty; [done..|].
      intros i Hi. assert (i = 1 ∨ i = 2 ∨ i = 3) as [-> | [-> | ->]] by lia; done. }
    exists draft', block'. repeat split; try done.
    rewrite Hsum, Hhouses. by vm_compute.
Qed.

(** C10. Resequencing a block with maximum N leaves the status, official
    number, notes and last visit of every house that already existed under a
    key "1".."N" as they were, and sets its chalk number to its key; a key in
    that range that had no house gets one with status 1, empty official
    number and notes, no last visit, and the key as chalk number. *)
Theorem resequencing_frame `{Builtins} territoryId blockId N draft block :
  NumberReadsIndices →
  blockAt territoryId blockId draft = Some block →
  ∃ draft' block',
    applyChalkSequencingMutator territoryId blockId N draft = Some draft'
    ∧ blockAt territoryId blockId draft' = Some block'
    ∧ (∀ i house,
         1 ≤ i ≤ N →
         houses block !! indexKey i = Some house →
         ∃ house',
           houses block' !! indexKey i = Some house'
           ∧ status house' = status house
           ∧ officialNumber house' = officialNumber house
           ∧ notes house' = notes house
           ∧ lastVisit house' = lastVisit house
           ∧ chalkNumber house' = Some (indexKey i))
    ∧ (∀ i,
         1 ≤ i ≤ N →
         houses block !! indexKey i = None →
         houses block' !! indexKey i
         = Some {| status := Some 1;
                   chalkNumber := Some (indexKey i);
                   officialNumber := Some ""%string;
                   notes := Some ""%string;
                   lastVisit := Some None |}).
Proof.
  intros Hread Hat.
  destruct (sequencing_runs territoryId blockId N draft block Hat)
    as (draft' & block' & Hrun & Hbody & Hat').
  destruct (sequenceBlock_houses N block) as (b & Hb & _ & _ & _ & Hindex & _).
  assert (b = block') as -> by congruence.
  exists draft', block'. repeat split; try done.
  - intros i house Hi Hhouse. rewrite (Hindex Hread i Hi), Hhouse.
    by eexists.
  - intros i Hi Hnone. by rewrite (Hindex Hread i Hi), Hnone.
Qed.

(** ** Fetching: failures leave the document alone *)

Ltac run_eff :=
  repeat (progress (cbn [bind ret throw updateUi readUi fetch json mustExist
                        surfaceNotification tryCatchFinally ui store sent fst snd]
                    || unfold bind, ret, throw, updateUi, readUi, fetch, json,
                         mustExist, surfaceNotification, tryCatchFinally in * )).

Lemma loadRemoteState_decode_error `{Builtins} `{Yaml} `{Remote}
    reason w response payload store' e :
  respond (loadRequest (patValue (ui w))) (store w) = (Responds response, store') →
  responseOk response = true →
  responseJson response = JsonValue payload →
  decodeFailure payload e →
  loadRemoteState reason w
  = (Ok tt, {| ui := afterLoadError e (ui w);
               store := store';
               sent := sent w ++ [loadRequest (patValue (ui w))] |}).
Proof.
  intros Hrespond Hok Hjson Hdecode.
  unfold loadRemoteState, loadRemoteStateBody, applyResponse. run_eff. cbn.
  rewrite Hrespond. cbn. rewrite Hok. cbn. rewrite Hjson. cbn.
  unfold decodeFailure in Hdecode.
  destruct (decodeBase64 (default undefinedText (payloadContent payload))) as [decoded|].
  - destruct Hdecode as (msg & Hload & ->). cbn. rewrite Hload. done.
  - subst e. done.
Qed.

Lemma loadRemoteState_transport_error `{Builtins} `{Yaml} `{Remote}
    reason w answer store' e :
  respond (loadRequest (patValue (ui w))) (store w) = (answer, store') →
  transportFailure answer e →
  loadRemoteState reason w
  = (Ok tt, {| ui := afterLoadError e (ui w);
               store := store';
               sent := sent w ++ [loadRequest (patValue (ui w))] |}).
Proof.
  intros Hrespond Hfail.
  unfold loadRemoteState, loadRemoteStateBody, applyResponse. run_eff. cbn.
  rewrite Hrespond. destruct answer as [msg|response]; cbn in *.
  - by subst e.
  - destruct Hfail as [Hok ->]. rewrite Hok. done.
Qed.

(** Text that the loader accepts is published whatever it holds: an empty
    document, which loads as [undefined], replaces the local document. *)
Lemma loadRemoteState_empty_document `{Builtins} `{Yaml} `{Remote}
    reason w response payload store' decoded :
  respond (loadRequest (patValue (ui w))) (store w) = (Responds response, store') →
  responseOk response = true →
  responseJson response = JsonValue payload →
  decodeBase64 (default undefinedText (payloadContent payload)) = Some decoded →
  yaml_load decoded = YamlValue None →
  appState (ui (loadRemoteState reason w).2) = None.
Proof.
  intros Hrespond Hok Hjson Hdecoded Hload.
  unfold loadRemoteState, loadRemoteStateBody, applyResponse, selectFirst. run_eff. cbn.
  rewrite Hrespond. cbn. rewrite Hok. cbn. rewrite Hjson. cbn.
  rewrite Hdecoded. cbn. rewrite Hload. cbn.
  destruct (truthy (selectedTerritoryId (ui w))); done.
Qed.

(** C6 (as amended). When decoding of the content of a fetched document
    throws ([atob] rejects the content, or [yaml.load] rejects the decoded
    text), [loadRemoteState] reports the decoder's error: the error it passes
    to the console is of a decode kind, never of a transport kind, and its
    message is the one shown in the error notification; the local document
    and the version tag are exactly those from before the fetch.  When the
    transport fails, the error passed to the console is of a transport kind,
    never of a decode kind, and the local document is kept as well. *)
Theorem decode_failure_keeps_document `{Builtins} `{Yaml} `{Remote} reason w :
  (∀ response payload store',
     respond (loadRequest (patValue (ui w))) (store w) = (Responds response, store') →
     responseOk response = true →
     responseJson response = JsonValue payload →
     decodeThrows payload →
     let w' := (loadRemoteState reason w).2 in
     appState (ui w') = appState (ui w)
     ∧ remoteSha (ui w') = remoteSha (ui w)
     ∧ ∃ e, console (ui w') = console (ui w) ++ [e]
            ∧ isDecode e = true ∧ isTransport e = false
            ∧ notification (ui w')
              = Some {| notificationType := error;
                        notificationMessage :=
                          default "Erro ao buscar dados"%string (message e) |})
  ∧ (∀ answer store',
     respond (loadRequest (patValue (ui w))) (store w) = (answer, store') →
     transportFails answer →
     let w' := (loadRemoteState reason w).2 in
     appState (ui w') = appState (ui w)
     ∧ remoteSha (ui w') = remoteSha (ui w)
     ∧ ∃ e, console (ui w') = console (ui w) ++ [e]
            ∧ isTransport e = true ∧ isDecode e = false).
Proof.
  split.
  - intros response payload store' Hrespond Hok Hjson Hthrows w'. subst w'.
    assert (∃ e, decodeFailure payload e ∧ isDecode e = true ∧ isTransport e = false)
      as (e & Hdecode & Hkind & Hkind').
    { unfold decodeThrows in Hthrows. unfold decodeFailure.
      destruct (decodeBase64 _) as [decoded|].
      - destruct Hthrows as [msg Hload]. eexists. split; [by exists msg|done].
      - by eexists. }
    rewrite (loadRemoteState_decode_error _ _ _ _ _ _ Hrespond Hok Hjson Hdecode).
    cbn. split; [done|]. split; [done|]. by exists e.
  - intros answer store' Hrespond Hfails w'. subst w'.
    assert (∃ e, transportFailure answer e ∧ isTransport e = true ∧ isDecode e = false)
      as (e & Hfail & Hkind & Hkind').
    { destruct answer as [msg|response]; cbn in *; eexists; by repeat split. }
    rewrite (loadRemoteState_transport_error _ _ _ _ _ Hrespond Hfail).
    cbn. split; [done|]. split; [done|]. by exists e.
Qed.

(** C6 (as stated) fails: content that decodes and loads without throwing is
    published unchecked.  On a file without content the local document is
    replaced by no document and the tag by the tag of the answer; while a
    territory is selected the fetch even ends with its success message, and
    with none selected it ends with the error of reading the territories of
    no document. *)
Lemma decode_failure_empty_content_replaces_document :
  (appState (ui (sampleWorld [Responds emptyAnswer])) = Some sampleData
   ∧ remoteSha (ui (sampleWorld [Responds emptyAnswer])) = "0a1b"%string
   ∧ ui (@loadRemoteState digitsBuiltins sampleYaml scriptedRemote focus
           (sampleWorld [Responds emptyAnswer])).2
     = setNotification
         (Some {| notificationType := success;
                  notificationMessage := "Dados sincronizados" |})
         (setRemoteSha "9f2c" (setAppState None sampleComponent)))
  ∧ (appState (ui (unselectedWorld [Responds emptyAnswer])) = Some sampleData
     ∧ appState (ui (@loadRemoteState digitsBuiltins sampleYaml scriptedRemote focus
                       (unselectedWorld [Responds emptyAnswer])).2) = None
     ∧ remoteSha (ui (@loadRemoteState digitsBuiltins sampleYaml scriptedRemote focus
                        (unselectedWorld [Responds emptyAnswer])).2) = "9f2c"%string
     ∧ appState (ui (@loadRemoteState digitsBuiltins sampleYaml scriptedRemote focus
                       (unselectedWorld [Responds emptyAnswer])).2)
       ≠ appState (ui (unselectedWorld [Responds emptyAnswer]))
     ∧ remoteSha (ui (@loadRemoteState digitsBuiltins sampleYaml scriptedRemote focus
                        (unselectedWorld [Responds emptyAnswer])).2) = "9f2c"%string
     ∧ notification (ui (@loadRemoteState digitsBuiltins sampleYaml scriptedRemote focus
                           (unselectedWorld [Responds emptyAnswer])).2)
       = Some {| notificationType := error;
                 notificationMessage := "Cannot read properties of undefined" |}).
Proof. repeat split; by vm_compute. Qed.

(** ** Committing *)

(** Applying a response touches neither the store nor the request log nor
    the token, and [loadRemoteState] catches what it throws. *)
Lemma applyResponse_frame `{Builtins} `{Yaml} `{Remote} reason response w :
  let w' := (applyResponse reason response w).2 in
  store w' = store w ∧ sent w' = sent w ∧ patValue (ui w') = patValue (ui w).
Proof.
  unfold applyResponse, selectFirst. run_eff.
  repeat (case_match; simplify_eq/=; run_eff); done.
Qed.

Lemma loadRemoteState_run `{Builtins} `{Yaml} `{Remote} reason w :
  ∃ c', loadRemoteState reason w
        = (Ok tt, {| ui := c';
                     store := (respond (loadRequest (patValue (ui w))) (store w)).2;
                     sent := sent w ++ [loadRequest (patValue (ui w))] |})
        ∧ patValue c' = patValue (ui w).
Proof.
  unfold loadRemoteState, loadRemoteStateBody. run_eff. cbn.
  destruct (respond (loadRequest (patValue (ui w))) (store w)) as [[msg|response] s1]; cbn.
  - eexists. split; [done|]. done.
  - match goal with |- context [applyResponse reason response ?w0] =>
      pose proof (applyResponse_frame reason response w0) as Hframe;
      destruct (applyResponse reason response w0) as [[[]|e] [c1 st1 sent1]]
    end; cbn in *; destruct Hframe as (-> & -> & Hpat);
      (eexists; split; [done|]); cbn; done.
Qed.

#[local] Arguments loadRemoteState : simpl never.

Lemma commitToGitHub_tag `{Builtins} `{Yaml} `{Remote}
    nextState label w response s1 payload encoded :
  patValue (ui w) ≠ ""%string →
  respond (shaRequest (patValue (ui w))) (store w) = (Responds response, s1) →
  responseOk response = true →
  responseJson response = JsonValue payload →
  encodeBase64 (yaml_dump nextState) = Some encoded →
  let w' := (commitToGitHub nextState label w).2 in
  patValue (ui w') = patValue (ui w)
  ∧ ∃ rest,
      sent w' = sent w ++ shaRequest (patValue (ui w))
                  :: putRequest (patValue (ui w)) encoded (payloadSha payload) :: rest.
Proof.
  intros Hpat Hsha Hok Hjson Henc.
  unfold commitToGitHub, ensurePatBeforeCommit, commitToGitHubBody. run_eff. cbn.
  rewrite bool_decide_eq_false_2 by done. cbn.
  rewrite Hsha. cbn. rewrite Hok. cbn. rewrite Hjson. cbn. rewrite Henc. cbn.
  destruct (respond (putRequest (patValue (ui w)) encoded (payloadSha payload)) s1)
    as [[msg|response2] s2]; cbn.
  - split; [done|]. exists []. by rewrite <- app_assoc.
  - destruct (responseOk response2); cbn.
    + match goal with |- context [loadRemoteState postCommit ?w0] =>
        destruct (loadRemoteState_run postCommit w0) as (c' & -> & Hc')
      end.
      cbn in *. split; [done|]. eexists. by rewrite <- !app_assoc.
    + split; [done|]. exists []. by rewrite <- app_assoc.
Qed.

(** Every request a commit sends: none without a token, the tag read alone
    when the commit fails before the write, otherwise the tag read, then the
    write with the tag just read, then the read of the refetch if any. *)
Lemma commitToGitHub_requests `{Builtins} `{Yaml} `{Remote} nextState label w :
  ∃ new,
    sent (commitToGitHub nextState label w).2 = sent w ++ new
    ∧ (new = [] ∨ new = [shaRequest (patValue (ui w))]
       ∨ ∃ response s1 payload encoded rest,
           respond (shaRequest (patValue (ui w))) (store w) = (Responds response, s1)
           ∧ responseJson response = JsonValue payload
           ∧ new = shaRequest (patValue (ui w))
                     :: putRequest (patValue (ui w)) encoded (payloadSha payload) :: rest
           ∧ Forall (λ req, method req = GET) rest).
Proof.
  destruct (decide (patValue (ui w) = ""%string)) as [Hpat|Hpat].
  { exists []. split; [|by left].
    unfold commitToGitHub, ensurePatBeforeCommit. run_eff. cbn.
    rewrite bool_decide_eq_true_2 by done. cbn. by rewrite app_nil_r. }
  destruct (respond (shaRequest (patValue (ui w))) (store w))
    as [answer s1] eqn:Hsha.
  assert (sent (commitToGitHub nextState label w).2
          = sent w ++ [shaRequest (patValue (ui w))]
          ∨ ∃ response payload encoded,
              answer = Responds response ∧ responseOk response = true
              ∧ responseJson response = JsonValue payload
              ∧ encodeBase64 (yaml_dump nextState) = Some encoded) as [Hshort|Hlong].
  { unfold commitToGitHub, ensurePatBeforeCommit, commitToGitHubBody. run_eff. cbn.
    rewrite bool_decide_eq_false_2 by done. cbn. rewrite Hsha.
    destruct answer as [msg|response]; cbn; [by left|].
    destruct (responseOk response) eqn:Hok; cbn; [|by left].
    destruct (responseJson response) as [msg|payload] eqn:Hjson; cbn; [by left|].
    destruct (encodeBase64 (yaml_dump nextState)) as [encoded|] eqn:Henc; cbn;
      [|by left].
    right. by exists response, payload, encoded. }
  { eexists. split; [done|]. right. by left. }
  destruct Hlong as (response & payload & encoded & -> & Hok & Hjson & Henc).
  destruct (commitToGitHub_tag nextState label w _ _ _ _ Hpat Hsha Hok Hjson Henc)
    as [_ [rest Hsent]].
  eexists. split; [done|]. right. right.
  exists response, s1, payload, encoded, rest. repeat split; try done.
  revert Hsent.
  unfold commitToGitHub, ensurePatBeforeCommit, commitToGitHubBody. run_eff. cbn.
  rewrite bool_decide_eq_false_2 by done. cbn.
  rewrite Hsha. cbn. rewrite Hok. cbn. rewrite Hjson. cbn. rewrite Henc. cbn.
  destruct (respond (putRequest (patValue (ui w)) encoded (payloadSha payload)) s1)
    as [[msg|response2] s2]; cbn.
  - rewrite <- app_assoc. intros Heq%app_inv_head. cbn in Heq.
    injection Heq as <-. constructor.
  - destruct (responseOk response2); cbn.
    + match goal with |- context [loadRemoteState postCommit ?w0] =>
        destruct (loadRemoteState_run postCommit w0) as (c' & -> & Hc')
      end.
      cbn. rewrite <- !app_assoc. intros Heq%app_inv_head. cbn in Heq.
      injection Heq as <-. by repeat constructor.
    + rewrite <- app_assoc. intros Heq%app_inv_head. cbn in Heq.
      injection Heq as <-. constructor.
Qed.

(** C7. A commit made with a stored token first reads the version tag from
    the remote store and then sends a write whose body carries, as its tag,
    exactly the tag of that answer, whatever tag the component holds from an
    earlier fetch, and as its content the encoded document.  Of two commits
    made one after the other, each write carries the tag read by its own
    commit.  A commit sends no write other than that one. *)
Theorem commit_uses_fresh_tag `{Builtins} `{Yaml} `{Remote} :
  (∀ nextState label w response s1 payload encoded,
     patValue (ui w) ≠ ""%string →
     respond (shaRequest (patValue (ui w))) (store w) = (Responds response, s1) →
     responseOk response = true →
     responseJson response = JsonValue payload →
     encodeBase64 (yaml_dump nextState) = Some encoded →
     ∃ write rest,
       sent (commitToGitHub nextState label w).2
       = sent w ++ shaRequest (patValue (ui w)) :: write :: rest
       ∧ method (shaRequest (patValue (ui w))) = GET
       ∧ method write = PUT
       ∧ sha <$> body write = Some (payloadSha payload)
       ∧ content <$> body write = Some encoded)
  ∧ (∀ state1 label1 state2 label2 w response1 s1 payload1 encoded1
       response2 s2 payload2 encoded2,
     let pat := patValue (ui w) in
     let w1 := (commitToGitHub state1 label1 w).2 in
     let w2 := (commitToGitHub state2 label2 w1).2 in
     pat ≠ ""%string →
     respond (shaRequest pat) (store w) = (Responds response1, s1) →
     responseOk response1 = true →
     responseJson response1 = JsonValue payload1 →
     encodeBase64 (yaml_dump state1) = Some encoded1 →
     respond (shaRequest pat) (store w1) = (Responds response2, s2) →
     responseOk response2 = true →
     responseJson response2 = JsonValue payload2 →
     encodeBase64 (yaml_dump state2) = Some encoded2 →
     ∃ write1 between write2 rest,
       sent w2
       = sent w ++ shaRequest pat :: write1 :: between ++ shaRequest pat :: write2 :: rest
       ∧ method write1 = PUT
       ∧ sha <$> body write1 = Some (payloadSha payload1)
       ∧ method write2 = PUT
       ∧ sha <$> body write2 = Some (payloadSha payload2))
  ∧ (∀ nextState label w,
     ∃ new,
       sent (commitToGitHub nextState label w).2 = sent w ++ new
       ∧ ∀ before req after,
           new = before ++ req :: after →
           method req = PUT →
           ∃ response s1 payload,
             respond (shaRequest (patValue (ui w))) (store w) = (Responds response, s1)
             ∧ responseJson response = JsonValue payload
             ∧ before = [shaRequest (patValue (ui w))]
             ∧ sha <$> body req = Some (payloadSha payload)).
Proof.
  split; [|split].
  - intros nextState label w response s1 payload encoded Hpat Hsha Hok Hjson Henc.
    destruct (commitToGitHub_tag nextState label w _ _ _ _ Hpat Hsha Hok Hjson Henc)
      as [_ [rest Hsent]].
    by exists (putRequest (patValue (ui w)) encoded (payloadSha payload)), rest.
  - intros state1 label1 state2 label2 w response1 s1 payload1 encoded1
      response2 s2 payload2 encoded2 pat w1 w2 Hpat Hsha1 Hok1 Hjson1 Henc1
      Hsha2 Hok2 Hjson2 Henc2.
    destruct (commitToGitHub_tag state1 label1 w _ _ _ _ Hpat Hsha1 Hok1 Hjson1 Henc1)
      as [Hpat1 [between Hsent1]].
    fold w1 in Hpat1, Hsent1. fold pat in Hpat1, Hsent1.
    rewrite <- Hpat1 in Hsha2.
    destruct (commitToGitHub_tag state2 label2 w1 _ _ _ _ ltac:(congruence)
                Hsha2 Hok2 Hjson2 Henc2) as [_ [rest Hsent2]].
    fold w2 in Hsent2. rewrite Hpat1 in Hsent2.
    exists (putRequest pat encoded1 (payloadSha payload1)), between,
      (putRequest pat encoded2 (payloadSha payload2)), rest.
    split; [|done]. rewrite Hsent2, Hsent1.
    rewrite <- app_assoc. done.
  - intros nextState label w.
    destruct (commitToGitHub_requests nextState label w) as (new & Hsent & Hnew).
    exists new. split; [done|]. intros before req after Hsplit Hput.
    destruct Hnew as [->|[->|(response & s1 & payload & encoded & rest
                               & Hsha & Hjson & -> & Hrest)]].
    + by destruct before.
    + destruct before as [|? [|]]; simplify_eq/=.
    + destruct before as [|r0 [|r1 before]]; simplify_eq/=.
      * by exists response, s1, payload.
      * apply Forall_app in Hrest as [_ Hrest].
        apply Forall_cons_1 in Hrest as [Hget _]. congruence.
Qed.

(** C5. After a mutation is applied, when its commit fails at the remote
    store (a request is rejected, or answered with a non-success status such
    as an authorization rejection, or the tag answer is unreadable), the
    failure is shown as an error notification and the local document is the
    mutated draft published before the commit: nothing restores the document
    from before the mutation.  The same holds when no token is stored and the
    commit is not attempted. *)
Theorem commit_failure_keeps_draft `{Builtins} `{Yaml} `{Remote}
    (mutator : Mutator) label w data draft :
  appState (ui w) = Some data →
  mutator data = Some draft →
  let w' := (applyStateMutation mutator label w).2 in
  (∀ msg,
     patValue (ui w) ≠ ""%string →
     CommitFailure draft (patValue (ui w)) (store w) msg →
     appState (ui w') = Some draft
     ∧ notification (ui w')
       = Some {| notificationType := error; notificationMessage := msg |}
     ∧ isSaving (ui w') = false)
  ∧ (patValue (ui w) = ""%string →
     appState (ui w') = Some draft
     ∧ notification (ui w')
       = Some {| notificationType := error;
                 notificationMessage :=
                   "Configure o PAT para enviar alterações ao GitHub"%string |}
     ∧ sent w' = sent w).
Proof.
  intros Hstate Hmut w'. subst w'.
  unfold applyStateMutation, cloneState. run_eff. rewrite Hstate. cbn.
  rewrite Hmut. cbn.
  unfold commitToGitHub, ensurePatBeforeCommit, commitToGitHubBody. run_eff. cbn.
  split.
  - intros msg Hpat Hfail. rewrite bool_decide_eq_false_2 by done. cbn.
    destruct Hfail as [msg s1 Hsha | r s1 Hsha Hok | r s1 msg Hsha Hok Hjson
                      | r s1 p enc msg s2 Hsha Hok Hjson Henc Hput
                      | r s1 p enc r2 s2 Hsha Hok Hjson Henc Hput Hok2];
      rewrite Hsha; cbn; rewrite ?Hok; cbn; rewrite ?Hjson; cbn;
      rewrite ?Henc; cbn; rewrite ?Hput; cbn; rewrite ?Hok2; cbn; done.
  - intros Hpat. rewrite bool_decide_eq_true_2 by done. cbn. done.
Qed.

(** ** Transport codec: UTF-8 *)

Ltac zarith := Z.div_mod_to_equations; lia.

(** Decide every comparison of the goal from the bounds in the context. *)
Ltac compare_all :=
  repeat match goal with
  | |- context [?a <=? ?b] =>
      first [ rewrite (proj2 (Z.leb_le a b)) by zarith
            | rewrite (proj2 (Z.leb_gt a b)) by zarith ]
  | |- context [?a <? ?b] =>
      first [ rewrite (proj2 (Z.ltb_lt a b)) by zarith
            | rewrite (proj2 (Z.ltb_ge a b)) by zarith ]
  | |- context [?a =? ?b] =>
      first [ rewrite (proj2 (Z.eqb_eq a b)) by zarith
            | rewrite (proj2 (Z.eqb_neq a b)) by zarith ]
  end.

Ltac decoder_step :=
  repeat (compare_all; cbn [andb orb remaining lowerBound upperBound codePoint app]).

Lemma utf8Decode_encodeOne c rest :
  isScalar c →
  utf8Decode utf8Start (utf8EncodeOne c ++ rest) = c :: utf8Decode utf8Start rest.
Proof.
  intros [Hrange Hsurrogate]. unfold utf8EncodeOne.
  destruct (Z.ltb_spec c 0x80); [|destruct (Z.ltb_spec c 0x800);
    [|destruct (Z.ltb_spec c 0x10000)]];
    cbn [app utf8Decode]; unfold utf8Step, utf8Lead; cbn [remaining utf8Start].
  - compare_all. done.
  - decoder_step. f_equal. zarith.
  - decoder_step.
    destruct (Z.eqb_spec (224 + c / 4096) 224);
      destruct (Z.eqb_spec (224 + c / 4096) 237);
      decoder_step; f_equal; zarith.
  - decoder_step.
    destruct (Z.eqb_spec (240 + c / 262144) 240);
      destruct (Z.eqb_spec (240 + c / 262144) 244);
      decoder_step; f_equal; zarith.
Qed.

Lemma utf8Decode_encode cs :
  Forall isScalar cs → utf8Decode utf8Start (flat_map utf8EncodeOne cs) = cs.
Proof.
  induction 1 as [|c cs Hc _ IH]; [done|].
  cbn [flat_map]. by rewrite utf8Decode_encodeOne, IH.
Qed.

Lemma utf8EncodeOne_bytes c : isScalar c → Forall isByte (utf8EncodeOne c).
Proof.
  intros [Hrange _]. unfold utf8EncodeOne, isByte.
  repeat case_match; repeat constructor; zarith.
Qed.

Lemma textEncode_bytes cs : Forall isScalar cs → Forall isByte (flat_map utf8EncodeOne cs).
Proof.
  induction 1 as [|c cs Hc _ IH]; [constructor|].
  cbn [flat_map]. apply Forall_app. split; [by apply utf8EncodeOne_bytes|done].
Qed.

(** ** Transport codec: UTF-16 *)

Lemma surrogate_cases u :
  isCodeUnit u →
  (isHighSurrogate u = true ∧ 0xD800 ≤ u ≤ 0xDBFF)
  ∨ (isHighSurrogate u = false ∧ isLowSurrogate u = true ∧ 0xDC00 ≤ u ≤ 0xDFFF)
  ∨ (isHighSurrogate u = false ∧ isLowSurrogate u = false
     ∧ ¬ (0xD800 ≤ u ≤ 0xDFFF)).
Proof.
  intros Hu. unfold isHighSurrogate, isLowSurrogate, isCodeUnit in *.
  destruct (Z.leb_spec 0xD800 u), (Z.leb_spec u 0xDBFF), (Z.leb_spec 0xDC00 u),
    (Z.leb_spec u 0xDFFF); cbn; lia.
Qed.

Lemma scalarValues_scalar s : Forall isCodeUnit s → Forall isScalar (scalarValues s).
Proof.
  assert (isScalar 0xFFFD) as Hrepl by (unfold isScalar; lia).
  induction s as [|u s IH]; intros Hs; [constructor|].
  apply Forall_cons_1 in Hs as [Hu Hs]. specialize (IH Hs).
  cbn [scalarValues].
  destruct (surrogate_cases u Hu) as [[-> ?]|[(-> & -> & ?)|(-> & -> & ?)]].
  - destruct s as [|l s]; [by constructor|].
    apply Forall_cons_1 in Hs as [Hl Hs].
    destruct (surrogate_cases l Hl) as [[Hh ?]|[(Hh & Hlow & ?)|(Hh & Hlow & ?)]].
    + unfold isLowSurrogate. compare_all. cbn. by constructor.
    + rewrite Hlow. constructor.
      * unfold isScalar. lia.
      * cbn [scalarValues] in IH. rewrite Hh, Hlow in IH. by inversion IH.
    + rewrite Hlow. by constructor.
  - by constructor.
  - constructor; [|done]. unfold isScalar, isCodeUnit in *. lia.
Qed.

(** Induction on a list two elements at a time. *)
Lemma list_pair_ind {A} (P : list A → Prop) :
  P [] →
  (∀ x, P [x]) →
  (∀ x y l, P l → P (y :: l) → P (x :: y :: l)) →
  ∀ l, P l.
Proof.
  intros Hnil Hone Hstep l. cut (P l ∧ ∀ x, P (x :: l)); [by intros []|].
  induction l as [|y l [IH1 IH2]]; split; auto.
Qed.

Lemma utf16_scalarValues s :
  Forall isCodeUnit s → wellFormed s → flat_map utf16EncodeOne (scalarValues s) = s.
Proof.
  induction s as [|u|u l s IH IHl] using list_pair_ind; intros Hs Hwf; [done|..].
  - apply Forall_cons_1 in Hs as [Hu _]. cbn in *.
    destruct (surrogate_cases u Hu) as [[Hh ?]|[(Hh & Hlow & ?)|(Hh & Hlow & ?)]];
      rewrite Hh in *; [done|destruct Hwf; congruence|].
    rewrite Hlow. cbn. unfold utf16EncodeOne, isCodeUnit in *. by compare_all.
  - apply Forall_cons_1 in Hs as [Hu Hs]. cbn [wellFormed scalarValues] in *.
    destruct (surrogate_cases u Hu) as [[Hh ?]|[(Hh & Hlow & ?)|(Hh & Hlow & ?)]];
      rewrite Hh in *.
    + destruct Hwf as [Hl Hwf]. rewrite Hl. cbn [flat_map].
      apply Forall_cons_1 in Hs as [Hl' Hs]. rewrite IH by done.
      unfold isLowSurrogate in Hl. apply andb_prop in Hl as [?%Z.leb_le ?%Z.leb_le].
      unfold utf16EncodeOne. compare_all. cbn [app]. f_equal; [|f_equal]; zarith.
    + destruct Hwf; congruence.
    + destruct Hwf as [_ Hwf]. rewrite Hlow. cbn [flat_map]. rewrite IHl by done.
      unfold utf16EncodeOne, isCodeUnit in *. by compare_all.
Qed.

Lemma dropBOM_scalarValues s :
  Forall isCodeUnit s → ¬ startsWithBOM s → dropBOM (scalarValues s) = scalarValues s.
Proof.
  destruct s as [|u s]; [done|]. intros [Hu Hs]%Forall_cons_1 Hbom. cbn in Hbom.
  cbn [scalarValues].
  destruct (surrogate_cases u Hu) as [[-> ?]|[(-> & -> & ?)|(-> & -> & ?)]].
  - destruct s as [|l s]; [done|]. destruct (isLowSurrogate l) eqn:Hl; [|done].
    unfold isLowSurrogate in Hl. apply andb_prop in Hl as [?%Z.leb_le ?%Z.leb_le].
    unfold dropBOM. by compare_all.
  - done.
  - unfold dropBOM. by compare_all.
Qed.

(** ** Transport codec: base64 *)

(** Induction on a list three elements at a time. *)
Lemma list_triple_ind {A} (P : list A → Prop) :
  P [] →
  (∀ a, P [a]) →
  (∀ a b, P [a; b]) →
  (∀ a b c l, P l → P (a :: b :: c :: l)) →
  ∀ l, P l.
Proof.
  intros Hnil Hone Htwo Hstep l.
  cut (P l ∧ (∀ a, P (a :: l)) ∧ (∀ a b, P (a :: b :: l))); [by intros (? & _)|].
  induction l as [|c l (IH1 & IH2 & IH3)]; repeat split; auto.
Qed.

Definition isSextet (v : Z) : Prop := 0 ≤ v < 64.

Lemma base64Encode_sextets bs :
  base64Encode bs = (base64Char <$> sextets bs) ++ padding bs.
Proof.
  induction bs as [|a|a b|a b c bs IH] using list_triple_ind; [done..|].
  cbn [base64Encode sextets padding fmap list_fmap app]. by rewrite IH.
Qed.

Lemma sextets_range bs : Forall isByte bs → Forall isSextet (sextets bs).
Proof.
  unfold isByte, isSextet.
  induction bs as [|a|a b|a b c bs IH] using list_triple_ind; intros Hbs;
    cbn [sextets]; repeat (apply Forall_cons_1 in Hbs as [? Hbs]);
    repeat (constructor; [zarith|]); auto.
Qed.

Lemma base64Bytes_sextets bs : Forall isByte bs → base64Bytes (sextets bs) = bs.
Proof.
  unfold isByte.
  induction bs as [|a|a b|a b c bs IH] using list_triple_ind; intros Hbs;
    cbn [sextets base64Bytes]; repeat (apply Forall_cons_1 in Hbs as [? Hbs]).
  - done.
  - f_equal. zarith.
  - f_equal; [|f_equal]; zarith.
  - rewrite IH by done. f_equal; [|f_equal; [|f_equal]]; zarith.
Qed.

Lemma sextets_length bs :
  ∃ k, Z.of_nat (length (sextets bs)) + Z.of_nat (length (padding bs)) = 4 * k
       ∧ (padding bs = [] ∨ padding bs = [61] ∨ padding bs = [61; 61]).
Proof.
  induction bs as [|a|a b|a b c bs (k & Hk & Hpad)] using list_triple_ind.
  - exists 0. auto.
  - exists 1. auto.
  - exists 1. auto.
  - exists (k + 1). cbn [sextets padding length]. split; [lia|done].
Qed.

Lemma base64Char_value v :
  isSextet v →
  base64Value (base64Char v) = Some v
  ∧ base64Char v ≠ 61
  ∧ isAsciiWhitespace (base64Char v) = false.
Proof.
  unfold isSextet, base64Value, base64Char, isAsciiWhitespace. intros Hv.
  destruct (Z.ltb_spec v 26); [|destruct (Z.ltb_spec v 52);
    [|destruct (Z.ltb_spec v 62); [|destruct (Z.eqb_spec v 62)]]];
    compare_all; cbn [andb orb]; (split; [f_equal; lia|split; [lia|done]]).
Qed.

Lemma filter_all {A} (f : A → bool) l :
  Forall (λ x, f x = true) l → List.filter f l = l.
Proof. induction 1 as [|x l Hx _ IH]; [done|]. cbn. by rewrite Hx, IH. Qed.

Lemma stripPadding_encoded chars pad :
  Forall (λ c, c ≠ 61) chars →
  pad = [] ∨ pad = [61] ∨ pad = [61; 61] →
  Z.of_nat (length (chars ++ pad)) mod 4 = 0 →
  stripPadding (chars ++ pad) = chars.
Proof.
  intros Hchars Hpad Hlen. unfold stripPadding. rewrite Hlen. cbn [Z.eqb].
  apply Forall_rev in Hchars.
  destruct Hpad as [->|[->| ->]].
  - rewrite app_nil_r. destruct (rev chars) as [|c1 r]; [done|].
    apply Forall_cons_1 in Hchars as [Hc1 _]. by compare_all.
  - rewrite rev_app_distr. cbn [rev app]. compare_all.
    rewrite <- (rev_involutive chars) at 2.
    destruct (rev chars) as [|c2 r']; [done|].
    apply Forall_cons_1 in Hchars as [Hc2 _]. by compare_all.
  - rewrite rev_app_distr. cbn [rev app]. compare_all. by rewrite rev_involutive.
Qed.

Lemma atob_base64Encode bs : Forall isByte bs → atob (base64Encode bs) = Some bs.
Proof.
  intros Hbs. unfold atob. rewrite base64Encode_sextets.
  pose proof (sextets_range bs Hbs) as Hrange.
  destruct (sextets_length bs) as (k & Hk & Hpad).
  assert (Forall (λ c, c ≠ 61) (base64Char <$> sextets bs)) as Hchars.
  { apply Forall_fmap. eapply List.Forall_impl; [|exact Hrange]. intros v Hv. by apply base64Char_value. }
  rewrite filter_all.
  2:{ apply Forall_app. split.
      - apply Forall_fmap. eapply List.Forall_impl; [|exact Hrange]. intros v Hv. cbn.
        by destruct (base64Char_value v Hv) as (_ & _ & ->).
      - destruct Hpad as [->|[->| ->]]; by repeat constructor. }
  rewrite stripPadding_encoded; [|done..|].
  2:{ rewrite length_app, length_fmap. zarith. }
  rewrite length_fmap.
  assert (Z.of_nat (length (sextets bs)) mod 4 ≠ 1) as Hmod.
  { destruct Hpad as [Hp|[Hp|Hp]]; rewrite Hp in Hk; cbn [length] in Hk; zarith. }
  apply Z.eqb_neq in Hmod. rewrite Hmod.
  rewrite mapM_fmap_Forall_Some.
  - cbn. by rewrite base64Bytes_sextets.
  - eapply List.Forall_impl; [|exact Hrange]. intros v Hv. by apply base64Char_value.
Qed.

(** ** Transport codec: round trip *)

Lemma foldl_snoc {A} (acc l : list A) :
  foldl (λ binary value, binary ++ [value]) acc l = acc ++ l.
Proof.
  revert acc. induction l as [|x l IH]; intros acc; cbn.
  - by rewrite app_nil_r.
  - by rewrite IH, <- app_assoc.
Qed.

Lemma btoa_bytes bs : Forall isByte bs → btoa bs = Some (base64Encode bs).
Proof.
  intros Hbs. unfold btoa.
  assert (forallb (λ u, (0 <=? u) && (u <=? 255)) bs = true) as ->; [|done].
  apply forallb_forall. intros b Hb.
  rewrite List.Forall_forall in Hbs. specialize (Hbs b Hb). unfold isByte in Hbs.
  by compare_all.
Qed.

Lemma bytes_mod_256 bs : Forall isByte bs → (λ char, char mod 256) <$> bs = bs.
Proof.
  induction 1 as [|b bs Hb _ IH]; [done|]. cbn. rewrite IH. f_equal.
  unfold isByte in Hb. zarith.
Qed.

(** What the codec returns on any string. *)
Lemma codec_round_trip s :
  Forall isCodeUnit s →
  ∃ encoded, encodeBase64 s = Some encoded
             ∧ decodeBase64 encoded = Some (roundTripped s).
Proof.
  intros Hs. pose proof (scalarValues_scalar s Hs) as Hscalar.
  pose proof (textEncode_bytes _ Hscalar) as Hbytes.
  exists (base64Encode (textEncode s)). split.
  - unfold encodeBase64. rewrite foldl_snoc. cbn [app]. by apply btoa_bytes.
  - unfold decodeBase64. rewrite atob_base64Encode by done. cbn.
    rewrite bytes_mod_256 by done. unfold textDecode, textEncode, roundTripped.
    by rewrite utf8Decode_encode.
Qed.

(** C9 (as amended). A string without unpaired surrogates that does not
    begin with U+FEFF is encoded by [encodeBase64] and comes back unchanged
    from [decodeBase64]. *)
Theorem codec_round_trip_well_formed s :
  Forall isCodeUnit s →
  wellFormed s →
  ¬ startsWithBOM s →
  ∃ encoded, encodeBase64 s = Some encoded ∧ decodeBase64 encoded = Some s.
Proof.
  intros Hs Hwf Hbom. destruct (codec_round_trip s Hs) as (encoded & Henc & Hdec).
  exists encoded. split; [done|]. rewrite Hdec. unfold roundTripped.
  by rewrite dropBOM_scalarValues, utf16_scalarValues.
Qed.

(** C9 (as stated) fails: the text U+FEFF "a" comes back as "a", and the
    unpaired surrogate U+D800 comes back as U+FFFD. *)
Lemma codec_round_trip_loses_bom_and_surrogates :
  (Forall isCodeUnit [0xFEFF; 97]
   ∧ encodeBase64 [0xFEFF; 97] = Some [55; 55; 117; 47; 89; 81; 61; 61]
   ∧ decodeBase64 [55; 55; 117; 47; 89; 81; 61; 61] = Some [97]
   ∧ decodeBase64 [55; 55; 117; 47; 89; 81; 61; 61] ≠ Some [0xFEFF; 97])
  ∧ (Forall isCodeUnit [0xD800]
     ∧ encodeBase64 [0xD800] = Some [55; 55; 43; 57]
     ∧ decodeBase64 [55; 55; 43; 57] = Some [0xFFFD]
     ∧ decodeBase64 [55; 55; 43; 57] ≠ Some [0xD800]).
Proof.
  unfold isCodeUnit.
  repeat split; try (by vm_compute); repeat constructor; try lia.
Qed.

(** ** The platform instance reads the keys it writes *)

Lemma digitValue_char d : (d < 10)%N → digitValue (pretty_N_char d) = Some (Z.of_N d).
Proof.
  intros Hd.
  assert (d = 0 ∨ d = 1 ∨ d = 2 ∨ d = 3 ∨ d = 4 ∨ d = 5 ∨ d = 6 ∨ d = 7 ∨ d = 8 ∨ d = 9)%N
    as Hcases by lia.
  repeat (destruct Hcases as [->|Hcases]; [reflexivity|]). by subst d.
Qed.

Lemma parseDigits_pretty_go x s :
  ∃ k, ∀ acc, parseDigits (pretty_N_go x s) acc = parseDigits s (acc * k + Z.of_N x).
Proof.
  revert s. induction (N.lt_wf_0 x) as [x _ IH]; intros s.
  destruct (decide (x = 0)%N) as [->|Hx].
  - exists 1. intros acc. rewrite pretty_N_go_0. f_equal. lia.
  - rewrite pretty_N_go_step by lia.
    destruct (IH (x `div` 10)%N ltac:(apply N.div_lt; lia)
                (String (pretty_N_char (x `mod` 10)) s)) as [k Hk].
    exists (10 * k). intros acc. rewrite Hk. cbn [parseDigits].
    rewrite digitValue_char by (apply N.mod_lt; lia). cbn.
    f_equal. rewrite N2Z.inj_div, N2Z.inj_mod. zarith.
Qed.

Lemma digits_read_indices : @NumberReadsIndices digitsBuiltins.
Proof.
  intros i Hi. destruct i as [|p|p]; try lia.
  unfold indexKey, pretty, pretty_Z, pretty, pretty_positive, pretty, pretty_N.
  rewrite decide_False by done. cbn [Number digitsBuiltins]. unfold digitsNumber.
  destruct (parseDigits_pretty_go (N.pos p) "") as [k ->]. done.
Qed.

(** ** Instances of the properties on the sample document *)

Lemma sampleHouses_in_range : map_Forall (λ _ house, statusInRange house) sampleHouses.
Proof.
  unfold sampleHouses.
  apply map_Forall_insert_2; [exists 1; split; [done|lia]|].
  apply map_Forall_insert_2; [exists 3; split; [done|lia]|].
  apply map_Forall_empty.
Qed.

Lemma mutators_keep_summary_witness :
  ∃ draft' block,
    @cycleHouseStatusMutator "01" "1" "7" "2024-06-01T09:30:00.000Z" sampleData = Some draft'
    ∧ blockAt "01" "1" draft' = Some block
    ∧ summary block = summaryOf (houses block).
Proof.
  destruct (cycleHouseStatusMutator "01" "1" "7" "2024-06-01T09:30:00.000Z" sampleData)
    as [draft'|] eqn:Hrun; [|by vm_compute in Hrun].
  destruct (proj1 (@mutators_keep_summary digitsBuiltins sampleYaml scriptedRemote)
              _ _ _ _ _ _ Hrun) as (block & Hat & Hsum).
  by exists draft', block.
Defined.

Lemma resequencing_range_witness :
  ∃ draft' block',
    @applyChalkSequencingMutator digitsBuiltins "01" "1" 3 sampleData = Some draft'
    ∧ blockAt "01" "1" draft' = Some block'
    ∧ (∀ i, 1 ≤ i ≤ 3 →
         ∃ house, houses block' !! indexKey i = Some house
                  ∧ chalkNumber house = Some (indexKey i))
    ∧ houses block' !! "7"%string = None
    ∧ summary block' = summaryOf (houses block').
Proof.
  destruct (proj1 (@resequencing_range digitsBuiltins digits_read_indices)
              "01"%string "1"%string 3 sampleData sampleBlock)
    as (draft' & block' & Hrun & Hat & Hin & _ & Hout & Hsum); [lia|reflexivity|].
  exists draft', block'. repeat split; try done. apply (Hout 7). lia.
Defined.

Lemma hasCapability_rank_monotone_witness :
  role_le Admin SuperAdmin ∧ hasCapability SuperAdmin Admin = true.
Proof.
  assert (role_le Admin SuperAdmin) as Hle by (apply rtc_once; constructor).
  split; [done|].
  destruct hasCapability_rank_monotone as (_ & _ & Hmono).
  apply (Hmono Admin SuperAdmin Admin Hle). reflexivity.
Defined.

Lemma cycle_four_times_and_lastVisit_witness :
  ∃ d1 d2 d3 d4 house1 house2 house3 house4,
    cycleHouseStatusMutator "01" "1" "7" "t1" sampleData = Some d1
    ∧ cycleHouseStatusMutator "01" "1" "7" "t2" d1 = Some d2
    ∧ cycleHouseStatusMutator "01" "1" "7" "t3" d2 = Some d3
    ∧ cycleHouseStatusMutator "01" "1" "7" "t4" d3 = Some d4
    ∧ houseAt "01" "1" "7" d1 = Some house1
    ∧ houseAt "01" "1" "7" d2 = Some house2
    ∧ houseAt "01" "1" "7" d3 = Some house3
    ∧ houseAt "01" "1" "7" d4 = Some house4
    ∧ status house1 = Some 4
    ∧ status house2 = Some 1
    ∧ status house3 = Some 2
    ∧ status house4 = Some 3
    ∧ lastVisit house4 = Some (Some "t4"%string).
Proof.
  destruct (cycle_four_times_and_lastVisit "01" "1" "7") as [_ Hfour].
  refine (Hfour sampleData sampleHouse 3 "t1"%string "t2"%string "t3"%string
            "t4"%string _ _ _).
  - reflexivity.
  - reflexivity.
  - lia.
Defined.

Lemma recalcBlockSummary_idempotent_sum_witness :
  verde (summary (recalcBlockSummary sampleBlock))
  + amarelo (summary (recalcBlockSummary sampleBlock))
  + laranja (summary (recalcBlockSummary sampleBlock))
  + vermelho (summary (recalcBlockSummary sampleBlock))
  = total (summary (recalcBlockSummary sampleBlock))
  ∧ total (summary (recalcBlockSummary sampleBlock)) = Z.of_nat (size (houses sampleBlock)).
Proof.
  destruct recalcBlockSummary_idempotent_sum as (_ & _ & _ & Hsum).
  apply (Hsum sampleBlock sampleHouses_in_range).
Defined.

Lemma resequencing_frame_witness :
  ∃ draft' block' house',
    @applyChalkSequencingMutator digitsBuiltins "01" "1" 9 sampleData = Some draft'
    ∧ blockAt "01" "1" draft' = Some block'
    ∧ houses block' !! "7"%string = Some house'
    ∧ status house' = Some 3
    ∧ officialNumber house' = Some "12A"%string
    ∧ lastVisit house' = Some (Some "2024-05-01T10:00:00.000Z"%string)
    ∧ houses block' !! "4"%string = Some (newHouse "4").
Proof.
  destruct (@resequencing_frame digitsBuiltins "01" "1" 9 sampleData sampleBlock
              digits_read_indices eq_refl)
    as (draft' & block' & Hrun & Hat & Hold & Hnew).
  destruct (Hold 7 _ ltac:(lia) eq_refl) as (house' & Hh & Hs & Ho & Hn & Hl & Hc).
  exists draft', block', house'. repeat split; try done.
  apply (Hnew 4); [lia|reflexivity].
Defined.

Lemma codec_round_trip_well_formed_witness :
  ∃ encoded, encodeBase64 [97; 233; 0xD83D; 0xDE00] = Some encoded
             ∧ decodeBase64 encoded = Some [97; 233; 0xD83D; 0xDE00].
Proof.
  apply codec_round_trip_well_formed.
  - unfold isCodeUnit. repeat constructor; lia.
  - cbn. done.
  - cbn. lia.
Defined.

Lemma decode_failure_keeps_document_witness :
  appState (ui (@loadRemoteState digitsBuiltins sampleYaml scriptedRemote polling
                  (sampleWorld [Responds malformedAnswer])).2)
  = Some sampleData
  ∧ remoteSha (ui (@loadRemoteState digitsBuiltins sampleYaml scriptedRemote polling
                     (sampleWorld [Responds malformedAnswer])).2)
    = "0a1b"%string.
Proof.
  destruct (@decode_failure_keeps_document digitsBuiltins sampleYaml scriptedRemote polling
              (sampleWorld [Responds malformedAnswer])) as [Hdecode _].
  destruct (Hdecode malformedAnswer
              {| payloadContent := Some [89; 81; 61; 61];
                 payloadSha := Some "9f2c"%string |}
              [] eq_refl eq_refl eq_refl) as (Hstate & Htag & _).
  - unfold decodeThrows. vm_compute. by eexists.
  - split; [exact Hstate|exact Htag].
Defined.

Lemma commit_uses_fresh_tag_witness :
  remoteSha sampleComponent = "0a1b"%string
  ∧ ∃ write rest,
      sent (@commitToGitHub digitsBuiltins sampleYaml scriptedRemote sampleData
              "CRUD de quadra"
              (sampleWorld [Responds tagAnswer; Responds conflictAnswer])).2
      = shaRequest "ghp_token" :: write :: rest
      ∧ method write = PUT
      ∧ sha <$> body write = Some (Some "tag-1"%string).
Proof.
  split; [reflexivity|].
  destruct (@commit_uses_fresh_tag digitsBuiltins sampleYaml scriptedRemote) as [Htag _].
  destruct (Htag sampleData "CRUD de quadra"%string
              (sampleWorld [Responds tagAnswer; Responds conflictAnswer])
              tagAnswer [Responds conflictAnswer]
              {| payloadContent := None; payloadSha := Some "tag-1"%string |} [])
    as (write & rest & Hsent & _ & Hput & Hsha & _).
  - vm_compute. discriminate.
  - reflexivity.
  - reflexivity.
  - reflexivity.
  - reflexivity.
  - exists write, rest. split; [exact Hsent|]. split; [exact Hput|exact Hsha].
Defined.

Lemma commit_failure_keeps_draft_witness :
  ∃ draft,
    cycleHouseStatusMutator "01" "1" "7" "2024-06-01T09:30:00.000Z" sampleData = Some draft
    ∧ appState
        (ui (@applyStateMutation digitsBuiltins sampleYaml scriptedRemote
               (cycleHouseStatusMutator "01" "1" "7" "2024-06-01T09:30:00.000Z")
               "Atualização de status da casa"
               (sampleWorld [Responds unauthorizedAnswer])).2)
      = Some draft.
Proof.
  destruct (cycleHouseStatusMutator "01" "1" "7" "2024-06-01T09:30:00.000Z" sampleData)
    as [draft|] eqn:Hrun; [|by vm_compute in Hrun].
  exists draft. split; [done|].
  destruct (@commit_failure_keeps_draft digitsBuiltins sampleYaml scriptedRemote
              (cycleHouseStatusMutator "01" "1" "7" "2024-06-01T09:30:00.000Z")
              "Atualização de status da casa"
              (sampleWorld [Responds unauthorizedAnswer])
              sampleData draft eq_refl Hrun) as [Hfail _].
  refine (proj1 (Hfail _ _ (@ShaNotOk sampleYaml scriptedRemote draft "ghp_token"
                              [Responds unauthorizedAnswer] unauthorizedAnswer []
                              eq_refl eq_refl))).
  vm_compute. discriminate.
Defined.

(** * Part III: further properties of the component *)

(** ** Summary and status cycle *)

Lemma countOther_insert key house (hs : gmap string HouseRecord) :
  hs !! key = None →
  countOther (<[key := house]> hs)
  = if bool_decide (indexOf statusCycle (status house) = -1)
    then S (countOther hs) else countOther hs.
Proof.
  intros Hfresh. unfold countOther. rewrite map_filter_insert. simpl.
  case_decide as Hs.
  - rewrite bool_decide_eq_true_2 by done.
    apply map_size_insert_None. by rewrite map_lookup_filter, Hfresh.
  - rewrite bool_decide_eq_false_2 by done. by rewrite delete_id.
Qed.


(** X1. After [recalcBlockSummary] the total is the sum of the four status
    counters and of the number of houses whose status is none of 1..4 (an
    absent status included): such houses are counted in the total only. *)
Theorem recalcBlockSummary_partition block :
  let s := summary (recalcBlockSummary block) in
  total s
  = verde s + amarelo s + laranja s + vermelho s + Z.of_nat (countOther (houses block)).
Proof.
  intros s. subst s. rewrite recalcBlockSummary_summary. cbn.
  induction (houses block) as [|key house hs Hfresh IH] using map_ind.
  - unfold countOther. by rewrite !countStatus_empty, map_filter_empty, map_size_empty.
  - rewrite !countStatus_insert, countOther_insert, map_size_insert_None by done.
    unfold statusIs.
    destruct (indexOf_cases (status house))
      as [[-> Hi]|[[-> Hi]|[[-> Hi]|[[-> Hi]|(Hi & ? & ? & ? & ?)]]]];
      rewrite Hi; repeat case_bool_decide; simplify_eq; lia.
Qed.


(** X2. Cycling a house always leaves it with a status among 1..4: the
    statuses 1, 2, 3 become 2, 3, 4, and 4 as well as every status outside
    the cycle (an absent one included) becomes 1. *)
Theorem cycle_status_in_range territoryId blockId houseId now draft draft' :
  cycleHouseStatusMutator territoryId blockId houseId now draft = Some draft' →
  ∃ house house',
    houseAt territoryId blockId houseId draft = Some house
    ∧ houseAt territoryId blockId houseId draft' = Some house'
    ∧ status house'
      = Some (match status house with
              | Some 1 => 2
              | Some 2 => 3
              | Some 3 => 4
              | _ => 1
              end)
    ∧ statusInRange house'.
Proof.
  intros (house & Hat & Hat')%cycle_sets_lastVisit.
  exists house, (cycled now house). repeat split; try done.
  - apply nextStatus_table.
  - unfold statusInRange. cbn. rewrite nextStatus_table.
    eexists. split; [done|]. repeat case_match; lia.
Qed.

Lemma cycle_status_in_range_witness :
  ∃ draft' house',
    cycleHouseStatusMutator "01" "1" "7" "t" sampleData = Some draft'
    ∧ houseAt "01" "1" "7" draft' = Some house'
    ∧ status house' = Some 4.
Proof.
  destruct (cycleHouseStatusMutator "01" "1" "7" "t" sampleData)
    as [draft'|] eqn:Hrun; [|by vm_compute in Hrun].
  destruct (cycle_status_in_range _ _ _ _ _ _ Hrun)
    as (house & house' & Hat & Hat' & Hstatus & _).
  exists draft', house'. repeat split; try done.
  assert (houseAt "01" "1" "7" sampleData = Some sampleHouse) as Hsample by reflexivity.
  assert (house = sampleHouse) as -> by congruence.
  exact Hstatus.
Defined.

(** ** What the block mutators leave alone *)

Lemma onBlock_frame territoryId blockId body draft draft' :
  onBlock territoryId blockId body draft = Some draft' →
  appConfig draft' = appConfig draft
  ∧ (∀ t, territoryHeader <$> territories draft' !! t
          = territoryHeader <$> territories draft !! t)
  ∧ (∀ t b, (t, b) ≠ (territoryId, blockId) → blockAt t b draft' = blockAt t b draft).
Proof.
  unfold onBlock. intros Hrun.
  destruct (territories draft !! territoryId) as [territory|] eqn:Ht; [|done].
  cbn in Hrun. destruct (blocks territory !! blockId) as [block|] eqn:Hb; [|done].
  cbn in Hrun. destruct (body block) as [block'|]; [|done].
  cbn in Hrun. injection Hrun as <-. split; [done|]. split.
  - intros t. cbn. destruct (decide (t = territoryId)) as [->|Hne].
    + by rewrite lookup_insert_eq, Ht.
    + by rewrite lookup_insert_ne.
  - intros t b Hne. unfold blockAt. cbn.
    destruct (decide (t = territoryId)) as [->|Hnet].
    + rewrite lookup_insert_eq, Ht. cbn. rewrite lookup_insert_ne; [done|congruence].
    + by rewrite lookup_insert_ne.
Qed.

(** X3. Cycling a house, updating a house and resequencing a block change
    nothing outside the block they are given: the configuration, the name,
    status and last use of every territory, and every other block of every
    territory are as before. *)
Theorem block_mutators_frame `{Builtins} draft draft' territoryId blockId :
  (∃ houseId now,
     cycleHouseStatusMutator territoryId blockId houseId now draft = Some draft')
  ∨ (∃ houseId updates,
     updateHouseDataMutator territoryId blockId houseId updates draft = Some draft')
  ∨ (∃ max, applyChalkSequencingMutator territoryId blockId max draft = Some draft') →
  appConfig draft' = appConfig draft
  ∧ (∀ t, territoryHeader <$> territories draft' !! t
          = territoryHeader <$> territories draft !! t)
  ∧ (∀ t b, (t, b) ≠ (territoryId, blockId) → blockAt t b draft' = blockAt t b draft).
Proof.
  intros [(? & ? & Hrun)|[(? & ? & Hrun)|(? & Hrun)]]; by eapply onBlock_frame.
Qed.

Lemma block_mutators_frame_witness :
  ∃ draft',
    cycleHouseStatusMutator "01" "1" "7" "t" sampleData = Some draft'
    ∧ appConfig draft' = appConfig sampleData
    ∧ blockAt "01" "2" draft' = blockAt "01" "2" sampleData.
Proof.
  destruct (cycleHouseStatusMutator "01" "1" "7" "t" sampleData)
    as [draft'|] eqn:Hrun; [|by vm_compute in Hrun].
  destruct (@block_mutators_frame digitsBuiltins sampleData draft' "01" "1")
    as (Hconfig & _ & Hblocks).
  { left. by exists "7"%string, "t"%string. }
  exists draft'. repeat split; try done. apply Hblocks. congruence.
Defined.

(** X4. Cycling a house changes, inside its block, only the status and the
    last visit of that house: its chalk number, official number and notes,
    every other house of the block and the image of the block are as
    before. *)
Theorem cycle_frame territoryId blockId houseId now draft draft' :
  cycleHouseStatusMutator territoryId blockId houseId now draft = Some draft' →
  ∃ block block' house house',
    blockAt territoryId blockId draft = Some block
    ∧ blockAt territoryId blockId draft' = Some block'
    ∧ houses block !! houseId = Some house
    ∧ houses block' !! houseId = Some house'
    ∧ chalkNumber house' = chalkNumber house
    ∧ officialNumber house' = officialNumber house
    ∧ notes house' = notes house
    ∧ imageUrl block' = imageUrl block
    ∧ (∀ other, other ≠ houseId → houses block' !! other = houses block !! other).
Proof.
  intros (block & block' & Hat & Hbody & Hat')%blockAt_onBlock.
  unfold cycleHouse in Hbody.
  destruct (houses block !! houseId) as [house|] eqn:Hhouse; [|done].
  cbn in Hbody. injection Hbody as <-.
  eexists block, _, house, (cycled now house).
  split; [done|]. split; [exact Hat'|]. split; [done|]. cbn.
  split; [by rewrite lookup_insert_eq|]. repeat split.
  intros other Hne. by rewrite lookup_insert_ne.
Qed.

Lemma cycle_frame_witness :
  ∃ draft' block',
    cycleHouseStatusMutator "01" "1" "7" "t" sampleData = Some draft'
    ∧ blockAt "01" "1" draft' = Some block'
    ∧ houses block' !! "1"%string = Some (newHouse "1").
Proof.
  destruct (cycleHouseStatusMutator "01" "1" "7" "t" sampleData)
    as [draft'|] eqn:Hrun; [|by vm_compute in Hrun].
  destruct (cycle_frame _ _ _ _ _ _ Hrun)
    as (block & block' & house & house' & Hat & Hat' & _ & _ & _ & _ & _ & _ & Hother).
  exists draft', block'. repeat split; try done.
  rewrite Hother by done.
  assert (blockAt "01" "1" sampleData = Some sampleBlock) as Hsample by reflexivity.
  assert (block = sampleBlock) as -> by congruence.
  reflexivity.
Defined.

(** ** Updating a house *)

Lemma summaryOf_same_status key house house' (hs : gmap string HouseRecord) :
  hs !! key = Some house →
  status house' = status house →
  summaryOf (<[key := house']> hs) = summaryOf hs.
Proof.
  intros Hlook Hstatus.
  rewrite <- (insert_id hs key house Hlook) at 2.
  rewrite <- (insert_delete_eq hs key house'), <- (insert_delete_eq hs key house).
  rewrite !summaryOf_insert by apply lookup_delete_eq.
  unfold tally, statusIs. by rewrite Hstatus.
Qed.

(** X5. Saving the edit form of a house that is in the block replaces its
    official number and notes and nothing else: status, chalk number and last
    visit of the house, the other houses and the image are as before, and the
    block's summary is the one derived from the houses before the update. *)
Theorem updateHouseData_form_frame territoryId blockId houseId official note
    draft draft' block house :
  blockAt territoryId blockId draft = Some block →
  houses block !! houseId = Some house →
  updateHouseDataMutator territoryId blockId houseId (formUpdates official note) draft
  = Some draft' →
  ∃ block',
    blockAt territoryId blockId draft' = Some block'
    ∧ houses block' !! houseId
      = Some {| status := status house; chalkNumber := chalkNumber house;
                officialNumber := Some official; notes := Some note;
                lastVisit := lastVisit house |}
    ∧ (∀ other, other ≠ houseId → houses block' !! other = houses block !! other)
    ∧ imageUrl block' = imageUrl block
    ∧ summary block' = summaryOf (houses block).
Proof.
  intros Hat Hhouse (block0 & block' & Hat0 & Hbody & Hat')%blockAt_onBlock.
  assert (block0 = block) as -> by congruence.
  unfold updateHouse in Hbody. rewrite Hhouse in Hbody. cbn in Hbody.
  injection Hbody as <-. eexists. split; [exact Hat'|]. cbn.
  split; [by rewrite lookup_insert_eq|].
  split; [intros other Hne; by rewrite lookup_insert_ne|].
  split; [done|].
  rewrite tally_fold. by apply summaryOf_same_status with house.
Qed.

Lemma updateHouseData_form_frame_witness :
  ∃ draft' block',
    updateHouseDataMutator "01" "1" "7" (formUpdates "14" "portão azul") sampleData
    = Some draft'
    ∧ blockAt "01" "1" draft' = Some block'
    ∧ summary block' = summaryOf sampleHouses.
Proof.
  destruct (updateHouseDataMutator "01" "1" "7" (formUpdates "14" "portão azul") sampleData)
    as [draft'|] eqn:Hrun; [|by vm_compute in Hrun].
  destruct (updateHouseData_form_frame "01" "1" "7" "14" "portão azul" sampleData draft'
              sampleBlock sampleHouse eq_refl eq_refl Hrun)
    as (block' & Hat & _ & _ & _ & Hsum).
  by exists draft', block'.
Defined.

(** X6. Updating a house that is not in the block adds an entry made of the
    submitted fields only; with the fields of the edit form the entry has no
    status, so the total grows by one and no status counter changes. *)
Theorem updateHouseData_missing_house territoryId blockId houseId updates
    draft draft' block :
  blockAt territoryId blockId draft = Some block →
  houses block !! houseId = None →
  updateHouseDataMutator territoryId blockId houseId updates draft = Some draft' →
  ∃ block',
    blockAt territoryId blockId draft' = Some block'
    ∧ houses block' !! houseId = Some updates
    ∧ total (summary block') = Z.of_nat (size (houses block)) + 1
    ∧ (status updates = None →
       verde (summary block') = Z.of_nat (countStatus 1 (houses block))
       ∧ amarelo (summary block') = Z.of_nat (countStatus 2 (houses block))
       ∧ laranja (summary block') = Z.of_nat (countStatus 3 (houses block))
       ∧ vermelho (summary block') = Z.of_nat (countStatus 4 (houses block))).
Proof.
  intros Hat Hhouse (block0 & block' & Hat0 & Hbody & Hat')%blockAt_onBlock.
  assert (block0 = block) as -> by congruence.
  unfold updateHouse in Hbody. rewrite Hhouse in Hbody. cbn in Hbody.
  assert (spread emptyObject updates = updates) as Hspread
    by (by destruct updates as [[?|] [?|] [?|] [?|] [?|]]).
  rewrite Hspread in Hbody.
  injection Hbody as <-. eexists. split; [exact Hat'|]. cbn.
  split; [by rewrite lookup_insert_eq|].
  rewrite tally_fold, summaryOf_insert by done. cbn.
  split; [lia|]. intros Hnone. unfold statusIs. rewrite Hnone.
  by rewrite !bool_decide_eq_false_2 by done.
Qed.

Lemma updateHouseData_missing_house_witness :
  ∃ draft' block',
    updateHouseDataMutator "01" "1" "9" (formUpdates "14" "") sampleData = Some draft'
    ∧ blockAt "01" "1" draft' = Some block'
    ∧ houses block' !! "9"%string = Some (formUpdates "14" "")
    ∧ total (summary block') = 3.
Proof.
  destruct (updateHouseDataMutator "01" "1" "9" (formUpdates "14" "") sampleData)
    as [draft'|] eqn:Hrun; [|by vm_compute in Hrun].
  destruct (updateHouseData_missing_house "01" "1" "9" (formUpdates "14" "") sampleData
              draft' sampleBlock eq_refl eq_refl Hrun)
    as (block' & Hat & Hhouse & Htotal & _).
  by exists draft', block'.
Defined.

(** ** Resequencing: every key, repetition, shrinking and growing *)

Lemma sequence_lookup l hs key :
  foldl sequenceHouse hs l !! key
  = if decide (key ∈ indexKey <$> l)
    then Some (setChalkNumber key (default (newHouse key) (hs !! key)))
    else hs !! key.
Proof.
  case_decide as Hin.
  - apply list_elem_of_fmap in Hin as (i & -> & Hi). by apply sequence_lookup_index.
  - apply sequence_lookup_other. intros i Hi <-. apply Hin.
    by apply list_elem_of_fmap_2.
Qed.

Lemma sequenceBlock_lookup `{Builtins} max block key :
  ∃ block', sequenceBlock max block = Some block'
    ∧ summary block' = summaryOf (houses block')
    ∧ imageUrl block' = imageUrl block
    ∧ houses block' !! key
      = if exceeds (Number key) max then None
        else if decide (key ∈ indexKey <$> indices max)
             then Some (setChalkNumber key (default (newHouse key) (houses block !! key)))
             else houses block !! key.
Proof.
  eexists. split; [done|]. split; [apply recalcBlockSummary_consistent|].
  split; [done|]. cbn. by rewrite pruneAbove_lookup, sequence_lookup.
Qed.

Lemma sequenceBlock_houses_at `{Builtins} max block block' key :
  sequenceBlock max block = Some block' →
  imageUrl block' = imageUrl block
  ∧ houses block' !! key
    = if exceeds (Number key) max then None
      else if decide (key ∈ indexKey <$> indices max)
           then Some (setChalkNumber key (default (newHouse key) (houses block !! key)))
           else houses block !! key.
Proof.
  intros Hrun. destruct (sequenceBlock_lookup max block key) as (b & Hb & _ & Himg & Hkey).
  by assert (b = block') as -> by congruence.
Qed.

Lemma sequenceBlock_ext `{Builtins} max max' block block' result result' :
  sequenceBlock max block = Some result →
  sequenceBlock max' block' = Some result' →
  imageUrl block = imageUrl block' →
  (∀ key, houses result !! key = houses result' !! key) →
  result = result'.
Proof.
  intros Hr Hr' Himage Hhouses.
  destruct (sequenceBlock_lookup max block EmptyString) as (b & Hb & Hsum & Himg & _).
  destruct (sequenceBlock_lookup max' block' EmptyString)
    as (b' & Hb' & Hsum' & Himg' & _).
  assert (b = result) as -> by congruence. assert (b' = result') as -> by congruence.
  apply map_eq in Hhouses.
  destruct result as [s i h], result' as [s' i' h']. cbn in *. congruence.
Qed.

Lemma exceeds_mono num max max' :
  max' ≤ max → exceeds num max = true → exceeds num max' = true.
Proof.
  intros Hle. destruct num as [| |q]; [done..|]. unfold exceeds.
  intros Hq%bool_decide_eq_true_1. apply bool_decide_eq_true_2.
  eapply Qcle_lt_trans; [|exact Hq]. by rewrite <- Z2Qc_inj_le.
Qed.

Lemma onBlock_result territoryId blockId body draft draft' :
  onBlock territoryId blockId body draft = Some draft' →
  ∃ territory block block',
    territories draft !! territoryId = Some territory
    ∧ blocks territory !! blockId = Some block
    ∧ body block = Some block'
    ∧ draft' = setTerritories
                 (<[territoryId := setBlocks (<[blockId := block']> (blocks territory))
                                     territory]> (territories draft)) draft.
Proof.
  unfold onBlock. intros Hrun.
  destruct (territories draft !! territoryId) as [territory|] eqn:Ht; [|done].
  cbn in Hrun. destruct (blocks territory !! blockId) as [block|] eqn:Hb; [|done].
  cbn in Hrun. destruct (body block) as [block'|] eqn:Hbody; [|done].
  cbn in Hrun. injection Hrun as <-. by exists territory, block, block'.
Qed.

Lemma onBlock_again territoryId blockId body body' draft draft' :
  onBlock territoryId blockId body draft = Some draft' →
  ∃ block block',
    blockAt territoryId blockId draft = Some block
    ∧ body block = Some block'
    ∧ ∀ block'',
        body' block' = Some block'' →
        onBlock territoryId blockId body' draft'
        = onBlock territoryId blockId (λ _, Some block'') draft.
Proof.
  intros (territory & block & block' & Ht & Hb & Hbody & ->)%onBlock_result.
  exists block, block'. split; [by unfold blockAt; rewrite Ht|]. split; [done|].
  intros block'' Hbody'. unfold onBlock. cbn.
  rewrite lookup_insert_eq, Ht. cbn. rewrite lookup_insert_eq, Hb. cbn.
  rewrite Hbody'. cbn. by rewrite !insert_insert_eq.
Qed.

Lemma onBlock_const territoryId blockId body draft block block' :
  blockAt territoryId blockId draft = Some block →
  body block = Some block' →
  onBlock territoryId blockId body draft
  = onBlock territoryId blockId (λ _, Some block') draft.
Proof.
  unfold blockAt, onBlock. intros Hat Hbody.
  destruct (territories draft !! territoryId) as [territory|]; [|done].
  cbn in *. rewrite Hat. cbn. by rewrite Hbody.
Qed.

(** X7. Resequencing twice with the same maximum gives the document that
    resequencing once gives. *)
Theorem resequencing_idempotent `{Builtins} territoryId blockId max draft draft' :
  applyChalkSequencingMutator territoryId blockId max draft = Some draft' →
  applyChalkSequencingMutator territoryId blockId max draft' = Some draft'.
Proof.
  intros Hrun. unfold applyChalkSequencingMutator in *.
  destruct (onBlock_again _ _ _ (sequenceBlock max) _ _ Hrun)
    as (block & block' & Hat & Hbody & Hagain).
  destruct (sequenceBlock_lookup max block' EmptyString) as (block'' & Hbody' & _).
  rewrite (Hagain block'' Hbody'), <- Hrun.
  assert (block'' = block') as ->; [|symmetry; by apply onBlock_const with block].
  eapply sequenceBlock_ext; [exact Hbody'|exact Hbody| |].
  { by destruct (sequenceBlock_houses_at max block block' EmptyString Hbody) as [-> _]. }
  intros key.
  destruct (sequenceBlock_houses_at max block' block'' key Hbody') as [_ ->].
  destruct (sequenceBlock_houses_at max block block' key Hbody) as [_ ->].
  destruct (exceeds (Number key) max); [done|]. by case_decide.
Qed.

Lemma resequencing_idempotent_witness :
  ∃ draft',
    @applyChalkSequencingMutator digitsBuiltins "01" "1" 3 sampleData = Some draft'
    ∧ @applyChalkSequencingMutator digitsBuiltins "01" "1" 3 draft' = Some draft'.
Proof.
  destruct (@applyChalkSequencingMutator digitsBuiltins "01" "1" 3 sampleData)
    as [draft'|] eqn:Hrun; [|by vm_compute in Hrun].
  exists draft'. split; [done|].
  exact (@resequencing_idempotent digitsBuiltins "01" "1" 3 sampleData draft' Hrun).
Defined.

(** X8. Resequencing to a maximum N and then to a maximum M not above N gives
    the document that resequencing to M at once gives. *)
Theorem resequencing_shrink `{Builtins} territoryId blockId N M draft draft1 draft2 :
  NumberReadsIndices →
  M ≤ N →
  applyChalkSequencingMutator territoryId blockId N draft = Some draft1 →
  applyChalkSequencingMutator territoryId blockId M draft1 = Some draft2 →
  applyChalkSequencingMutator territoryId blockId M draft = Some draft2.
Proof.
  intros Hread Hle Hrun1 Hrun2. unfold applyChalkSequencingMutator in *.
  destruct (onBlock_again _ _ _ (sequenceBlock M) _ _ Hrun1)
    as (block & block1 & Hat & Hbody1 & Hagain).
  destruct (sequenceBlock_lookup M block1 EmptyString) as (block2 & Hbody2 & _).
  rewrite (Hagain block2 Hbody2) in Hrun2. rewrite <- Hrun2.
  apply onBlock_const with block; [done|].
  destruct (sequenceBlock_lookup M block EmptyString) as (direct & Hdirect & _).
  rewrite Hdirect. f_equal.
  eapply sequenceBlock_ext; [exact Hdirect|exact Hbody2| |].
  { by destruct (sequenceBlock_houses_at N block block1 EmptyString Hbody1) as [-> _]. }
  intros key.
  destruct (sequenceBlock_houses_at M block direct key Hdirect) as [_ ->].
  destruct (sequenceBlock_houses_at M block1 block2 key Hbody2) as [_ ->].
  destruct (sequenceBlock_houses_at N block block1 key Hbody1) as [_ ->].
  destruct (exceeds (Number key) M) eqn:HM; [done|].
  destruct (exceeds (Number key) N) eqn:HN.
  { by rewrite (exceeds_mono _ _ _ Hle HN) in HM. }
  destruct (decide (key ∈ indexKey <$> indices M)) as [Hin|Hout].
  - rewrite decide_True; [done|].
    apply list_elem_of_fmap in Hin as (i & -> & Hi%elem_of_indices).
    apply list_elem_of_fmap_2, elem_of_indices. lia.
  - case_decide as HinN; [|done]. exfalso.
    apply list_elem_of_fmap in HinN as (i & -> & Hi%elem_of_indices).
    destruct (decide (i ≤ M)) as [HiM|HiM].
    + apply Hout, list_elem_of_fmap_2, elem_of_indices. lia.
    + rewrite Hread, exceeds_integer in HM by lia.
      apply bool_decide_eq_false_1 in HM. lia.
Qed.

Lemma resequencing_shrink_witness :
  ∃ draft1 draft2,
    @applyChalkSequencingMutator digitsBuiltins "01" "1" 9 sampleData = Some draft1
    ∧ @applyChalkSequencingMutator digitsBuiltins "01" "1" 3 draft1 = Some draft2
    ∧ @applyChalkSequencingMutator digitsBuiltins "01" "1" 3 sampleData = Some draft2.
Proof.
  destruct (@applyChalkSequencingMutator digitsBuiltins "01" "1" 9 sampleData)
    as [draft1|] eqn:Hrun1; [|by vm_compute in Hrun1].
  destruct (@applyChalkSequencingMutator digitsBuiltins "01" "1" 3 draft1)
    as [draft2|] eqn:Hrun2.
  - exists draft1, draft2. repeat split; try done.
    apply (@resequencing_shrink digitsBuiltins "01" "1" 9 3 sampleData draft1 draft2
             digits_read_indices); [lia|done..].
  - destruct (blockAt_onBlock _ _ _ _ _ Hrun1) as (b & b1 & _ & _ & Hb1).
    destruct (@sequencing_runs digitsBuiltins "01" "1" 3 draft1 b1 Hb1)
      as (d & _ & Hd & _). congruence.
Defined.

Lemma sequencing_block `{Builtins} territoryId blockId max draft draft' :
  applyChalkSequencingMutator territoryId blockId max draft = Some draft' →
  ∃ block block',
    blockAt territoryId blockId draft = Some block
    ∧ sequenceBlock max block = Some block'
    ∧ blockAt territoryId blockId draft' = Some block'.
Proof. apply blockAt_onBlock. Qed.

(** X9. Shrinking a block and growing it again does not bring houses back:
    after resequencing to N and then to a larger M, every key above N up to M
    holds a fresh house (status 1, empty official number and notes, no last
    visit), whatever it held before. *)
Theorem resequencing_shrink_then_grow `{Builtins} territoryId blockId N M
    draft draft1 draft2 :
  NumberReadsIndices →
  applyChalkSequencingMutator territoryId blockId N draft = Some draft1 →
  applyChalkSequencingMutator territoryId blockId M draft1 = Some draft2 →
  ∀ i, 1 ≤ i → N < i ≤ M →
    houseAt territoryId blockId (indexKey i) draft2 = Some (newHouse (indexKey i)).
Proof.
  intros Hread (block & block1 & _ & Hbody1 & Hat1)%sequencing_block
    (b & block2 & Hb & Hbody2 & Hat2)%sequencing_block i Hi1 Hi.
  assert (b = block1) as -> by congruence.
  unfold houseAt. rewrite Hat2. cbn.
  destruct (sequenceBlock_houses_at M block1 block2 (indexKey i) Hbody2) as [_ ->].
  destruct (sequenceBlock_houses_at N block block1 (indexKey i) Hbody1) as [_ ->].
  rewrite !Hread, !exceeds_integer by lia.
  rewrite bool_decide_eq_false_2, bool_decide_eq_true_2 by lia.
  rewrite decide_True; [done|]. apply list_elem_of_fmap_2, elem_of_indices. lia.
Qed.

Lemma resequencing_shrink_then_grow_witness :
  ∃ draft1 draft2,
    @applyChalkSequencingMutator digitsBuiltins "01" "1" 3 sampleData = Some draft1
    ∧ @applyChalkSequencingMutator digitsBuiltins "01" "1" 9 draft1 = Some draft2
    ∧ houseAt "01" "1" "7" sampleData = Some sampleHouse
    ∧ houseAt "01" "1" "7" draft2 = Some (newHouse "7").
Proof.
  destruct (@applyChalkSequencingMutator digitsBuiltins "01" "1" 3 sampleData)
    as [draft1|] eqn:Hrun1; [|by vm_compute in Hrun1].
  destruct (@applyChalkSequencingMutator digitsBuiltins "01" "1" 9 draft1)
    as [draft2|] eqn:Hrun2.
  - exists draft1, draft2. repeat split; try done.
    apply (@resequencing_shrink_then_grow digitsBuiltins "01" "1" 3 9 sampleData draft1
             draft2 digits_read_indices Hrun1 Hrun2 7); lia.
  - destruct (blockAt_onBlock _ _ _ _ _ Hrun1) as (b & b1 & _ & _ & Hb1).
    destruct (@sequencing_runs digitsBuiltins "01" "1" 9 draft1 b1 Hb1)
      as (d & _ & Hd & _). congruence.
Defined.

(** X10. Resequencing never touches a house whose key does not read as a
    finite number: it is kept, with every field as before. *)
Theorem resequencing_keeps_other_keys `{Builtins} territoryId blockId max
    draft draft' key :
  NumberReadsIndices →
  (∀ q, Number key ≠ Finite q) →
  applyChalkSequencingMutator territoryId blockId max draft = Some draft' →
  houseAt territoryId blockId key draft' = houseAt territoryId blockId key draft.
Proof.
  intros Hread Hkey (block & block' & Hat & Hbody & Hat')%sequencing_block.
  unfold houseAt. rewrite Hat, Hat'. cbn.
  destruct (sequenceBlock_houses_at max block block' key Hbody) as [_ ->].
  assert (exceeds (Number key) max = false) as ->.
  { destruct (Number key) as [| |q] eqn:Hn; [done..|]. by destruct (Hkey q). }
  rewrite decide_False; [done|].
  intros (i & -> & Hi%elem_of_indices)%list_elem_of_fmap.
  apply (Hkey (Qc_of_Z i)). apply Hread. lia.
Qed.

Lemma resequencing_keeps_other_keys_witness :
  ∃ draft',
    @applyChalkSequencingMutator digitsBuiltins "01" "1" 3 sampleData = Some draft'
    ∧ houseAt "01" "1" "fundos" draft' = houseAt "01" "1" "fundos" sampleData.
Proof.
  destruct (@applyChalkSequencingMutator digitsBuiltins "01" "1" 3 sampleData)
    as [draft'|] eqn:Hrun; [|by vm_compute in Hrun].
  exists draft'. split; [done|].
  apply (@resequencing_keeps_other_keys digitsBuiltins "01" "1" 3 sampleData draft'
           "fundos" digits_read_indices); [|done].
  intros q. vm_compute. discriminate.
Defined.

(** ** Creating and updating a block *)

Lemma ensure_lookup l hs key :
  foldl ensureHouse hs l !! key
  = if decide (key ∈ indexKey <$> l)
    then Some (default (newHouse key) (hs !! key)) else hs !! key.
Proof.
  revert hs. induction l as [|x l IH]; intros hs.
  - cbn. rewrite decide_False; [done|]. apply not_elem_of_nil.
  - cbn [foldl]. rewrite IH, ensureHouse_lookup. rewrite fmap_cons.
    destruct (decide (indexKey x = key)) as [<-|Hne].
    + rewrite (decide_True (P := indexKey x ∈ indexKey x :: _)) by left.
      by case_decide.
    + destruct (decide (key ∈ indexKey <$> l)) as [Hin|Hout].
      * rewrite decide_True; [done|]. by right.
      * rewrite decide_False; [done|]. intros [?|?]%elem_of_cons; [congruence|done].
Qed.

Lemma ensure_summary l (hs : gmap string HouseRecord) :
  NoDup l →
  (∀ i, i ∈ l → hs !! indexKey i = None) →
  summaryOf (foldl ensureHouse hs l)
  = {| total := total (summaryOf hs) + Z.of_nat (length l);
       verde := verde (summaryOf hs) + Z.of_nat (length l);
       amarelo := amarelo (summaryOf hs);
       laranja := laranja (summaryOf hs);
       vermelho := vermelho (summaryOf hs) |}.
Proof.
  revert hs. induction l as [|x l IH]; intros hs Hdup Hfresh.
  - unfold summaryOf. cbn. f_equal; lia.
  - pose proof (NoDup_cons_1_1 _ _ Hdup) as Hx. apply NoDup_cons_1_2 in Hdup.
    cbn [foldl].
    assert (ensureHouse hs x = <[indexKey x := newHouse (indexKey x)]> hs) as ->.
    { unfold ensureHouse. rewrite Hfresh; [done|by left]. }
    rewrite IH; [|done|].
    + rewrite summaryOf_insert by (apply Hfresh; by left).
      cbn [tally total verde amarelo laranja vermelho length].
      unfold statusIs. cbn. repeat case_bool_decide; simplify_eq. f_equal; lia.
    + intros i Hi. rewrite lookup_insert_ne; [apply Hfresh; by right|].
      intros Heq%(inj pretty). by subst.
Qed.

Lemma upsertBlockMutator_block `{Builtins} payload draft draft' :
  upsertBlockMutator payload draft = Some draft' →
  ∃ territory,
    territories draft !! payloadTerritoryId payload = Some territory
    ∧ draft' = setTerritories
                 (<[payloadTerritoryId payload :=
                      setBlocks (upsertBlockAt (upsertBlockId payload territory)
                                   (payloadImageUrl payload) (maxChalk payload)
                                   (blocks territory)) territory]>
                    (territories draft)) draft.
Proof.
  unfold upsertBlockMutator.
  destruct (territories draft !! payloadTerritoryId payload) as [territory|]; [|done].
  cbn. intros [= <-]. by exists territory.
Qed.

(** X11. Creating a block with n houses (n at least 0) gives a block with the
    submitted image whose houses are exactly the keys "1".."n", each a fresh
    house with status 1, and whose summary is total n, verde n, others 0. *)
Theorem upsertBlock_creates `{Builtins} payload draft draft' territory :
  territories draft !! payloadTerritoryId payload = Some territory →
  blocks territory !! upsertBlockId payload territory = None →
  0 ≤ maxChalk payload →
  upsertBlockMutator payload draft = Some draft' →
  ∃ block,
    blockAt (payloadTerritoryId payload) (upsertBlockId payload territory) draft'
    = Some block
    ∧ imageUrl block = payloadImageUrl payload
    ∧ (∀ i, 1 ≤ i ≤ maxChalk payload →
         houses block !! indexKey i = Some (newHouse (indexKey i)))
    ∧ (∀ key, (∀ i, 1 ≤ i ≤ maxChalk payload → indexKey i ≠ key) →
         houses block !! key = None)
    ∧ summary block
      = {| total := maxChalk payload; verde := maxChalk payload; amarelo := 0;
           laranja := 0; vermelho := 0 |}.
Proof.
  intros Ht Hnew Hn (t & Ht' & ->)%upsertBlockMutator_block.
  assert (t = territory) as -> by congruence.
  eexists. split.
  { unfold blockAt. cbn. rewrite lookup_insert_eq. cbn. unfold upsertBlockAt.
    by rewrite lookup_insert_eq. }
  rewrite Hnew. cbn. split; [done|]. split; [|split].
  - intros i Hi. rewrite ensure_lookup, decide_True; [done|].
    by apply list_elem_of_fmap_2, elem_of_indices.
  - intros key Hkey. rewrite ensure_lookup, decide_False; [done|].
    intros (i & -> & Hi%elem_of_indices)%list_elem_of_fmap. by apply (Hkey i).
  - rewrite tally_fold, ensure_summary; [|apply NoDup_seqZ|done].
    rewrite summaryOf_empty. unfold indices. rewrite length_seqZ. cbn.
    f_equal; lia.
Qed.

Lemma upsertBlock_creates_witness :
  ∃ draft' block,
    @upsertBlockMutator digitsBuiltins newBlockPayload sampleData = Some draft'
    ∧ blockAt "01" "2" draft' = Some block
    ∧ summary block
      = {| total := 4; verde := 4; amarelo := 0; laranja := 0; vermelho := 0 |}.
Proof.
  destruct (@upsertBlockMutator digitsBuiltins newBlockPayload sampleData)
    as [draft'|] eqn:Hrun; [|by vm_compute in Hrun].
  destruct (@upsertBlock_creates digitsBuiltins newBlockPayload sampleData draft'
              sampleTerritory eq_refl eq_refl ltac:(cbn; lia) Hrun)
    as (block & Hat & _ & _ & _ & Hsum).
  by exists draft', block.
Defined.

(** X12. Updating a block that exists never removes or rewrites a house,
    whatever number of houses is submitted: every house is kept as it was
    (its chalk number too), the keys "1".."n" that were missing get a fresh
    house, no other key appears, the image is the submitted one and the other
    blocks of the territory are as before. *)
Theorem upsertBlock_updates `{Builtins} payload draft draft' territory blockId block :
  territories draft !! payloadTerritoryId payload = Some territory →
  payloadBlockId payload = Some blockId →
  blocks territory !! blockId = Some block →
  upsertBlockMutator payload draft = Some draft' →
  ∃ block',
    blockAt (payloadTerritoryId payload) blockId draft' = Some block'
    ∧ imageUrl block' = payloadImageUrl payload
    ∧ (∀ key house, houses block !! key = Some house →
         houses block' !! key = Some house)
    ∧ (∀ i, 1 ≤ i ≤ maxChalk payload → houses block !! indexKey i = None →
         houses block' !! indexKey i = Some (newHouse (indexKey i)))
    ∧ (∀ key, houses block !! key = None →
         (∀ i, 1 ≤ i ≤ maxChalk payload → indexKey i ≠ key) →
         houses block' !! key = None)
    ∧ (∀ other, other ≠ blockId →
         blockAt (payloadTerritoryId payload) other draft'
         = blockAt (payloadTerritoryId payload) other draft).
Proof.
  intros Ht Hid Hblock (t & Ht' & ->)%upsertBlockMutator_block.
  assert (t = territory) as -> by congruence.
  unfold upsertBlockId. rewrite Hid. cbn [default].
  eexists. split.
  { unfold blockAt. cbn. rewrite lookup_insert_eq. cbn. unfold upsertBlockAt.
    by rewrite lookup_insert_eq. }
  rewrite Hblock. cbn. split; [done|]. split; [|split; [|split]].
  - intros key house Hhouse. rewrite ensure_lookup, Hhouse. by case_decide.
  - intros i Hi Hnone. rewrite ensure_lookup, Hnone, decide_True; [done|].
    by apply list_elem_of_fmap_2, elem_of_indices.
  - intros key Hnone Hkey. rewrite ensure_lookup, Hnone, decide_False; [done|].
    intros (i & -> & Hi%elem_of_indices)%list_elem_of_fmap. by apply (Hkey i).
  - intros other Hne. unfold blockAt. cbn. rewrite lookup_insert_eq, Ht. cbn.
    unfold upsertBlockAt. by rewrite lookup_insert_ne.
Qed.

Lemma upsertBlock_updates_witness :
  ∃ draft' block',
    @upsertBlockMutator digitsBuiltins editBlockPayload sampleData = Some draft'
    ∧ blockAt "01" "1" draft' = Some block'
    ∧ houses block' !! "7"%string = Some sampleHouse.
Proof.
  destruct (@upsertBlockMutator digitsBuiltins editBlockPayload sampleData)
    as [draft'|] eqn:Hrun; [|by vm_compute in Hrun].
  destruct (@upsertBlock_updates digitsBuiltins editBlockPayload sampleData draft'
              sampleTerritory "1" sampleBlock eq_refl eq_refl eq_refl Hrun)
    as (block' & Hat & _ & Hkeep & _).
  exists draft', block'. repeat split; try done. by apply Hkeep.
Defined.

(** ** Fetching: what a run always does, and a successful run *)

Lemma loadRemoteState_returns `{Builtins} `{Yaml} `{Remote} reason w :
  ∃ w', loadRemoteState reason w = (Ok tt, w')
        ∧ sent w' = sent w ++ [loadRequest (patValue (ui w))]
        ∧ store w' = (respond (loadRequest (patValue (ui w))) (store w)).2
        ∧ isLoading (ui w') = false
        ∧ patValue (ui w') = patValue (ui w).
Proof.
  destruct (loadRemoteState_run reason w) as (c' & Hrun & Hpat).
  eexists. split; [exact Hrun|]. cbn. repeat split; try done.
  assert (isLoading (ui (loadRemoteState reason w).2) = false) as Hloading.
  { unfold loadRemoteState, tryCatchFinally. run_eff.
    destruct (loadRemoteStateBody reason _) as [[[]|e] w1]; done. }
  by rewrite Hrun in Hloading.
Qed.

(** X13. [loadRemoteState] never throws: whatever the remote store answers,
    it returns, having sent exactly one request (the read of the document,
    with the token when one is stored), with the loading flag cleared and the
    stored token untouched. *)
Theorem loadRemoteState_always_returns `{Builtins} `{Yaml} `{Remote} reason w :
  ∃ w', loadRemoteState reason w = (Ok tt, w')
        ∧ sent w' = sent w ++ [loadRequest (patValue (ui w))]
        ∧ store w' = (respond (loadRequest (patValue (ui w))) (store w)).2
        ∧ isLoading (ui w') = false
        ∧ patValue (ui w') = patValue (ui w).
Proof. exact (loadRemoteState_returns reason w). Qed.

Lemma loadRemoteState_success `{Builtins} `{Yaml} `{Remote}
    reason w response store' payload decoded data :
  respond (loadRequest (patValue (ui w))) (store w) = (Responds response, store') →
  responseOk response = true →
  responseJson response = JsonValue payload →
  decodeBase64 (default undefinedText (payloadContent payload)) = Some decoded →
  yaml_load decoded = YamlValue (Some data) →
  let w' := (loadRemoteState reason w).2 in
  appState (ui w') = Some data
  ∧ remoteSha (ui w') = default ""%string (payloadSha payload)
  ∧ (truthy (selectedTerritoryId (ui w)) = true →
     selectedTerritoryId (ui w') = selectedTerritoryId (ui w)
     ∧ selectedBlockId (ui w') = selectedBlockId (ui w)
     ∧ notification (ui w')
       = Some {| notificationType := success;
                 notificationMessage := loadedMessage reason |}).
Proof.
  intros Hrespond Hok Hjson Hdecoded Hload.
  unfold loadRemoteState, loadRemoteStateBody, applyResponse, selectFirst. run_eff. cbn.
  rewrite Hrespond. cbn. rewrite Hok. cbn. rewrite Hjson. cbn.
  rewrite Hdecoded. cbn. rewrite Hload. cbn.
  destruct (truthy (selectedTerritoryId (ui w))) eqn:Hsel; cbn; [done|].
  repeat (case_match; simplify_eq/=; run_eff); done.
Qed.

(** X14. A fetch whose content decodes to a document replaces the local
    document by it, whatever the local document was (a draft that was never
    committed is lost), and stores the tag of the answer (the empty string
    when the answer has none).  When a territory is selected the selection is
    kept and the success message of the reason is shown. *)
Theorem loadRemoteState_replaces_document `{Builtins} `{Yaml} `{Remote}
    reason w response store' payload decoded data :
  respond (loadRequest (patValue (ui w))) (store w) = (Responds response, store') →
  responseOk response = true →
  responseJson response = JsonValue payload →
  decodeBase64 (default undefinedText (payloadContent payload)) = Some decoded →
  yaml_load decoded = YamlValue (Some data) →
  let w' := (loadRemoteState reason w).2 in
  appState (ui w') = Some data
  ∧ remoteSha (ui w') = default ""%string (payloadSha payload)
  ∧ (truthy (selectedTerritoryId (ui w)) = true →
     selectedTerritoryId (ui w') = selectedTerritoryId (ui w)
     ∧ selectedBlockId (ui w') = selectedBlockId (ui w)
     ∧ notification (ui w')
       = Some {| notificationType := success;
                 notificationMessage := loadedMessage reason |}).
Proof.
  intros Hrespond Hok Hjson Hdecoded Hload.
  exact (loadRemoteState_success reason w response store' payload decoded data
           Hrespond Hok Hjson Hdecoded Hload).
Qed.

Lemma loadRemoteState_replaces_document_witness :
  appState (ui (@loadRemoteState digitsBuiltins fixedYaml scriptedRemote focus
                  (sampleWorld [Responds documentAnswer])).2)
  = Some sampleDataWithRoles.
Proof.
  refine (proj1 (@loadRemoteState_replaces_document digitsBuiltins fixedYaml
                   scriptedRemote focus (sampleWorld [Responds documentAnswer])
                   documentAnswer [] documentPayload [100] sampleDataWithRoles
                   eq_refl eq_refl eq_refl _ eq_refl)).
  by vm_compute.
Defined.

(** ** Committing: what a run always does, and a successful run *)

Lemma commitToGitHub_returns `{Builtins} `{Yaml} `{Remote} nextState label w :
  ∃ w', commitToGitHub nextState label w = (Ok tt, w')
        ∧ patValue (ui w') = patValue (ui w)
        ∧ (patValue (ui w) ≠ ""%string → isSaving (ui w') = false)
        ∧ (patValue (ui w) = ""%string →
           w' = {| ui := setShowPatModal true
                           (setNotification
                              (Some {| notificationType := error;
                                       notificationMessage :=
                                         "Configure o PAT para enviar alterações ao GitHub" |})
                              (ui w));
                   store := store w; sent := sent w |}).
Proof.
  unfold commitToGitHub, ensurePatBeforeCommit, commitToGitHubBody. run_eff. cbn.
  case_bool_decide as Hpat; cbn.
  { eexists. split; [done|]. cbn. repeat split; done. }
  destruct (respond (shaRequest (patValue (ui w))) (store w)) as [[msg|response] s1]; cbn.
  { eexists. split; [done|]. cbn. repeat split; done. }
  destruct (responseOk response); cbn.
  2:{ eexists. split; [done|]. cbn. repeat split; done. }
  destruct (responseJson response) as [msg|payload]; cbn.
  { eexists. split; [done|]. cbn. repeat split; done. }
  destruct (encodeBase64 (yaml_dump nextState)) as [encoded|]; cbn.
  2:{ eexists. split; [done|]. cbn. repeat split; done. }
  destruct (respond (putRequest (patValue (ui w)) encoded (payloadSha payload)) s1)
    as [[msg|response2] s2]; cbn.
  { eexists. split; [done|]. cbn. repeat split; done. }
  destruct (responseOk response2); cbn.
  2:{ eexists. split; [done|]. cbn. repeat split; done. }
  match goal with |- context [loadRemoteState postCommit ?w0] =>
    destruct (loadRemoteState_run postCommit w0) as (c' & -> & Hc')
  end.
  cbn. eexists. split; [done|]. cbn. repeat split; done.
Qed.

(** X15. [commitToGitHub] never throws.  With a stored token it always ends
    with the saving flag cleared, whatever the remote store answers; without
    one it sends nothing, shows the error that asks for the token and opens
    the token dialog, leaving every other field of the component as it
    was. *)
Theorem commitToGitHub_always_returns `{Builtins} `{Yaml} `{Remote} nextState label w :
  ∃ w', commitToGitHub nextState label w = (Ok tt, w')
        ∧ patValue (ui w') = patValue (ui w)
        ∧ (patValue (ui w) ≠ ""%string → isSaving (ui w') = false)
        ∧ (patValue (ui w) = ""%string →
           sent w' = sent w ∧ store w' = store w
           ∧ ui w' = setShowPatModal true
                       (setNotification
                          (Some {| notificationType := error;
                                   notificationMessage :=
                                     "Configure o PAT para enviar alterações ao GitHub" |})
                          (ui w))).
Proof.
  destruct (commitToGitHub_returns nextState label w) as (w' & Hrun & Hpat & Hsaving & Hnone).
  exists w'. split; [done|]. split; [done|]. split; [done|].
  intros Hp. by rewrite (Hnone Hp).
Qed.

Lemma commitToGitHub_always_returns_witness :
  ∃ w', @commitToGitHub digitsBuiltins sampleYaml scriptedRemote sampleData "CRUD de quadra"
          (sampleWorld [Responds unauthorizedAnswer]) = (Ok tt, w')
        ∧ isSaving (ui w') = false.
Proof.
  destruct (@commitToGitHub_always_returns digitsBuiltins sampleYaml scriptedRemote
              sampleData "CRUD de quadra" (sampleWorld [Responds unauthorizedAnswer]))
    as (w' & Hrun & _ & Hsaving & _).
  exists w'. split; [done|]. apply Hsaving. vm_compute. discriminate.
Defined.

(** X16. When the write of a commit succeeds, the commit shows its success,
    fetches the document again and ends with the saving flag cleared: three
    requests are sent (tag read, write, document read), and when the fetched
    content decodes to a document, that document, not the draft that was
    committed, is the local document, with the tag of the last answer. *)
Theorem commit_success_refetches `{Builtins} `{Yaml} `{Remote} nextState label w
    response s1 payload encoded response2 s2 response3 s3 payload3 decoded data :
  let pat := patValue (ui w) in
  pat ≠ ""%string →
  respond (shaRequest pat) (store w) = (Responds response, s1) →
  responseOk response = true →
  responseJson response = JsonValue payload →
  encodeBase64 (yaml_dump nextState) = Some encoded →
  respond (putRequest pat encoded (payloadSha payload)) s1 = (Responds response2, s2) →
  responseOk response2 = true →
  respond (loadRequest pat) s2 = (Responds response3, s3) →
  responseOk response3 = true →
  responseJson response3 = JsonValue payload3 →
  decodeBase64 (default undefinedText (payloadContent payload3)) = Some decoded →
  yaml_load decoded = YamlValue (Some data) →
  let w' := (commitToGitHub nextState label w).2 in
  sent w' = sent w ++ [shaRequest pat; putRequest pat encoded (payloadSha payload);
                       loadRequest pat]
  ∧ store w' = s3
  ∧ appState (ui w') = Some data
  ∧ remoteSha (ui w') = default ""%string (payloadSha payload3)
  ∧ isSaving (ui w') = false.
Proof.
  intros pat Hpat Hsha Hok Hjson Henc Hput Hok2 Hget Hok3 Hjson3 Hdec Hload. subst pat.
  unfold commitToGitHub, ensurePatBeforeCommit, commitToGitHubBody. run_eff. cbn.
  rewrite bool_decide_eq_false_2 by done. cbn.
  rewrite Hsha. cbn. rewrite Hok. cbn. rewrite Hjson. cbn. rewrite Henc. cbn.
  rewrite Hput. cbn. rewrite Hok2. cbn.
  match goal with |- context [loadRemoteState postCommit ?w0] =>
    destruct (loadRemoteState_returns postCommit w0)
      as (w1 & Hrun & Hsent & Hstore & _ & _);
    pose proof (loadRemoteState_success postCommit w0 response3 s3 payload3
                  decoded data Hget Hok3 Hjson3 Hdec Hload) as (Hstate & Htag & _);
    rewrite Hrun in *
  end.
  cbn in *. rewrite Hget in Hstore. rewrite Hsent, <- !app_assoc. done.
Qed.

Lemma commit_success_refetches_witness :
  appState (ui (@commitToGitHub digitsBuiltins fixedYaml scriptedRemote sampleData
                  "CRUD de quadra"
                  (sampleWorld [Responds tagAnswer; Responds writtenAnswer;
                                Responds documentAnswer])).2)
  = Some sampleDataWithRoles.
Proof.
  refine (proj1 (proj2 (proj2
    (@commit_success_refetches digitsBuiltins fixedYaml scriptedRemote sampleData
       "CRUD de quadra"
       (sampleWorld [Responds tagAnswer; Responds writtenAnswer; Responds documentAnswer])
       tagAnswer [Responds writtenAnswer; Responds documentAnswer]
       {| payloadContent := None; payloadSha := Some "tag-1"%string |} [90; 65; 61; 61]
       writtenAnswer [Responds documentAnswer] documentAnswer [] documentPayload
       [100] sampleDataWithRoles _ eq_refl eq_refl eq_refl _ eq_refl eq_refl eq_refl
       eq_refl eq_refl _ eq_refl)))).
  - vm_compute. discriminate.
  - by vm_compute.
  - by vm_compute.
Defined.

(** ** The pipeline when there is nothing to publish *)

Lemma selectedBlock_blockAt c territoryId blockId block data :
  appState c = Some data →
  selectedTerritoryId c = Some territoryId →
  selectedBlockId c = Some blockId →
  selectedBlock c = Some block →
  blockAt territoryId blockId data = Some block.
Proof.
  unfold selectedBlock, selectedTerritory, blockAt. intros -> -> -> Hblock.
  destruct (truthy (Some territoryId)); [|done].
  cbn [mbind option_bind] in *.
  destruct (territories data !! territoryId) as [territory|]; [|done].
  cbn [mbind option_bind] in *.
  by destruct (truthy (Some blockId)).
Qed.

(** X17. The pipeline publishes and sends nothing when there is nothing to
    publish: without a loaded document [applyStateMutation] returns at once,
    and when the mutator throws, the error escapes with the world as it was.
    So [cycleHouseStatus] for a house that is not in the selected block
    throws a [TypeError] and changes nothing. *)
Theorem pipeline_without_draft `{Builtins} `{Yaml} `{Remote} w :
  (∀ (mutator : Mutator) label,
     appState (ui w) = None → applyStateMutation mutator label w = (Ok tt, w))
  ∧ (∀ (mutator : Mutator) label data,
     appState (ui w) = Some data → mutator data = None →
     applyStateMutation mutator label w = (Err typeError, w))
  ∧ (∀ houseId now territoryId blockId block,
     selectedTerritoryId (ui w) = Some territoryId →
     selectedBlockId (ui w) = Some blockId →
     selectedBlock (ui w) = Some block →
     houses block !! houseId = None →
     cycleHouseStatus houseId now w = (Err typeError, w)).
Proof.
  assert (∀ (mutator : Mutator) label data,
            appState (ui w) = Some data → mutator data = None →
            applyStateMutation mutator label w = (Err typeError, w)) as Hthrows.
  { intros mutator label data Hstate Hmut. unfold applyStateMutation, cloneState.
    run_eff. rewrite Hstate. cbn. by rewrite Hmut. }
  split; [|split; [done|]].
  - intros mutator label Hstate. unfold applyStateMutation. run_eff. by rewrite Hstate.
  - intros houseId now territoryId blockId block Ht Hb Hblock Hhouse.
    rewrite (cycleHouseStatus_applies houseId now w territoryId blockId) by done.
    destruct (appState (ui w)) as [data|] eqn:Hstate.
    2:{ unfold selectedBlock, selectedTerritory in Hblock. by rewrite Hstate in Hblock. }
    apply Hthrows with data; [done|].
    pose proof (selectedBlock_blockAt _ _ _ _ _ Hstate Ht Hb Hblock) as Hat.
    unfold cycleHouseStatusMutator, onBlock. unfold blockAt in Hat.
    destruct (territories data !! territoryId) as [territory|]; [|done].
    cbn in *. rewrite Hat. cbn. unfold cycleHouse. by rewrite Hhouse.
Qed.

Lemma pipeline_without_draft_witness :
  @cycleHouseStatus digitsBuiltins sampleYaml scriptedRemote "42" "2024-06-01T09:30:00.000Z"
    (sampleWorld [Responds tagAnswer])
  = (Err typeError, sampleWorld [Responds tagAnswer]).
Proof.
  destruct (@pipeline_without_draft digitsBuiltins sampleYaml scriptedRemote
              (sampleWorld [Responds tagAnswer])) as (_ & _ & Hcycle).
  apply (Hcycle "42"%string "2024-06-01T09:30:00.000Z"%string "01"%string "1"%string
           sampleBlock); reflexivity.
Defined.

(** ** Polling *)

(** X18. The polling callback sends nothing while the component holds no
    tag.  Otherwise it sends one read; when the read fails, or its answer
    carries no tag or the tag the component holds, the component is left as
    it was (a failure shows no notification); when the answer carries another
    tag, the callback goes on with [loadRemoteState]. *)
Theorem pollTick_cases `{Builtins} `{Yaml} `{Remote} w :
  (remoteSha (ui w) = ""%string → pollTick w = (Ok None, w))
  ∧ (∀ answer s1,
     remoteSha (ui w) ≠ ""%string →
     respond (loadRequest (patValue (ui w))) (store w) = (answer, s1) →
     pollStops (remoteSha (ui w)) answer →
     ∃ warned,
       pollTick w
       = (Ok warned, {| ui := ui w; store := s1;
                        sent := sent w ++ [loadRequest (patValue (ui w))] |}))
  ∧ (∀ response s1 payload tag,
     remoteSha (ui w) ≠ ""%string →
     respond (loadRequest (patValue (ui w))) (store w) = (Responds response, s1) →
     responseOk response = true →
     responseJson response = JsonValue payload →
     payloadSha payload = Some tag →
     tag ≠ ""%string →
     tag ≠ remoteSha (ui w) →
     pollTick w
     = (Ok None,
        (loadRemoteState polling
           {| ui := ui w; store := s1;
              sent := sent w ++ [loadRequest (patValue (ui w))] |}).2)).
Proof.
  split; [|split].
  - intros Hsha. unfold pollTick. by rewrite bool_decide_eq_true_2.
  - intros answer s1 Hsha Hrespond Hstops. unfold pollTick.
    rewrite bool_decide_eq_false_2 by done. run_eff. cbn. rewrite Hrespond.
    destruct answer as [msg|response]; cbn; [by eexists|].
    destruct Hstops as [Hok|Hstops]; [rewrite Hok; cbn; by eexists|].
    destruct (responseOk response); cbn; [|by eexists].
    destruct (responseJson response) as [msg|payload]; cbn; [by eexists|].
    destruct Hstops as [Hfalsy|Hsame].
    + rewrite Hfalsy. cbn. by eexists.
    + rewrite Hsame, bool_decide_eq_true_2 by done. rewrite andb_false_r. by eexists.
  - intros response s1 payload tag Hsha Hrespond Hok Hjson Htag Hne Hnew.
    unfold pollTick. rewrite bool_decide_eq_false_2 by done. run_eff. cbn.
    rewrite Hrespond. cbn. rewrite Hok. cbn. rewrite Hjson. cbn. rewrite Htag.
    unfold truthy. rewrite (bool_decide_eq_false_2 (tag = ""%string)) by done.
    rewrite (bool_decide_eq_false_2 (Some tag = _)) by congruence. cbn.
    match goal with |- context [loadRemoteState polling ?w0] =>
      destruct (loadRemoteState_returns polling w0) as (w1 & -> & _)
    end. done.
Qed.

Lemma pollTick_cases_witness :
  ∃ warned,
    @pollTick digitsBuiltins sampleYaml scriptedRemote
      (sampleWorld [Responds unauthorizedAnswer])
    = (Ok warned, @Build_World scriptedRemote sampleComponent [] [loadRequest "ghp_token"]).
Proof.
  destruct (@pollTick_cases digitsBuiltins sampleYaml scriptedRemote
              (sampleWorld [Responds unauthorizedAnswer])) as (_ & Hstops & _).
  apply (Hstops (Responds unauthorizedAnswer) []).
  - vm_compute. discriminate.
  - reflexivity.
  - left. reflexivity.
Defined.

(** ** Territories and blocks: creation, edition, deletion *)

Lemma applyStateMutation_returns `{Builtins} `{Yaml} `{Remote} (mutator : Mutator) label w :
  (∀ data, appState (ui w) = Some data → is_Some (mutator data)) →
  ∃ w', applyStateMutation mutator label w = (Ok tt, w')
        ∧ (appState (ui w) = None → w' = w)
        ∧ (patValue (ui w) = ""%string →
           sent w' = sent w
           ∧ selectedTerritoryId (ui w') = selectedTerritoryId (ui w)
           ∧ selectedBlockId (ui w') = selectedBlockId (ui w)
           ∧ ∀ data draft, appState (ui w) = Some data → mutator data = Some draft →
                           appState (ui w') = Some draft).
Proof.
  intros Hruns. unfold applyStateMutation, cloneState. run_eff.
  destruct (appState (ui w)) as [data|] eqn:Hstate; cbn.
  2:{ eexists. split; [done|]. split; [done|]. intros _. by rewrite Hstate. }
  destruct (Hruns data eq_refl) as [draft Hdraft]. rewrite Hdraft. cbn.
  match goal with |- context [commitToGitHub draft label ?w0] =>
    destruct (commitToGitHub_returns draft label w0) as (w' & -> & _ & _ & Hnone)
  end.
  exists w'. split; [done|]. split; [done|]. intros Hpat. rewrite (Hnone Hpat). cbn.
  repeat split; try done. intros ? ? [= <-] Hd. by rewrite Hdraft in Hd.
Qed.

(** X19. Creating or editing a territory always succeeds and writes one
    entry: it carries the name, status and last use of the form, and the
    blocks the entry had (none when it is new).  Every other territory, the
    configuration, and every block of the document are as before: the
    handler never creates, changes or removes a block. *)
Theorem createOrUpdateTerritory_keeps_blocks `{Builtins} payload draft :
  ∃ draft' territory,
    createOrUpdateTerritoryMutator payload draft = Some draft'
    ∧ territories draft' !! territoryKey payload draft = Some territory
    ∧ territoryHeader territory
      = (payloadName payload, payloadStatus payload, payloadLastUse payload)
    ∧ blocks territory
      = default ∅ (blocks <$> territories draft !! territoryKey payload draft)
    ∧ (∀ other, other ≠ territoryKey payload draft →
         territories draft' !! other = territories draft !! other)
    ∧ (∀ territoryId blockId,
         blockAt territoryId blockId draft' = blockAt territoryId blockId draft)
    ∧ appConfig draft' = appConfig draft.
Proof.
  unfold createOrUpdateTerritoryMutator.
  set (key := territoryKey payload draft).
  eexists _, _. split; [done|]. cbn. rewrite lookup_insert_eq.
  split; [done|].
  split; [by destruct (territories draft !! key)|].
  split; [by destruct (territories draft !! key)|].
  split; [intros other Hother; by rewrite lookup_insert_ne|].
  split; [|done].
  intros territoryId blockId. unfold blockAt. cbn.
  destruct (decide (territoryId = key)) as [->|Hne].
  - rewrite lookup_insert_eq. by destruct (territories draft !! key).
  - by rewrite lookup_insert_ne.
Qed.

(** X20. Deleting a territory removes its entry and with it every block and
    house below it, and nothing else.  The handler never throws; when the
    deleted territory is the selected one, both selections are cleared, and
    without a stored token nothing is sent and the local document is the one
    without the territory. *)
Theorem deleteTerritory_cascade `{Builtins} `{Yaml} `{Remote} territoryId :
  (∀ draft, ∃ draft',
     deleteTerritoryMutator territoryId draft = Some draft'
     ∧ (∀ blockId, blockAt territoryId blockId draft' = None)
     ∧ (∀ blockId houseId, houseAt territoryId blockId houseId draft' = None)
     ∧ (∀ other, other ≠ territoryId →
          territories draft' !! other = territories draft !! other)
     ∧ appConfig draft' = appConfig draft)
  ∧ (∀ w, territoryId ≠ ""%string →
       selectedTerritoryId (ui w) = Some territoryId →
       ∃ w', deleteTerritory territoryId w = (Ok tt, w')
             ∧ selectedTerritoryId (ui w') = None
             ∧ selectedBlockId (ui w') = None
             ∧ selectedBlock (ui w') = None
             ∧ (patValue (ui w) = ""%string →
                sent w' = sent w
                ∧ appState (ui w')
                  = (λ data, setTerritories (delete territoryId (territories data)) data)
                      <$> appState (ui w))).
Proof.
  split.
  - intros draft. unfold deleteTerritoryMutator. eexists. split; [done|].
    unfold houseAt, blockAt. cbn. rewrite lookup_delete_eq. cbn.
    repeat split; try done. intros other Hother. by rewrite lookup_delete_ne.
  - intros w Hne Hsel. unfold deleteTerritory.
    unfold bind at 1. unfold readUi at 1. cbn -[applyStateMutation bind].
    unfold bind at 1.
    destruct (applyStateMutation_returns (deleteTerritoryMutator territoryId)
                "Exclusão de território" w) as (w1 & -> & Hsame & Hnone); [by eexists|].
    rewrite Hsel, bool_decide_eq_true_2 by done. run_eff. cbn.
    eexists. split; [done|]. cbn.
    split; [done|]. split; [done|].
    split.
    { unfold selectedBlock, selectedTerritory. cbn.
      by destruct (appState (ui w1)). }
    intros Hpat. destruct (Hnone Hpat) as (Hsent & _ & _ & Hstate).
    split; [done|].
    destruct (appState (ui w)) as [data|] eqn:Hdata; cbn.
    + by apply (Hstate data).
    + by rewrite (Hsame eq_refl).
Qed.

Lemma deleteTerritory_cascade_witness :
  ∃ w', @deleteTerritory digitsBuiltins sampleYaml scriptedRemote "01"
          (sampleWorld [Responds unauthorizedAnswer]) = (Ok tt, w')
        ∧ selectedTerritoryId (ui w') = None
        ∧ selectedBlockId (ui w') = None.
Proof.
  destruct (proj2 (@deleteTerritory_cascade digitsBuiltins sampleYaml scriptedRemote
                     "01"%string)
              (sampleWorld [Responds unauthorizedAnswer]))
    as (w' & Hrun & Ht & Hb & _); [done|reflexivity|].
  by exists w'.
Defined.

(** X21. Deleting a block of a territory that exists removes that block and
    nothing else: every other block of the document, the header of the
    territory and the configuration are as before.  When the territory does
    not exist the handler throws a [TypeError]: nothing is published or sent
    and the selection is not cleared. *)
Theorem deleteBlock_removes_one `{Builtins} `{Yaml} `{Remote} territoryId blockId :
  (∀ draft territory,
     territories draft !! territoryId = Some territory →
     ∃ draft' territory',
       deleteBlockMutator territoryId blockId draft = Some draft'
       ∧ blockAt territoryId blockId draft' = None
       ∧ (∀ t b, (t, b) ≠ (territoryId, blockId) → blockAt t b draft' = blockAt t b draft)
       ∧ territories draft' !! territoryId = Some territory'
       ∧ territoryHeader territory' = territoryHeader territory
       ∧ appConfig draft' = appConfig draft)
  ∧ (∀ w data,
     appState (ui w) = Some data →
     territories data !! territoryId = None →
     deleteBlock territoryId blockId w = (Err typeError, w)).
Proof.
  split.
  - intros draft territory Hterritory. unfold deleteBlockMutator. rewrite Hterritory. cbn.
    eexists _, _. split; [done|]. unfold blockAt. cbn. rewrite lookup_insert_eq. cbn.
    rewrite lookup_delete_eq. split; [done|]. split; [|done].
    intros t b Hne. destruct (decide (t = territoryId)) as [->|Ht].
    + rewrite lookup_insert_eq, Hterritory. cbn. rewrite lookup_delete_ne; [done|].
      congruence.
    + by rewrite lookup_insert_ne.
  - intros w data Hstate Hmissing. unfold deleteBlock, applyStateMutation, cloneState.
    run_eff. rewrite Hstate. cbn. unfold deleteBlockMutator. by rewrite Hmissing.
Qed.

Lemma deleteBlock_removes_one_witness :
  @deleteBlock digitsBuiltins sampleYaml scriptedRemote "07" "1"
    (sampleWorld [Responds tagAnswer])
  = (Err typeError, sampleWorld [Responds tagAnswer]).
Proof.
  apply (proj2 (@deleteBlock_removes_one digitsBuiltins sampleYaml scriptedRemote
                  "07"%string "1"%string)
           (sampleWorld [Responds tagAnswer]) sampleData); reflexivity.
Defined.

(** X22. [deleteBlock] compares the selected block with the identifier of the
    deleted block only: while a territory is selected, deleting a block of
    any territory that exists, the selected one or another, clears the block
    selection when the two identifiers are equal, and keeps the selected
    territory when no token is stored. *)
Theorem deleteBlock_clears_selection `{Builtins} `{Yaml} `{Remote}
    territoryId blockId w data :
  appState (ui w) = Some data →
  is_Some (territories data !! territoryId) →
  truthy (selectedTerritoryId (ui w)) = true →
  selectedBlockId (ui w) = Some blockId →
  ∃ w', deleteBlock territoryId blockId w = (Ok tt, w')
        ∧ selectedBlockId (ui w') = None
        ∧ (patValue (ui w) = ""%string →
           selectedTerritoryId (ui w') = selectedTerritoryId (ui w)).
Proof.
  intros Hstate [territory Hterritory] _ Hsel. unfold deleteBlock.
  unfold bind at 1. unfold readUi at 1. cbn -[applyStateMutation bind].
  unfold bind at 1.
  destruct (applyStateMutation_returns (deleteBlockMutator territoryId blockId)
              "Exclusão de quadra" w) as (w1 & -> & _ & Hnone).
  { intros data' Hdata'. assert (data' = data) as -> by congruence.
    unfold deleteBlockMutator. rewrite Hterritory. by eexists. }
  rewrite Hsel, bool_decide_eq_true_2 by done. run_eff. cbn.
  eexists. split; [done|]. cbn. split; [done|].
  intros Hpat. by destruct (Hnone Hpat) as (_ & -> & _).
Qed.

Lemma deleteBlock_clears_selection_witness :
  ∃ w', @deleteBlock digitsBuiltins sampleYaml scriptedRemote "01" "1"
          (sampleWorld [Responds unauthorizedAnswer]) = (Ok tt, w')
        ∧ selectedBlockId (ui w') = None.
Proof.
  destruct (@deleteBlock_clears_selection digitsBuiltins sampleYaml scriptedRemote
              "01"%string "1"%string (sampleWorld [Responds unauthorizedAnswer]) sampleData)
    as (w' & Hrun & Hb & _); [reflexivity|by eexists|reflexivity|reflexivity|].
  by exists w'.
Defined.

(** ** Roles and sessions *)

Lemma fromEntries_snoc rows row :
  fromEntries (rows ++ [row]) = <[row.1 := row.2]> (fromEntries rows).
Proof. unfold fromEntries. by rewrite foldl_app. Qed.

Lemma normalizedRows_snoc `{Strings} rows row :
  normalizedRows (rows ++ [row])
  = normalizedRows rows
    ++ (if bool_decide (normalizedEmail row.1 = ""%string) then []
        else [(normalizedEmail row.1, row.2)]).
Proof.
  unfold normalizedRows, normalizedEmail. rewrite fmap_app, List.filter_app. cbn.
  by case_bool_decide.
Qed.

Lemma submittedRoles_empty_key `{Strings} rows : submittedRoles rows !! ""%string = None.
Proof.
  unfold submittedRoles. induction rows as [|row rows IH] using rev_ind; [done|].
  rewrite normalizedRows_snoc. case_bool_decide as Hrow.
  - by rewrite app_nil_r.
  - rewrite fromEntries_snoc. cbn. by rewrite lookup_insert_ne.
Qed.

Lemma submittedRoles_key `{Strings} rows key :
  key ≠ ""%string → submittedRoles rows !! key = lastRole rows key.
Proof.
  intros Hkey. unfold submittedRoles, lastRole.
  induction rows as [|row rows IH] using rev_ind; [done|].
  rewrite normalizedRows_snoc, list.filter_app.
  destruct (decide (normalizedEmail row.1 = key)) as [Heq|Hne].
  - rewrite (filter_cons_True _ row []) by done. rewrite filter_nil, last_snoc.
    rewrite bool_decide_eq_false_2 by congruence.
    rewrite fromEntries_snoc. cbn [fst snd fmap option_fmap option_map].
    by rewrite Heq, lookup_insert_eq.
  - rewrite (filter_cons_False _ row []) by done. rewrite filter_nil, app_nil_r, <- IH.
    case_bool_decide; [by rewrite app_nil_r|].
    rewrite fromEntries_snoc. cbn [fst snd]. by rewrite lookup_insert_ne.
Qed.

(** X23. The roles the form submits: no entry has the empty address (rows
    whose address is blank are dropped), and an address that is not empty
    gets the role of the last row that stands for it, after trimming and
    lowering, so a later duplicate replaces an earlier one. *)
Theorem submittedRoles_lookup `{Strings} rows :
  submittedRoles rows !! ""%string = None
  ∧ ∀ key, key ≠ ""%string → submittedRoles rows !! key = lastRole rows key.
Proof. split; [apply submittedRoles_empty_key|apply submittedRoles_key]. Qed.

Lemma submittedRoles_lookup_witness :
  @submittedRoles asciiStrings sampleRows !! "ana@example.org"%string = Some Admin.
Proof.
  rewrite (proj2 (@submittedRoles_lookup asciiStrings sampleRows) "ana@example.org"%string).
  - reflexivity.
  - discriminate.
Defined.

(** X24. Saving the roles replaces the table of roles as a whole and changes
    nothing else of the document; a login on the saved document with an
    address that is not blank then gets the role of the last row of the form
    for that address, and [Comum] when the form has no such row, whatever
    role the address had before. *)
Theorem saved_roles_decide_login `{Strings} rows data s c :
  appState c = updateUserRolesMutator (submittedRoles rows) data →
  normalizedEmail (emailInput s) ≠ ""%string →
  (∃ data', appState c = Some data'
            ∧ territories data' = territories data
            ∧ superAdminEmail (appConfig data') = superAdminEmail (appConfig data))
  ∧ activeEmail (handleLogin s c).1 = normalizedEmail (emailInput s)
  ∧ userRole (handleLogin s c).1
    = Some (default Comum (lastRole rows (normalizedEmail (emailInput s)))).
Proof.
  intros Hstate Hemail. unfold updateUserRolesMutator in Hstate.
  split; [by eexists|].
  unfold handleLogin. rewrite Hstate. fold (normalizedEmail (emailInput s)).
  rewrite bool_decide_eq_false_2 by done. cbn [appConfig userRoles].
  rewrite submittedRoles_key by done.
  by destruct (_ && _).
Qed.

Lemma saved_roles_decide_login_witness :
  userRole (@handleLogin asciiStrings sampleSession
              (setAppState
                 (updateUserRolesMutator (@submittedRoles asciiStrings sampleRows) sampleData)
                 sampleComponent)).1
  = Some Admin.
Proof.
  refine (proj2 (proj2 (@saved_roles_decide_login asciiStrings sampleRows sampleData
                          sampleSession
                          (setAppState
                             (updateUserRolesMutator (@submittedRoles asciiStrings sampleRows)
                                sampleData)
                             sampleComponent)
                          eq_refl _))).
  by vm_compute.
Defined.

(** X25. A login reads the document through the table of roles only: the
    address configured as [superAdminEmail] gets no role from being so, and
    is logged in as [Comum], which has the capability [Comum] and no other,
    when the table has no entry for it.  The token dialog is opened only for
    a [Super Admin] without a stored token, and a login never changes the
    document, the tag, the token or the selection. *)
Theorem handleLogin_reads_roles_only `{Strings} s c :
  (∀ data, appState c = Some data →
     normalizedEmail (emailInput s) ≠ ""%string →
     userRoles (appConfig data) !! normalizedEmail (emailInput s) = None →
     userRole (handleLogin s c).1 = Some Comum
     ∧ showPatModal (handleLogin s c).2 = showPatModal c
     ∧ ∀ required, hasCapability Comum required = true → required = Comum)
  ∧ (showPatModal (handleLogin s c).2 ≠ showPatModal c →
     userRole (handleLogin s c).1 = Some SuperAdmin ∧ patValue c = ""%string)
  ∧ appState (handleLogin s c).2 = appState c
  ∧ remoteSha (handleLogin s c).2 = remoteSha c
  ∧ patValue (handleLogin s c).2 = patValue c
  ∧ selectedTerritoryId (handleLogin s c).2 = selectedTerritoryId c
  ∧ selectedBlockId (handleLogin s c).2 = selectedBlockId c.
Proof.
  split.
  { intros data Hstate Hemail Hrole. unfold handleLogin. rewrite Hstate.
    fold (normalizedEmail (emailInput s)).
    rewrite bool_decide_eq_false_2 by done. rewrite Hrole. cbn.
    repeat split; try done. by intros []. }
  unfold handleLogin. fold (normalizedEmail (emailInput s)).
  destruct (appState c) as [data|] eqn:Hstate; [|by cbn; rewrite Hstate].
  case_bool_decide; [by cbn; rewrite Hstate|].
  destruct (default Comum _); cbn; try by rewrite Hstate.
  case_bool_decide; cbn; by rewrite ?Hstate.
Qed.

Lemma handleLogin_reads_roles_only_witness :
  userRole (@handleLogin asciiStrings
              {| emailInput := "admin@example.org"; activeEmail := ""; userRole := None |}
              (setAppState (Some sampleDataWithRoles) sampleComponent)).1
  = Some Comum.
Proof.
  refine (proj1 (proj1 (@handleLogin_reads_roles_only asciiStrings
                          {| emailInput := "admin@example.org"; activeEmail := "";
                             userRole := None |}
                          (setAppState (Some sampleDataWithRoles) sampleComponent))
                   sampleDataWithRoles eq_refl _ _)).
  - by vm_compute.
  - by vm_compute.
Defined.

(** ** Transport codec: what the encoder writes, what the decoder skips *)

Lemma encodeBase64_value s :
  Forall isCodeUnit s → encodeBase64 s = Some (base64Encode (textEncode s)).
Proof.
  intros Hs. unfold encodeBase64. rewrite foldl_snoc. cbn [app].
  apply btoa_bytes. apply textEncode_bytes. by apply scalarValues_scalar.
Qed.

Lemma base64Encode_alphabet bs :
  Forall isByte bs →
  Forall (λ c, (c = 61 ∨ is_Some (base64Value c)) ∧ isAsciiWhitespace c = false)
    (base64Encode bs).
Proof.
  intros Hbs. rewrite base64Encode_sextets. apply Forall_app. split.
  - apply Forall_fmap. eapply List.Forall_impl; [|exact (sextets_range bs Hbs)].
    intros v Hv. cbn. destruct (base64Char_value v Hv) as (-> & _ & ->). split; [|done].
    right. by eexists.
  - destruct (sextets_length bs) as (k & _ & [-> | [-> | ->]]);
      repeat constructor; by left.
Qed.

(** X26. [encodeBase64] never throws on a string: the encoder hands [btoa]
    bytes only.  What it returns is made of the characters of the base64
    alphabet and of [=], without white space, and its length is a multiple
    of four. *)
Theorem encodeBase64_always_encodes s :
  Forall isCodeUnit s →
  ∃ encoded, encodeBase64 s = Some encoded
             ∧ Z.of_nat (length encoded) mod 4 = 0
             ∧ Forall (λ c, c = 61 ∨ is_Some (base64Value c)) encoded
             ∧ List.filter (λ c, negb (isAsciiWhitespace c)) encoded = encoded.
Proof.
  intros Hs. eexists. split; [by apply encodeBase64_value|].
  assert (Forall isByte (textEncode s)) as Hbytes.
  { apply textEncode_bytes. by apply scalarValues_scalar. }
  pose proof (base64Encode_alphabet _ Hbytes) as Halphabet.
  split; [|split].
  - rewrite base64Encode_sextets, length_app, length_fmap.
    destruct (sextets_length (textEncode s)) as (k & Hk & _). zarith.
  - eapply List.Forall_impl; [|exact Halphabet]. by intros c [Hc _].
  - apply filter_all. eapply List.Forall_impl; [|exact Halphabet].
    intros c [_ Hc]. cbn. by rewrite Hc.
Qed.

Lemma encodeBase64_always_encodes_witness :
  ∃ encoded, encodeBase64 [0xD83D; 0xDE00; 0xDC00] = Some encoded
             ∧ Z.of_nat (length encoded) mod 4 = 0.
Proof.
  destruct (encodeBase64_always_encodes [0xD83D; 0xDE00; 0xDC00])
    as (encoded & Henc & Hlen & _).
  - unfold isCodeUnit. repeat constructor; lia.
  - by exists encoded.
Defined.

(** X27. [decodeBase64] skips ASCII white space: two contents that differ in
    white space only decode alike.  So the encoding of a string without
    unpaired surrogates and without a leading U+FEFF, broken into lines as
    the remote store returns it, decodes to that string. *)
Theorem decodeBase64_skips_whitespace payload payload' :
  List.filter (λ c, negb (isAsciiWhitespace c)) payload
  = List.filter (λ c, negb (isAsciiWhitespace c)) payload' →
  decodeBase64 payload = decodeBase64 payload'
  ∧ ∀ s, Forall isCodeUnit s → wellFormed s → ¬ startsWithBOM s →
         encodeBase64 s = Some payload' →
         decodeBase64 payload = Some s.
Proof.
  intros Hfilter.
  assert (decodeBase64 payload = decodeBase64 payload') as Hsame.
  { unfold decodeBase64, atob. by rewrite Hfilter. }
  split; [done|].
  intros s Hs Hwf Hbom Henc. rewrite Hsame.
  destruct (codec_round_trip s Hs) as (encoded & Henc' & Hdec).
  assert (encoded = payload') as -> by congruence.
  rewrite Hdec. unfold roundTripped.
  by rewrite dropBOM_scalarValues, utf16_scalarValues.
Qed.

Lemma decodeBase64_skips_whitespace_witness :
  decodeBase64 [89; 87; 10; 73; 61; 13; 10] = decodeBase64 [89; 87; 73; 61]
  ∧ decodeBase64 [89; 87; 10; 73; 61; 13; 10] = Some [97; 98].
Proof.
  destruct (decodeBase64_skips_whitespace [89; 87; 10; 73; 61; 13; 10] [89; 87; 73; 61])
    as [Hsame Hback]; [reflexivity|].
  split; [exact Hsame|].
  apply (Hback [97; 98]).
  - unfold isCodeUnit. repeat constructor; lia.
  - by vm_compute.
  - by vm_compute.
  - by vm_compute.
Defined.

(** ** Fetching: the first selection *)

Lemma digits_first_key : @FirstKeyIsAKey digitsBuiltins.
Proof.
  intros keys. cbn. destruct (elements keys) as [|key l] eqn:Hkeys; cbn.
  - by apply elements_empty_inv in Hkeys as ->%leibniz_equiv.
  - apply elem_of_elements. rewrite Hkeys. by left.
Qed.

(** X28. When no territory is selected, a fetch whose content decodes to a
    document selects in it: afterwards the selected territory, if any, is a
    territory of the fetched document, the selected block, if its identifier
    is not empty, is a block of that territory and the chalk limit is the
    number of its houses; nothing is selected exactly when the document has
    no territory, and the fetch ends with its success message. *)
Theorem load_selects_first `{Builtins} `{Yaml} `{Remote}
    reason w response store' payload decoded data :
  FirstKeyIsAKey →
  respond (loadRequest (patValue (ui w))) (store w) = (Responds response, store') →
  responseOk response = true →
  responseJson response = JsonValue payload →
  decodeBase64 (default undefinedText (payloadContent payload)) = Some decoded →
  yaml_load decoded = YamlValue (Some data) →
  truthy (selectedTerritoryId (ui w)) = false →
  let c' := ui (loadRemoteState reason w).2 in
  appState c' = Some data
  ∧ (selectedTerritoryId c' = None ↔ territories data = ∅)
  ∧ (∀ territoryId, selectedTerritoryId c' = Some territoryId →
       is_Some (territories data !! territoryId))
  ∧ (∀ blockId, selectedBlockId c' = Some blockId → blockId ≠ ""%string →
       ∃ block, selectedBlock c' = Some block
                ∧ chalkLimit c' = pretty (size (houses block)))
  ∧ notification c'
    = Some {| notificationType := success; notificationMessage := loadedMessage reason |}.
Proof.
  intros Hfirst Hrespond Hok Hjson Hdecoded Hload Hsel.
  unfold loadRemoteState, loadRemoteStateBody, applyResponse, selectFirst. run_eff. cbn.
  rewrite Hrespond. cbn. rewrite Hok. cbn. rewrite Hjson. cbn.
  rewrite Hdecoded. cbn. rewrite Hload. cbn. rewrite Hsel. cbn.
  pose proof (Hfirst (dom (territories data))) as Hkey.
  destruct (firstKey (dom (territories data))) as [territoryId|] eqn:Hterritory; cbn.
  2:{ apply dom_empty_inv_L in Hkey. repeat split; try done. }
  apply elem_of_dom in Hkey as [territory Hlookup].
  assert (territories data ≠ ∅) as Hnonempty.
  { intros Hempty. by rewrite Hempty in Hlookup. }
  destruct (bool_decide (territoryId = ""%string)) eqn:Hblank; cbn.
  { repeat split; try done. intros ? [= <-]. by eexists. }
  rewrite Hlookup. cbn.
  pose proof (Hfirst (dom (blocks territory))) as Hbkey.
  destruct (firstKey (dom (blocks territory))) as [blockId|] eqn:Hblock; cbn.
  2:{ repeat split; try done. intros ? [= <-]. by eexists. }
  apply elem_of_dom in Hbkey as [block Hblookup].
  destruct (bool_decide (blockId = ""%string)) eqn:Hbblank; cbn.
  { apply bool_decide_eq_true_1 in Hbblank as ->.
    repeat split; try done.
    - intros ? [= <-]. by eexists.
    - by intros ? [= <-]. }
  rewrite Hblookup. cbn.
  repeat split; try done.
  - intros ? [= <-]. by eexists.
  - intros ? [= <-] _. exists block. split; [|done].
    unfold selectedBlock, selectedTerritory. cbn. rewrite Hblank. cbn.
    rewrite Hlookup. cbn. rewrite Hbblank. cbn. done.
Qed.

Lemma load_selects_first_witness :
  selectedTerritoryId
    (ui (@loadRemoteState digitsBuiltins fixedYaml scriptedRemote initial
           (unselectedWorld [Responds documentAnswer])).2)
  ≠ None.
Proof.
  destruct (@load_selects_first digitsBuiltins fixedYaml scriptedRemote initial
              (unselectedWorld [Responds documentAnswer]) documentAnswer []
              documentPayload [100] sampleDataWithRoles digits_first_key
              eq_refl eq_refl eq_refl) as (_ & Hnone & _).
  - by vm_compute.
  - reflexivity.
  - reflexivity.
  - intros Hsel. apply Hnone in Hsel. by vm_compute in Hsel.
Defined.

(** ** The role form, opened and saved *)

Lemma normalizedRows_fixed `{Strings} rows :
  Forall (λ row : string * UserRole,
            row.1 ≠ ""%string ∧ normalizedEmail row.1 = row.1) rows →
  normalizedRows rows = rows.
Proof.
  unfold normalizedRows, normalizedEmail.
  induction 1 as [|[email role] rows [Hne Hfixed] _ IH]; [done|].
  cbn in *. rewrite Hfixed, bool_decide_eq_false_2 by done. cbn. by rewrite IH.
Qed.

Lemma fromEntries_lookup rows key role :
  NoDup rows.*1 → fromEntries rows !! key = Some role ↔ (key, role) ∈ rows.
Proof.
  induction rows as [|[key' role'] rows IH] using rev_ind; intros Hnodup.
  { unfold fromEntries. cbn. rewrite lookup_empty. split; [done|]. by intros ?%elem_of_nil. }
  rewrite fmap_app in Hnodup. apply list.NoDup_app in Hnodup as (Hrows & Hfresh & _).
  rewrite fromEntries_snoc, elem_of_app, list_elem_of_singleton. cbn.
  destruct (decide (key = key')) as [->|Hne].
  - rewrite lookup_insert_eq. split.
    + intros [= ->]. by right.
    + intros [Hin|[= ->]]; [|done].
      exfalso. apply (Hfresh key'); [|cbn; by left].
      apply list_elem_of_fmap. by exists (key', role).
  - rewrite lookup_insert_ne by done. rewrite IH by done. split; [by left|].
    intros [Hin|[= -> ->]]; done.
Qed.

(** X29. The role form opened on a table and saved without an edit gives
    the table back, in whatever order the rows are listed, when every
    address of the table is already trimmed, lowered and not empty. *)
Theorem userModal_round_trip `{Strings} (roles : gmap string UserRole) rows :
  rows ≡ₚ map_to_list roles →
  (∀ key, is_Some (roles !! key) → key ≠ ""%string ∧ normalizedEmail key = key) →
  submittedRoles rows = roles.
Proof.
  intros Hrows Hkeys. unfold submittedRoles.
  rewrite normalizedRows_fixed.
  2:{ apply List.Forall_forall. intros [key role] Hin. cbn. apply Hkeys.
      exists role. apply elem_of_map_to_list. rewrite <- Hrows.
      by apply list_elem_of_In. }
  apply map_eq. intros key. apply option_eq. intros role.
  rewrite fromEntries_lookup.
  - by rewrite Hrows, elem_of_map_to_list.
  - rewrite Hrows. apply NoDup_fst_map_to_list.
Qed.

Lemma userModal_round_trip_witness :
  @submittedRoles asciiStrings [("ana@example.org"%string, Admin)] = sampleRoles.
Proof.
  apply (@userModal_round_trip asciiStrings sampleRoles).
  - unfold sampleRoles. by rewrite map_to_list_singleton.
  - intros key [role Hrole]. unfold sampleRoles in Hrole.
    apply lookup_singleton_Some in Hrole as [<- _]. by vm_compute.
Defined.
